(** * WokiBrain: a shallow embedding of the seating allocation core

    The development follows the TypeScript sources module by module:
    [domain/types.ts], [store/db.ts], [domain/blackouts.ts],
    [domain/gaps.ts], [domain/wokibrain.ts], [domain/waitlist.ts],
    [store/locks.ts], [domain/booking-service.ts],
    [domain/duration-rules.ts], [store/metrics.ts], the handlers of
    [routes.ts] and [middleware/error-handler.ts].

    Representation choices.
    - An [ISODateTime] produced by [Date.prototype.toISOString] is kept as
      the instant it denotes, in milliseconds since the epoch ([Z]).  On
      such canonical strings the source's string comparisons ([<], [>],
      [localeCompare]) agree with the numeric order of the instants, and
      [s.startsWith(date)] holds exactly when the UTC calendar day of the
      instant is [date].
    - A calendar date ["YYYY-MM-DD"] is kept as its day number since the
      epoch, a time of day ["HH:MM"] as its two numeric fields.
    - A JavaScript [Map] is an association list in insertion order.
    - The wall clock and the source of random identifiers are fields of
      the world state.  Of the metrics only the assignment times and
      their statistics are followed; logging is not modelled. *)

From Stdlib Require Import ZArith List Lia Bool String Ascii DecimalString.
From Stdlib Require Import Sorting.Sorted Sorting.Permutation.
Import ListNotations.
Local Open Scope Z_scope.

Set Implicit Arguments.

(** ** JavaScript arrays: the stable [Array.prototype.sort] *)

Module JsArray.

Section Sort.
Variable A : Type.
(** The comparator returns a number; only its sign matters. *)
Variable cmp : A -> A -> Z.

Fixpoint insert (x : A) (l : list A) : list A :=
  match l with
  | [] => [x]
  | y :: l' => if cmp x y <=? 0 then x :: l else y :: insert x l'
  end.

(** Stable: an element is placed before the later elements it ties with. *)
Definition sort (l : list A) : list A := fold_right insert [] l.

Definition some (p : A -> bool) (l : list A) : bool := existsb p l.

(** The order the comparator stands for. *)
Definition le (a b : A) : Prop := cmp a b <= 0.
End Sort.

End JsArray.

(** ** JavaScript [Map]: insertion-ordered association list *)

Module JsMap.

Section Map.
Variable V : Type.

Definition t := list (string * V).

Fixpoint get (m : t) (k : string) : option V :=
  match m with
  | [] => None
  | (k', v) :: m' => if String.eqb k' k then Some v else get m' k
  end.

(** [set] keeps the position of a key that is already present. *)
Fixpoint set (m : t) (k : string) (v : V) : t :=
  match m with
  | [] => [(k, v)]
  | (k', v') :: m' =>
      if String.eqb k' k then (k, v) :: m' else (k', v') :: set m' k v
  end.

(** [delete] leaves no binding of the key. *)
Fixpoint delete (m : t) (k : string) : t :=
  match m with
  | [] => []
  | (k', v') :: m' =>
      if String.eqb k' k then delete m' k else (k', v') :: delete m' k
  end.

Definition values (m : t) : list V := map snd m.
Definition keys (m : t) : list string := map fst m.
Definition has (m : t) (k : string) : bool :=
  match get m k with Some _ => true | None => false end.
End Map.

End JsMap.

(** ** domain/types.ts *)

Definition ISODateTime := Z.

(** [a.localeCompare(b)] on two canonical instants. *)
Definition localeCompareIso (a b : ISODateTime) : Z :=
  match a ?= b with Lt => -1 | Eq => 0 | Gt => 1 end.

(** Offset of local time from UTC, in minutes, at a given instant
  ([Intl.DateTimeFormat] with the zone's name). *)
Definition TimeZone := Z -> Z.

Module TimeOfDay.
Record t := mk { hour : Z; minute : Z }.
(** Order of the strings ["HH:MM"] with two-digit fields. *)
Definition ltb (a b : t) : bool :=
  (hour a <? hour b) || ((hour a =? hour b) && (minute a <? minute b)).
Definition leb (a b : t) : bool := negb (ltb b a).
End TimeOfDay.

Module ServiceWindow.
Record t := mk { start : TimeOfDay.t; end_ : TimeOfDay.t }.
End ServiceWindow.

Module Restaurant.
Record t := mk {
  id : string;
  name : string;
  timezone : TimeZone;
  windows : option (list ServiceWindow.t);
  largeGroupThreshold : option Z
}.
End Restaurant.

Module Sector.
Record t := mk { id : string; restaurantId : string; name : string }.
End Sector.

Module Table.
Record t := mk {
  id : string;
  sectorId : string;
  name : string;
  minSize : Z;
  maxSize : Z
}.
End Table.

Inductive BookingStatus := CONFIRMED | CANCELLED | PENDING.

Definition BookingStatus_eqb (a b : BookingStatus) : bool :=
match a, b with
| CONFIRMED, CONFIRMED | CANCELLED, CANCELLED | PENDING, PENDING => true
| _, _ => false
end.

Module Booking.
Record t := mk {
  id : string;
  restaurantId : string;
  sectorId : string;
  tableIds : list string;
  partySize : Z;
  start : ISODateTime;
  end_ : ISODateTime;
  durationMinutes : Z;
  status : BookingStatus;
  createdAt : ISODateTime;
  updatedAt : ISODateTime
}.
End Booking.

Module Gap.
Record t := mk { start : ISODateTime; end_ : ISODateTime }.
End Gap.

Inductive CandidateKind := single | combo.

Module Candidate.
Record t := mk {
  kind : CandidateKind;
  tableIds : list string;
  start : ISODateTime;
  end_ : ISODateTime;
  minCapacity : Z;
  maxCapacity : Z;
  score : option Z;
  rationale : option string
}.
End Candidate.

Module Blackout.
Record t := mk {
  id : string;
  tableId : string;
  start : ISODateTime;
  end_ : ISODateTime;
  reason : string
}.
End Blackout.

Module WaitlistEntry.
Record t := mk {
  id : string;
  restaurantId : string;
  sectorId : string;
  partySize : Z;
  durationMinutes : Z;
  date : Z;
  windowStart : option TimeOfDay.t;
  windowEnd : option TimeOfDay.t;
  contactInfo : option string;
  createdAt : ISODateTime;
  expiresAt : ISODateTime
}.
End WaitlistEntry.

(** ** store/db.ts *)

Module Db.

Record t := mk {
  restaurants : JsMap.t Restaurant.t;
  sectors : JsMap.t Sector.t;
  tables : JsMap.t Table.t;
  bookings : JsMap.t Booking.t;
  (** value: the stored booking and [expiresAt] in epoch milliseconds *)
  idempotencyCache : JsMap.t (Booking.t * Z);
  blackouts : JsMap.t Blackout.t;
  waitlist : JsMap.t WaitlistEntry.t
}.

Definition empty : t := mk [] [] [] [] [] [] [].

Definition with_bookings (db : t) (bs : JsMap.t Booking.t) : t :=
  mk (restaurants db) (sectors db) (tables db) bs
     (idempotencyCache db) (blackouts db) (waitlist db).

Definition with_idempotencyCache (db : t) (c : JsMap.t (Booking.t * Z)) : t :=
  mk (restaurants db) (sectors db) (tables db) (bookings db)
     c (blackouts db) (waitlist db).

Definition with_waitlist (db : t) (wl : JsMap.t WaitlistEntry.t) : t :=
  mk (restaurants db) (sectors db) (tables db) (bookings db)
     (idempotencyCache db) (blackouts db) wl.

Definition with_blackouts (db : t) (bl : JsMap.t Blackout.t) : t :=
  mk (restaurants db) (sectors db) (tables db) (bookings db)
     (idempotencyCache db) bl (waitlist db).

Definition getRestaurant (db : t) (id : string) : option Restaurant.t :=
  JsMap.get (restaurants db) id.

Definition getSector (db : t) (id : string) : option Sector.t :=
  JsMap.get (sectors db) id.

Definition getTablesBySector (db : t) (sectorId : string) : list Table.t :=
  filter (fun t => String.eqb (Table.sectorId t) sectorId)
         (JsMap.values (tables db)).

Definition createBooking (db : t) (b : Booking.t) : t :=
  with_bookings db (JsMap.set (bookings db) (Booking.id b) b).

Definition getBooking (db : t) (id : string) : option Booking.t :=
  JsMap.get (bookings db) id.

(** UTC calendar day of an instant: the ["YYYY-MM-DD"] prefix of its
    canonical string. *)
Definition utcDay (ts : ISODateTime) : Z := ts / 86400000.

Definition startsWith (s : ISODateTime) (date : Z) : bool := utcDay s =? date.

Definition has (set : list string) (x : string) : bool :=
  existsb (String.eqb x) set.

Definition byStart (a b : Booking.t) : Z :=
  localeCompareIso (Booking.start a) (Booking.start b).

Definition getBookingsByTablesAndDate
    (db : t) (tableIds : list string) (date : Z) : list Booking.t :=
  JsArray.sort byStart
    (filter (fun b =>
               BookingStatus_eqb (Booking.status b) CONFIRMED
               && startsWith (Booking.start b) date
               && JsArray.some (fun tid => has tableIds tid) (Booking.tableIds b))
            (JsMap.values (bookings db))).

Definition with_status (b : Booking.t) (st : BookingStatus) (now : Z) : Booking.t :=
  Booking.mk (Booking.id b) (Booking.restaurantId b) (Booking.sectorId b)
    (Booking.tableIds b) (Booking.partySize b) (Booking.start b)
    (Booking.end_ b) (Booking.durationMinutes b) st
    (Booking.createdAt b) now.

(** [updateBooking(id, { status })], the only update the handlers make. *)
Definition updateBooking (now : Z) (db : t) (id : string) (st : BookingStatus) : t :=
  match JsMap.get (bookings db) id with
  | Some b => with_bookings db (JsMap.set (bookings db) id (with_status b st now))
  | None => db
  end.

Definition deleteBooking (db : t) (id : string) : t :=
  with_bookings db (JsMap.delete (bookings db) id).

Definition setIdempotency
    (now : Z) (db : t) (key : string) (b : Booking.t) (ttlSeconds : Z) : t :=
  with_idempotencyCache db
    (JsMap.set (idempotencyCache db) key (b, now + ttlSeconds * 1000)).

(** A lookup drops an entry it finds expired. *)
Definition getIdempotency (now : Z) (db : t) (key : string)
    : option Booking.t * t :=
  match JsMap.get (idempotencyCache db) key with
  | None => (None, db)
  | Some (b, expiresAt) =>
      if now >? expiresAt
      then (None, with_idempotencyCache db (JsMap.delete (idempotencyCache db) key))
      else (Some b, db)
  end.

Definition getBlackoutsByTables (db : t) (tableIds : list string) : list Blackout.t :=
  filter (fun b => has tableIds (Blackout.tableId b))
         (JsMap.values (blackouts db)).

Definition createBlackout (db : t) (b : Blackout.t) : t :=
  with_blackouts db (JsMap.set (blackouts db) (Blackout.id b) b).

Definition createWaitlistEntry (db : t) (e : WaitlistEntry.t) : t :=
  with_waitlist db (JsMap.set (waitlist db) (WaitlistEntry.id e) e).

Definition byCreatedAt (a b : WaitlistEntry.t) : Z :=
  localeCompareIso (WaitlistEntry.createdAt a) (WaitlistEntry.createdAt b).

Definition getWaitlistEntriesBySectorAndDate
    (now : Z) (db : t) (sectorId : string) (date : Z) : list WaitlistEntry.t :=
  JsArray.sort byCreatedAt
    (filter (fun e =>
               String.eqb (WaitlistEntry.sectorId e) sectorId
               && (WaitlistEntry.date e =? date)
               && (WaitlistEntry.expiresAt e >? now))
            (JsMap.values (waitlist db))).

Definition deleteWaitlistEntry (db : t) (id : string) : t :=
  with_waitlist db (JsMap.delete (waitlist db) id).

End Db.

(** ** domain/blackouts.ts *)

Module Blackouts.

Definition hasBlackout
    (db : Db.t) (tableIds : list string) (start end_ : ISODateTime) : bool :=
  let blackouts := Db.getBlackoutsByTables db tableIds in
  if start >=? end_ then false
  else JsArray.some
         (fun blackout =>
            if Blackout.start blackout >=? Blackout.end_ blackout then false
            else (Blackout.start blackout <? end_)
                 && (Blackout.end_ blackout >? start))
         blackouts.

Definition byStart (a b : Blackout.t) : Z := Blackout.start a - Blackout.start b.

(** The inner loop of [filterGapsByBlackouts]: [currentStart] sweeps over
    the overlapping blackouts sorted by start. *)
Fixpoint splitAround
    (currentStart : Z) (overlapping : list Blackout.t) (gapEnd : Z) : list Gap.t :=
  match overlapping with
  | [] =>
      if currentStart <? gapEnd then [Gap.mk currentStart gapEnd] else []
  | blackout :: rest =>
      let blackoutStart := Blackout.start blackout in
      let blackoutEnd := Blackout.end_ blackout in
      (if currentStart <? blackoutStart
       then [Gap.mk currentStart blackoutStart] else [])
      ++ splitAround (Z.max currentStart blackoutEnd) rest gapEnd
  end.

Definition filterGapsByBlackouts
    (db : Db.t) (gaps : list Gap.t) (tableIds : list string) : list Gap.t :=
  let blackouts := Db.getBlackoutsByTables db tableIds in
  match blackouts with
  | [] => gaps
  | _ =>
      flat_map
        (fun gap =>
           let gapStart := Gap.start gap in
           let gapEnd := Gap.end_ gap in
           let overlappingBlackouts :=
             filter (fun blackout =>
                       (Blackout.start blackout <? gapEnd)
                       && (Blackout.end_ blackout >? gapStart))
                    blackouts in
           match overlappingBlackouts with
           | [] => [gap]
           | _ => splitAround gapStart
                    (JsArray.sort byStart overlappingBlackouts) gapEnd
           end)
        gaps
  end.

End Blackouts.

(** ** domain/gaps.ts *)

Module Gaps.

Definition sum (f : Table.t -> Z) (tables : list Table.t) : Z :=
  fold_left (fun acc table => acc + f table) tables 0.

Definition calculateComboCapacity (tables : list Table.t) : Z * Z :=
  (sum Table.minSize tables, sum Table.maxSize tables).

Definition toZonedIso (date : Z) (time : TimeOfDay.t) (timeZone : TimeZone)
    : ISODateTime :=
  let utcTs := date * 86400000
               + TimeOfDay.hour time * 3600000
               + TimeOfDay.minute time * 60000 in
  let offsetMinutes := timeZone utcTs in
  utcTs - offsetMinutes * 60 * 1000.

(** The sweep of [findGapsInWindow] over the relevant bookings, sorted by
    start; [currentTimeTs] is the watermark. *)
Fixpoint sweep
    (currentTimeTs : Z) (relevantBookings : list Booking.t) (winEndTs : Z)
    : list Gap.t :=
  match relevantBookings with
  | [] =>
      if currentTimeTs <? winEndTs then [Gap.mk currentTimeTs winEndTs] else []
  | booking :: rest =>
      let bookingStartTs := Booking.start booking in
      let bookingEndTs := Booking.end_ booking in
      (if currentTimeTs <? bookingStartTs
       then [Gap.mk currentTimeTs bookingStartTs] else [])
      ++ sweep (if bookingEndTs >? currentTimeTs then bookingEndTs else currentTimeTs)
               rest winEndTs
  end.

Definition byStartTs (a b : Booking.t) : Z := Booking.start a - Booking.start b.

Definition findGapsInWindow
    (bookings : list Booking.t) (windowStart windowEnd : ISODateTime) : list Gap.t :=
  let winStartTs := windowStart in
  let winEndTs := windowEnd in
  let relevantBookings :=
    JsArray.sort byStartTs
      (filter (fun b =>
                 (Booking.start b <? winEndTs) && (Booking.end_ b >? winStartTs))
              bookings) in
  sweep winStartTs relevantBookings winEndTs.

Definition findTableGaps
    (db : Db.t) (tableId : string) (date : Z)
    (serviceWindows : list ServiceWindow.t) (restaurantTimezone : TimeZone)
    : list Gap.t :=
  let bookings := Db.getBookingsByTablesAndDate db [tableId] date in
  match serviceWindows with
  | [] =>
      let dayStart := toZonedIso date (TimeOfDay.mk 0 0) restaurantTimezone in
      let dayEnd := toZonedIso date (TimeOfDay.mk 23 59) restaurantTimezone in
      findGapsInWindow bookings dayStart dayEnd
  | _ =>
      let gaps :=
        flat_map
          (fun window =>
             let windowStart :=
               toZonedIso date (ServiceWindow.start window) restaurantTimezone in
             let windowEnd :=
               toZonedIso date (ServiceWindow.end_ window) restaurantTimezone in
             findGapsInWindow bookings windowStart windowEnd)
          serviceWindows in
      Blackouts.filterGapsByBlackouts db gaps [tableId]
  end.

(** Two cursors over the two lists; the cursor of the gap that ends first
    advances. *)
Fixpoint intersectGaps (gaps1 gaps2 : list Gap.t) {struct gaps1} : list Gap.t :=
  match gaps1 with
  | [] => []
  | gap1 :: rest1 =>
      (fix scan (gaps2 : list Gap.t) : list Gap.t :=
         match gaps2 with
         | [] => []
         | gap2 :: rest2 =>
             let overlapStart :=
               if Gap.start gap1 >? Gap.start gap2
               then Gap.start gap1 else Gap.start gap2 in
             let overlapEnd :=
               if Gap.end_ gap1 <? Gap.end_ gap2
               then Gap.end_ gap1 else Gap.end_ gap2 in
             (if overlapStart <? overlapEnd
              then [Gap.mk overlapStart overlapEnd] else [])
             ++ (if Gap.end_ gap1 <? Gap.end_ gap2
                 then intersectGaps rest1 gaps2
                 else scan rest2)
         end) gaps2
  end.

Definition findComboGaps
    (db : Db.t) (tableIds : list string) (date : Z)
    (serviceWindows : list ServiceWindow.t) (restaurantTimezone : TimeZone)
    : list Gap.t :=
  match tableIds with
  | [] => []
  | [tableId] => findTableGaps db tableId date serviceWindows restaurantTimezone
  | first :: others =>
      let tableGaps :=
        map (fun tableId =>
               findTableGaps db tableId date serviceWindows restaurantTimezone) in
      let intersection :=
        fold_left intersectGaps (tableGaps others)
          (findTableGaps db first date serviceWindows restaurantTimezone) in
      Blackouts.filterGapsByBlackouts db intersection tableIds
  end.

(** [Date] field accessors on an instant.  The source reads and writes
    the fields in the local time of the process; they are taken in UTC
    here, which gives the same roundings for every zone whose offset is a
    multiple of fifteen minutes. *)
Definition getMinutes (d : Z) : Z := (d / 60000) mod 60.
Definition getSeconds (d : Z) : Z := (d / 1000) mod 60.
Definition getMilliseconds (d : Z) : Z := d mod 1000.
Definition setMinutes (d m : Z) : Z := d + (m - getMinutes d) * 60000.
Definition setSeconds (d s : Z) : Z := d + (s - getSeconds d) * 1000.
Definition setMilliseconds (d ms : Z) : Z := d + (ms - getMilliseconds d).

Inductive Direction := up | down.

Definition roundToSlot (date : Z) (slotMinutes : Z) (direction : Direction) : Z :=
  let minutes := getMinutes date in
  let remainder := Z.rem minutes slotMinutes in
  if remainder =? 0 then date
  else
    match direction with
    | up =>
        setMilliseconds (setSeconds
          (setMinutes date (minutes + (slotMinutes - remainder))) 0) 0
    | down =>
        setMilliseconds (setSeconds
          (setMinutes date (minutes - remainder)) 0) 0
    end.

(** The inner [while] of [filterGapsByDuration].  [fuel] bounds the
    number of iterations; for a positive step the bound [iterations] used
    by [filterGapsByDuration] is never the reason the loop stops
    ([DurationFacts.filter_loop_terminates]). *)
Fixpoint slots
    (fuel : nat) (currentStart roundedEnd durationMinutes slotMinutes : Z)
    : list Gap.t :=
  match fuel with
  | O => []
  | S fuel' =>
      if currentStart + durationMinutes * 60 * 1000 <=? roundedEnd then
        let currentEnd := currentStart + durationMinutes * 60 * 1000 in
        Gap.mk currentStart currentEnd
        :: slots fuel' (currentStart + slotMinutes * 60 * 1000)
             roundedEnd durationMinutes slotMinutes
      else []
  end.

Definition iterations (roundedStart roundedEnd durationMinutes slotMinutes : Z) : nat :=
  Z.to_nat ((roundedEnd - roundedStart - durationMinutes * 60 * 1000)
            / (slotMinutes * 60 * 1000) + 1).

(** [availableMinutes >= durationMinutes] is compared in milliseconds:
    the source's division by [1000 * 60] is exact real division. *)
Definition filterGapsByDuration
    (gaps : list Gap.t) (durationMinutes : Z) (slotMinutes : Z) : list Gap.t :=
  flat_map
    (fun gap =>
       let roundedStart := roundToSlot (Gap.start gap) slotMinutes up in
       let roundedEnd := roundToSlot (Gap.end_ gap) slotMinutes down in
       if durationMinutes * (1000 * 60) <=? roundedEnd - roundedStart then
         slots (iterations roundedStart roundedEnd durationMinutes slotMinutes)
               roundedStart roundedEnd durationMinutes slotMinutes
       else [])
    gaps.

End Gaps.

(** ** domain/wokibrain.ts *)

Module Wokibrain.

(** Decimal rendering of a number inside a template string. *)
Definition show (z : Z) : string := NilZero.string_of_int (Z.to_int z).

(** [Array.prototype.sort()] without comparator on strings: code-unit order. *)
Definition codeUnitOrder (a b : string) : Z :=
  match String.compare a b with Lt => -1 | Eq => 0 | Gt => 1 end.

Definition sortStrings (l : list string) : list string :=
  JsArray.sort codeUnitOrder l.

Definition join (sep : string) (l : list string) : string := String.concat sep l.

Definition CandidateKind_eqb (a b : CandidateKind) : bool :=
  match a, b with
  | single, single | combo, combo => true
  | _, _ => false
  end.

(** The recursive helper [combine] of [generateCombinations]: the subsets
    of size [targetSize], in the order the backtracking emits them. *)
Fixpoint combine (A : Type) (arr : list A) (targetSize : nat) {struct arr}
    : list (list A) :=
  match arr with
  | [] => match targetSize with O => [[]] | S _ => [] end
  | x :: rest =>
      match targetSize with
      | O => [[]]
      | S k => map (cons x) (combine rest k) ++ combine rest (S k)
      end
  end.

Definition generateCombinations (A : Type) (arr : list A) (minSize : nat)
    : list (list A) :=
  if ((minSize <=? 0) || (List.length arr <? minSize))%nat then []
  else flat_map (fun size => combine arr size)
                (seq minSize (List.length arr - minSize + 1)).

Definition withScore (c : Candidate.t) (s : Z) (r : string) : Candidate.t :=
  Candidate.mk (Candidate.kind c) (Candidate.tableIds c) (Candidate.start c)
    (Candidate.end_ c) (Candidate.minCapacity c) (Candidate.maxCapacity c)
    (Some s) (Some r).

(** The body of [candidates.forEach]: score and rationale. *)
Definition scoreCandidate (partySize : Z) (candidate : Candidate.t) : Candidate.t :=
  let waste := Candidate.maxCapacity candidate - partySize in
  let startTime := Candidate.start candidate in
  let baseScore :=
    match Candidate.kind candidate with single => 0 | combo => 1000 end in
  let wasteScore := waste * 10 in
  let timeScore := Z.rem (startTime / 1000) 10000 in
  let reasons :=
    [ match Candidate.kind candidate with
      | single => "single table"%string
      | combo =>
          (show (Z.of_nat (List.length (Candidate.tableIds candidate)))
           ++ "-table combo")%string
      end;
      ("capacity: " ++ show (Candidate.minCapacity candidate) ++ "-"
       ++ show (Candidate.maxCapacity candidate))%string;
      if waste =? 0 then "perfect fit"%string
      else (show waste ++ " seat" ++ (if waste >? 1 then "s" else "")
            ++ " spare")%string ] in
  withScore candidate (baseScore + wasteScore + timeScore) (join ", " reasons).

Section Collation.

(** [String.prototype.localeCompare] on table-id strings: negative, zero or
    positive.  The collation is the host's. *)
Variable localeCompare : string -> string -> Z.

(** The comparator passed to [candidates.sort].  Its last step sorts the
    table ids of both candidates in place; which candidates a run of the
    sort hands to that step depends on the engine, and it changes neither
    the value of any comparison nor the set of ids of a candidate.  The
    candidates keep their ids in the order of enumeration here. *)
Definition compareCandidates (partySize : Z) (a b : Candidate.t) : Z :=
  if negb (CandidateKind_eqb (Candidate.kind a) (Candidate.kind b)) then
    match Candidate.kind a with single => -1 | combo => 1 end
  else
    let timeDiff := localeCompareIso (Candidate.start a) (Candidate.start b) in
    if negb (timeDiff =? 0) then timeDiff
    else
      let wasteA := Candidate.maxCapacity a - partySize in
      let wasteB := Candidate.maxCapacity b - partySize in
      if negb (wasteA =? wasteB) then wasteA - wasteB
      else
        let idsA := join "," (sortStrings (Candidate.tableIds a)) in
        let idsB := join "," (sortStrings (Candidate.tableIds b)) in
        localeCompare idsA idsB.

(** The candidate list before scoring, sorting and truncation. *)
Definition enumerateCandidates
    (db : Db.t) (tables : list Table.t) (date : Z) (partySize durationMinutes : Z)
    (activeWindows : list ServiceWindow.t) (restaurantTimezone : TimeZone)
    (requested : option (Z * Z)) : list Candidate.t :=
  let clip (validGaps : list Gap.t) :=
    match requested with
    | Some (requestedStartTs, requestedEndTs) =>
        filter (fun gap =>
                  (Gap.start gap >=? requestedStartTs)
                  && (Gap.end_ gap <=? requestedEndTs))
               validGaps
    | None => validGaps
    end in
  let singles :=
    flat_map
      (fun table =>
         if (partySize <? Table.minSize table) || (partySize >? Table.maxSize table)
         then []
         else
           let gaps := Gaps.findTableGaps db (Table.id table) date
                         activeWindows restaurantTimezone in
           let validGaps := Gaps.filterGapsByDuration gaps durationMinutes 15 in
           map (fun gap =>
                  Candidate.mk single [Table.id table] (Gap.start gap) (Gap.end_ gap)
                    (Table.minSize table) (Table.maxSize table) None None)
               (clip validGaps))
      tables in
  let tableIds := map Table.id tables in
  let combos := generateCombinations tableIds 2 in
  let comboCandidates :=
    flat_map
      (fun comboTableIds =>
         let comboTables :=
           flat_map (fun id =>
                       match find (fun t => String.eqb (Table.id t) id) tables with
                       | Some t => [t]
                       | None => []
                       end)
                    comboTableIds in
         let capacity := Gaps.calculateComboCapacity comboTables in
         if (partySize <? fst capacity) || (partySize >? snd capacity)
         then []
         else
           let gaps := Gaps.findComboGaps db comboTableIds date
                         activeWindows restaurantTimezone in
           let validGaps := Gaps.filterGapsByDuration gaps durationMinutes 15 in
           map (fun gap =>
                  Candidate.mk combo comboTableIds (Gap.start gap) (Gap.end_ gap)
                    (fst capacity) (snd capacity) None None)
               (clip validGaps))
      combos in
  singles ++ comboCandidates.

Definition findCandidates
    (db : Db.t) (sectorId : string) (date : Z) (partySize durationMinutes : Z)
    (serviceWindows : list ServiceWindow.t) (restaurantTimezone : TimeZone)
    (requestedWindowStart requestedWindowEnd : option TimeOfDay.t)
    (limit : nat) : list Candidate.t :=
  let tables := Db.getTablesBySector db sectorId in
  match tables with
  | [] => []
  | _ =>
      let requested :=
        match requestedWindowStart, requestedWindowEnd with
        | Some s, Some e =>
            Some (Gaps.toZonedIso date s restaurantTimezone,
                  Gaps.toZonedIso date e restaurantTimezone)
        | _, _ => None
        end in
      let activeWindows :=
        match requested with
        | Some (requestedStartIso, requestedEndIso) =>
            filter (fun window =>
                      let windowStart :=
                        Gaps.toZonedIso date (ServiceWindow.start window)
                          restaurantTimezone in
                      let windowEnd :=
                        Gaps.toZonedIso date (ServiceWindow.end_ window)
                          restaurantTimezone in
                      (requestedStartIso <? windowEnd)
                      && (requestedEndIso >? windowStart))
                   serviceWindows
        | None => serviceWindows
        end in
      match requested, activeWindows with
      | Some _, [] => []
      | _, _ =>
          let candidates :=
            enumerateCandidates db tables date partySize durationMinutes
              activeWindows restaurantTimezone requested in
          let scored := map (scoreCandidate partySize) candidates in
          firstn limit (JsArray.sort (compareCandidates partySize) scored)
      end
  end.

Definition selectBestCandidate
    (db : Db.t) (sectorId : string) (date : Z) (partySize durationMinutes : Z)
    (serviceWindows : list ServiceWindow.t) (restaurantTimezone : TimeZone)
    (requestedWindowStart requestedWindowEnd : option TimeOfDay.t)
    : option Candidate.t :=
  match findCandidates db sectorId date partySize durationMinutes serviceWindows
          restaurantTimezone requestedWindowStart requestedWindowEnd 1 with
  | c :: _ => Some c
  | [] => None
  end.

End Collation.

End Wokibrain.

(** ** The world: store, wall clock and identifier source *)

Module World.

Record t := mk {
  db : Db.t;
  (** [Date.now()], constant during one synchronous step *)
  now : Z;
  (** the suffixes that [Date.now()] and [Math.random()] give to the
      identifiers generated so far and later *)
  rnd : nat -> string;
  tick : nat
}.

Definition with_db (w : t) (d : Db.t) : t := mk d (now w) (rnd w) (tick w).

Definition fresh (w : t) : string * t :=
  (rnd w (tick w), mk (db w) (now w) (rnd w) (S (tick w))).

End World.

Inductive Error := invalid_input | not_found | no_capacity | outside_service_window.

Inductive Result (A : Type) :=
| Ok (a : A)
| Throw (e : Error).

Arguments Ok {A} a.
Arguments Throw {A} e.

(** ** domain/waitlist.ts, first half *)

Module Waitlist.

Definition addToWaitlist
    (w : World.t) (restaurantId sectorId : string) (partySize durationMinutes : Z)
    (date : Z) (windowStart windowEnd : option TimeOfDay.t)
    (contactInfo : option string) (ttlMinutes : Z)
    : WaitlistEntry.t * World.t :=
  let now := World.now w in
  let expiresAt := now + ttlMinutes * 60 * 1000 in
  let '(suffix, w1) := World.fresh w in
  let entry :=
    WaitlistEntry.mk ("WL_" ++ suffix) restaurantId sectorId partySize
      durationMinutes date windowStart windowEnd contactInfo now expiresAt in
  (entry, World.with_db w1 (Db.createWaitlistEntry (World.db w1) entry)).

End Waitlist.

(** ** store/locks.ts *)

Module Locks.

(** [tables.sort()] sorts the array it is given in place: the sorted array
    is returned next to the key, and the caller's candidate holds it from
    then on. *)
Definition generateLockKey
    (restaurantId sectorId : string) (tables : list string) (start : ISODateTime)
    : string * list string :=
  let sorted := Wokibrain.sortStrings tables in
  ((restaurantId ++ ":" ++ sectorId ++ ":" ++ Wokibrain.join "," sorted ++ ":"
    ++ Wokibrain.show start)%string,
   sorted).

End Locks.

(** ** domain/booking-service.ts *)

Module BookingService.

(** A JavaScript number argument: an integer, or anything else. *)
Inductive Num := Int (z : Z) | NotInteger.

(** A string argument that has to match a format: absent (undefined or
    empty, hence falsy), present but not matching, or matching and denoting
    a value. *)
Inductive Arg (A : Type) :=
| Absent
| Malformed
| Given (a : A).

Arguments Absent {A}.
Arguments Malformed {A}.
Arguments Given {A} a.

Definition toOption (A : Type) (x : Arg A) : option A :=
  match x with Given a => Some a | _ => None end.

Record Request := mkRequest {
  restaurantId : string;
  sectorId : string;
  partySize : Num;
  durationMinutes : Num;
  date : Arg Z;
  idempotencyKey : option string;
  requestedWindowStart : Arg TimeOfDay.t;
  requestedWindowEnd : Arg TimeOfDay.t
}.

(** The arguments once validated. *)
Record Args := mkArgs {
  a_restaurantId : string;
  a_sectorId : string;
  a_partySize : Z;
  a_durationMinutes : Z;
  a_date : Z;
  a_idempotencyKey : option string;
  a_windowStart : option TimeOfDay.t;
  a_windowEnd : option TimeOfDay.t
}.

Definition isWhitespace (c : ascii) : bool :=
  let n := nat_of_ascii c in
  ((9 <=? n) && (n <=? 13) || (n =? 32))%nat.

(** [!s || s.trim().length === 0] *)
Fixpoint isBlank (s : string) : bool :=
  match s with
  | EmptyString => true
  | String c s' => isWhitespace c && isBlank s'
  end.

Definition isMalformed (A : Type) (x : Arg A) : bool :=
  match x with Malformed => true | _ => false end.

Definition validate (req : Request) : Result Args :=
  if isBlank (restaurantId req) then Throw invalid_input
  else if isBlank (sectorId req) then Throw invalid_input
  else
    match partySize req with
    | NotInteger => Throw invalid_input
    | Int partySize =>
        if partySize <=? 0 then Throw invalid_input
        else
          match durationMinutes req with
          | NotInteger => Throw invalid_input
          | Int durationMinutes =>
              if (durationMinutes <=? 0)
                 || negb (Z.rem durationMinutes 15 =? 0)
              then Throw invalid_input
              else
                match date req with
                | Absent | Malformed => Throw invalid_input
                | Given date =>
                    if isMalformed (requestedWindowStart req) then Throw invalid_input
                    else if isMalformed (requestedWindowEnd req) then Throw invalid_input
                    else
                      let ws := toOption (requestedWindowStart req) in
                      let we := toOption (requestedWindowEnd req) in
                      match ws, we with
                      | Some s, Some e =>
                          if TimeOfDay.leb e s then Throw invalid_input
                          else Ok (mkArgs (restaurantId req) (sectorId req) partySize
                                     durationMinutes date (idempotencyKey req) ws we)
                      | _, _ =>
                          Ok (mkArgs (restaurantId req) (sectorId req) partySize
                                durationMinutes date (idempotencyKey req) ws we)
                      end
                end
          end
    end.

(** [if (idempotencyKey) { const existing = db.getIdempotency(key); ... }] *)
Definition lookupIdempotency (w : World.t) (key : option string)
    : option Booking.t * World.t :=
  match key with
  | Some k =>
      if String.eqb k "" then (None, w)
      else
        let '(existing, db') := Db.getIdempotency (World.now w) (World.db w) k in
        (existing, World.with_db w db')
  | None => (None, w)
  end.

(** [id.replace('WL_', 'BK_')] on a waitlist identifier. *)
Definition replaceWL (id : string) : string :=
  match id with
  | String "W" (String "L" (String "_" rest)) => ("BK_" ++ rest)%string
  | _ => id
  end.

Definition generateBookingId (w : World.t) : string * World.t :=
  let '(suffix, w') := World.fresh w in (("BK_" ++ suffix)%string, w').

Definition windowsOrEmpty (restaurant : Restaurant.t) : list ServiceWindow.t :=
  match Restaurant.windows restaurant with Some ws => ws | None => [] end.

(** The no-candidate branch: implicit waitlist and placeholder booking. *)
Definition enqueue (w : World.t) (a : Args) (restaurant : Restaurant.t)
    : Booking.t * World.t :=
  let '(waitlistEntry, w1) :=
    Waitlist.addToWaitlist w (a_restaurantId a) (a_sectorId a) (a_partySize a)
      (a_durationMinutes a) (a_date a) (a_windowStart a) (a_windowEnd a) None 60 in
  let placeholderStart :=
    match a_windowStart a with
    | Some s => Gaps.toZonedIso (a_date a) s (Restaurant.timezone restaurant)
    | None =>
        match windowsOrEmpty restaurant with
        | w0 :: _ =>
            Gaps.toZonedIso (a_date a) (ServiceWindow.start w0)
              (Restaurant.timezone restaurant)
        | [] => World.now w1
        end
    end in
  let placeholderEnd := placeholderStart + a_durationMinutes a * 60 * 1000 in
  let now := World.now w1 in
  let booking :=
    Booking.mk (replaceWL (WaitlistEntry.id waitlistEntry)) (a_restaurantId a)
      (a_sectorId a) [] (a_partySize a) placeholderStart placeholderEnd
      (a_durationMinutes a) PENDING now now in
  (booking, World.with_db w1 (Db.createBooking (World.db w1) booking)).

Definition withTableIds (c : Candidate.t) (tableIds : list string) : Candidate.t :=
  Candidate.mk (Candidate.kind c) tableIds (Candidate.start c) (Candidate.end_ c)
    (Candidate.minCapacity c) (Candidate.maxCapacity c) (Candidate.score c)
    (Candidate.rationale c).

(** Where the synchronous prefix of [createBooking] ends: it has returned
    or thrown, or it has selected a candidate and waits for the lock named
    by [Locks.generateLockKey]. *)
Inductive Prepared :=
| Returned (r : Result Booking.t) (w : World.t)
| Selected (a : Args) (restaurant : Restaurant.t) (candidate : Candidate.t)
           (w : World.t).

Section Collation.

Variable localeCompare : string -> string -> Z.

(** [createBooking] up to [await lockManager.acquire(lockKey)]. *)
Definition prepare (w : World.t) (req : Request) : Prepared :=
  match validate req with
  | Throw e => Returned (Throw e) w
  | Ok a =>
      let '(existing, w1) := lookupIdempotency w (a_idempotencyKey a) in
      match existing with
      | Some b => Returned (Ok b) w1
      | None =>
          match Db.getRestaurant (World.db w1) (a_restaurantId a) with
          | None => Returned (Throw not_found) w1
          | Some restaurant =>
              match Db.getSector (World.db w1) (a_sectorId a) with
              | None => Returned (Throw not_found) w1
              | Some sector =>
                  if negb (String.eqb (Sector.restaurantId sector) (a_restaurantId a))
                  then Returned (Throw not_found) w1
                  else
                    match Wokibrain.selectBestCandidate localeCompare (World.db w1)
                            (a_sectorId a) (a_date a) (a_partySize a)
                            (a_durationMinutes a) (windowsOrEmpty restaurant)
                            (Restaurant.timezone restaurant)
                            (a_windowStart a) (a_windowEnd a) with
                    | None =>
                        let '(booking, w2) := enqueue w1 a restaurant in
                        Returned (Ok booking) w2
                    | Some candidate =>
                        let outside :=
                          match a_windowStart a, a_windowEnd a with
                          | Some requestedStart, Some requestedEnd =>
                              let hasValidWindow :=
                                JsArray.some
                                  (fun window =>
                                     TimeOfDay.leb (ServiceWindow.start window) requestedStart
                                     && TimeOfDay.leb requestedEnd (ServiceWindow.end_ window))
                                  (windowsOrEmpty restaurant) in
                              negb hasValidWindow
                              && match Restaurant.windows restaurant with
                                 | Some (_ :: _) => true
                                 | _ => false
                                 end
                          | _, _ => false
                          end in
                        if outside then Returned (Throw outside_service_window) w1
                        else
                          (* [!candidate || !candidate.tableIds || !candidate.start]
                             is false here: the candidate exists, its table ids
                             are an array and its start a non-empty string. *)
                          let '(_, sortedTableIds) :=
                            Locks.generateLockKey (a_restaurantId a) (a_sectorId a)
                              (Candidate.tableIds candidate) (Candidate.start candidate) in
                          Selected a restaurant
                            (withTableIds candidate sortedTableIds) w1
                    end
              end
          end
      end
  end.

(** The critical section of [createBooking], between acquiring and
    releasing the lock.  It contains no [await]: it is one atomic step. *)
Definition commit
    (w : World.t) (a : Args) (restaurant : Restaurant.t) (candidate : Candidate.t)
    : Result Booking.t * World.t :=
  let '(existing, w1) := lookupIdempotency w (a_idempotencyKey a) in
  match existing with
  | Some b => (Ok b, w1)
  | None =>
      let conflictingBookings :=
        Db.getBookingsByTablesAndDate (World.db w1)
          (Candidate.tableIds candidate) (a_date a) in
      let hasConflict :=
        JsArray.some
          (fun booking =>
             BookingStatus_eqb (Booking.status booking) CONFIRMED
             && (Booking.start booking <? Candidate.end_ candidate)
             && (Booking.end_ booking >? Candidate.start candidate))
          conflictingBookings in
      if hasConflict then (Throw no_capacity, w1)
      else
        let largeGroupThreshold :=
          match Restaurant.largeGroupThreshold restaurant with
          | Some n => if n =? 0 then 10 else n
          | None => 10
          end in
        let requiresApproval := a_partySize a >=? largeGroupThreshold in
        let now := World.now w1 in
        let '(id, w2) := generateBookingId w1 in
        let booking :=
          Booking.mk id (a_restaurantId a) (a_sectorId a)
            (Candidate.tableIds candidate) (a_partySize a)
            (Candidate.start candidate) (Candidate.end_ candidate)
            (a_durationMinutes a)
            (if requiresApproval then PENDING else CONFIRMED) now now in
        let db3 := Db.createBooking (World.db w2) booking in
        let db4 :=
          match a_idempotencyKey a with
          | Some k =>
              if String.eqb k "" then db3
              else Db.setIdempotency (World.now w2) db3 k booking 60
          | None => db3
          end in
        (Ok booking, World.with_db w2 db4)
  end.

(** [createBooking] when nothing else runs while it waits for the lock. *)
Definition createBooking (w : World.t) (req : Request)
    : Result Booking.t * World.t :=
  match prepare w req with
  | Returned r w' => (r, w')
  | Selected a restaurant candidate w' => commit w' a restaurant candidate
  end.

End Collation.

End BookingService.

(** ** domain/waitlist.ts, second half: replay *)

Module WaitlistReplay.

(** The frozen parameters of an entry, as [tryPromoteWaitlist] passes them
    to [createBooking]; no idempotency key. *)
Definition requestOfEntry (entry : WaitlistEntry.t) : BookingService.Request :=
  let arg (x : option TimeOfDay.t) :=
    match x with
    | Some t => BookingService.Given t
    | None => BookingService.Absent
    end in
  BookingService.mkRequest
    (WaitlistEntry.restaurantId entry) (WaitlistEntry.sectorId entry)
    (BookingService.Int (WaitlistEntry.partySize entry))
    (BookingService.Int (WaitlistEntry.durationMinutes entry))
    (BookingService.Given (WaitlistEntry.date entry))
    None
    (arg (WaitlistEntry.windowStart entry))
    (arg (WaitlistEntry.windowEnd entry)).

Section Replay.

(** The awaited booking transaction.  While it is awaited other requests
    may run, so the replay is stated for any transaction; [tryPromoteWaitlist]
    below instantiates it with the sequential [createBooking]. *)
Variable createBooking :
  World.t -> BookingService.Request -> Result Booking.t * World.t.

(** The [for (const entry of entries)] loop. *)
Fixpoint replay (entries : list WaitlistEntry.t) (w : World.t)
    : list WaitlistEntry.t * World.t :=
  match entries with
  | [] => ([], w)
  | entry :: rest =>
      if WaitlistEntry.expiresAt entry <? World.now w then
        replay rest
          (World.with_db w (Db.deleteWaitlistEntry (World.db w) (WaitlistEntry.id entry)))
      else
        match createBooking w (requestOfEntry entry) with
        | (Ok _, w') =>
            ([entry],
             World.with_db w'
               (Db.deleteWaitlistEntry (World.db w') (WaitlistEntry.id entry)))
        | (Throw _, w') => replay rest w'
        end
  end.

Definition loadEntries (w : World.t) (sectorId : string) (date : Z)
    : list WaitlistEntry.t :=
  JsArray.sort Db.byCreatedAt
    (Db.getWaitlistEntriesBySectorAndDate (World.now w) (World.db w) sectorId date).

Definition tryPromoteWaitlistWith (w : World.t) (sectorId : string) (date : Z)
    : list WaitlistEntry.t * World.t :=
  replay (loadEntries w sectorId date) w.

End Replay.

Definition tryPromoteWaitlist (localeCompare : string -> string -> Z)
    (w : World.t) (sectorId : string) (date : Z)
    : list WaitlistEntry.t * World.t :=
  tryPromoteWaitlistWith (BookingService.createBooking localeCompare) w sectorId date.

End WaitlistReplay.

(** ** domain/duration-rules.ts *)

Module DurationRules.

(** [maxPartySize = None] stands for [Infinity]. *)
Record DurationRule := mk { maxPartySize : option Z; durationMinutes : Z }.

Definition DEFAULT_DURATION_RULES : list DurationRule :=
  [ mk (Some 2) 75; mk (Some 4) 90; mk (Some 8) 120; mk None 150 ].

Definition ceilDiv (a b : Z) : Z := - ((- a) / b).

Definition calculateDurationByPartySize (partySize : Z) (rules : list DurationRule) : Z :=
  match find (fun r => match maxPartySize r with
                       | Some m => partySize <=? m
                       | None => true
                       end) rules with
  | None => durationMinutes (last rules (mk None 0))
  | Some rule => ceilDiv (durationMinutes rule) 15 * 15
  end.

End DurationRules.

(** ** routes.ts: the booking handlers *)

Module Routes.

(** What a handler answers: a status with a booking, a status alone, or the
    error it hands to the error middleware. *)
Inductive Response :=
| Json (status : Z) (body : Booking.t)
| Empty (status : Z)
| Rejected (status : Z) (error : Error)
| Next (error : Error).

Definition assertWindowWithinService
    (date : Z) (timezone : TimeZone)
    (requestedStart requestedEnd : option TimeOfDay.t)
    (windows : option (list ServiceWindow.t)) : Result unit :=
  match requestedStart, requestedEnd with
  | Some rs, Some re =>
      match windows with
      | None | Some [] => Ok tt
      | Some windows =>
          let reqStart := Gaps.toZonedIso date rs timezone in
          let reqEnd := Gaps.toZonedIso date re timezone in
          let hasOverlap :=
            JsArray.some
              (fun w =>
                 let winStart := Gaps.toZonedIso date (ServiceWindow.start w) timezone in
                 let winEnd := Gaps.toZonedIso date (ServiceWindow.end_ w) timezone in
                 (reqStart <? winEnd) && (reqEnd >? winStart))
              windows in
          if hasOverlap then Ok tt else Throw outside_service_window
      end
  | _, _ => Ok tt
  end.

(** The body of [POST /woki/bookings] once parsed by its schema. *)
Record CreateBookingBody := mkBody {
  restaurantId : string;
  sectorId : string;
  partySize : Z;
  durationMinutes : option Z;
  date : Z;
  windowStart : option TimeOfDay.t;
  windowEnd : option TimeOfDay.t
}.

Section Collation.

Variable localeCompare : string -> string -> Z.

Definition postBookings
    (w : World.t) (body : CreateBookingBody) (idempotencyKey : option string)
    : Response * World.t :=
  let durationMinutes :=
    match durationMinutes body with
    | Some d => if d =? 0 then
                  DurationRules.calculateDurationByPartySize (partySize body)
                    DurationRules.DEFAULT_DURATION_RULES
                else d
    | None =>
        DurationRules.calculateDurationByPartySize (partySize body)
          DurationRules.DEFAULT_DURATION_RULES
    end in
  if negb (Z.rem durationMinutes 15 =? 0) then (Next invalid_input, w)
  else
    match Db.getRestaurant (World.db w) (restaurantId body) with
    | None => (Next not_found, w)
    | Some restaurant =>
        match assertWindowWithinService (date body) (Restaurant.timezone restaurant)
                (windowStart body) (windowEnd body) (Restaurant.windows restaurant) with
        | Throw e => (Next e, w)
        | Ok _ =>
            let arg (x : option TimeOfDay.t) :=
              match x with
              | Some t => BookingService.Given t
              | None => BookingService.Absent
              end in
            match BookingService.createBooking localeCompare w
                    (BookingService.mkRequest (restaurantId body) (sectorId body)
                       (BookingService.Int (partySize body))
                       (BookingService.Int durationMinutes)
                       (BookingService.Given (date body)) idempotencyKey
                       (arg (windowStart body)) (arg (windowEnd body))) with
            | (Ok booking, w') => (Json 201 booking, w')
            | (Throw e, w') => (Next e, w')
            end
        end
    end.

(** [DELETE /woki/bookings/:id]: cancellation, then waitlist replay for the
    booking's sector and the date prefix of its start. *)
Definition deleteBookingRoute (w : World.t) (bookingId : string)
    : Response * World.t :=
  match Db.getBooking (World.db w) bookingId with
  | None => (Next not_found, w)
  | Some booking =>
      let w1 := World.with_db w (Db.deleteBooking (World.db w) bookingId) in
      let '(_, w2) :=
        WaitlistReplay.tryPromoteWaitlist localeCompare w1
          (Booking.sectorId booking) (Db.utcDay (Booking.start booking)) in
      (Empty 204, w2)
  end.

End Collation.

(** [POST /woki/bookings/:id/approve] *)
Definition approve (w : World.t) (bookingId : string) : Response * World.t :=
  match Db.getBooking (World.db w) bookingId with
  | None => (Next not_found, w)
  | Some booking =>
      if negb (BookingStatus_eqb (Booking.status booking) PENDING)
      then (Rejected 400 invalid_input, w)
      else
        let db' := Db.updateBooking (World.now w) (World.db w) bookingId CONFIRMED in
        match Db.getBooking db' bookingId with
        | Some updated => (Json 200 updated, World.with_db w db')
        | None => (Empty 200, World.with_db w db')
        end
  end.

(** [POST /woki/bookings/:id/reject] *)
Definition reject (w : World.t) (bookingId : string) : Response * World.t :=
  match Db.getBooking (World.db w) bookingId with
  | None => (Next not_found, w)
  | Some booking =>
      if negb (BookingStatus_eqb (Booking.status booking) PENDING)
      then (Rejected 400 invalid_input, w)
      else (Empty 204, World.with_db w (Db.deleteBooking (World.db w) bookingId))
  end.

End Routes.

(** ** store/db.ts: further queries and the waitlist cleanup *)

Module DbQueries.

Definition getTable (db : Db.t) (id : string) : option Table.t :=
  JsMap.get (Db.tables db) id.


Definition getBlackout (db : Db.t) (id : string) : option Blackout.t :=
  JsMap.get (Db.blackouts db) id.

(** [for (const [id, entry] of this.waitlist.entries())]: every entry of
    the map is visited once; an expired one is deleted under its key and
    counted. *)
Definition cleanupExpiredWaitlistEntries (now : Z) (db : Db.t) : Z * Db.t :=
  fold_left
    (fun (acc : Z * Db.t) (kv : string * WaitlistEntry.t) =>
       let '(count, db') := acc in
       let '(id, entry) := kv in
       if WaitlistEntry.expiresAt entry <? now
       then (count + 1, Db.deleteWaitlistEntry db' id)
       else (count, db'))
    (Db.waitlist db) (0, db).

End DbQueries.

(** ** store/metrics.ts *)

Module MetricsStore.

Record Metrics := mk {
  created : Z;
  cancelled : Z;
  conflicts : Z;
  pending : Z;
  confirmed : Z;
  assignmentTimes : list Z;
  p95AssignmentTime : option Z;
  (** [sum / times.length], kept as the pair of the sum and the length *)
  avgAssignmentTime : option (Z * Z);
  acquisitions : Z;
  contentions : Z;
  entries : Z;
  promotions : Z
}.

Definition initial : Metrics := mk 0 0 0 0 0 [] None None 0 0 0 0.

Definition MAX_ASSIGNMENT_TIMES : nat := 1000.

Definition with_times (m : Metrics) (times : list Z) : Metrics :=
  mk (created m) (cancelled m) (conflicts m) (pending m) (confirmed m) times
     (p95AssignmentTime m) (avgAssignmentTime m)
     (acquisitions m) (contentions m) (entries m) (promotions m).

Definition byValue (a b : Z) : Z := a - b.

(** [Math.floor(sorted.length * 0.95)].  The double nearest to 0.95 lies
    below it by less than 5e-17, which the rounding of the product absorbs:
    the floor is that of the exact product. *)
Definition p95Index (n : nat) : nat := (n * 95 / 100)%nat.

Definition updatePerformanceStats (m : Metrics) : Metrics :=
  let times := assignmentTimes m in
  match times with
  | [] => m
  | _ =>
      let sum := fold_left (fun a b => a + b) times 0 in
      let sorted := JsArray.sort byValue times in
      mk (created m) (cancelled m) (conflicts m) (pending m) (confirmed m) times
         (nth_error sorted (p95Index (List.length sorted)))
         (Some (sum, Z.of_nat (List.length times)))
         (acquisitions m) (contentions m) (entries m) (promotions m)
  end.

(** [push], then [shift] when the array has grown past the bound. *)
Definition recordAssignmentTime (m : Metrics) (ms : Z) : Metrics :=
  let pushed := assignmentTimes m ++ [ms] in
  let kept :=
    if (MAX_ASSIGNMENT_TIMES <? List.length pushed)%nat then tl pushed else pushed in
  updatePerformanceStats (with_times m kept).

End MetricsStore.

(** ** routes.ts [handleError] and middleware/error-handler.ts *)

Module ErrorHandling.

(** What the client gets for an error of message [errorName]: the status
    and the [error] field of the body. *)
Definition handleError (errorName : string) : Z * string :=
  if String.eqb errorName "not_found" then (404, "not_found"%string)
  else if String.eqb errorName "no_capacity" then (409, "no_capacity"%string)
  else if String.eqb errorName "outside_service_window"
       then (422, "outside_service_window"%string)
  else if String.eqb errorName "invalid_input" then (400, "invalid_input"%string)
  else (500, "internal_error"%string).

(** The [switch (err.message)] of the application-level handler. *)
Definition errorHandler (message : string) : Z * string :=
  if String.eqb message "no_capacity" then (409, "no_capacity"%string)
  else if String.eqb message "not_found" then (404, "not_found"%string)
  else if String.eqb message "invalid_input" then (400, "invalid_input"%string)
  else if String.eqb message "outside_service_window"
       then (422, "outside_service_window"%string)
  else (500, "internal_error"%string).

(** An issue of a [ZodError]: the path, its elements already rendered, and
    the message. *)
Record ZodIssue := mkIssue { path : list string; issueMessage : string }.

(** [err.errors.map((e) => `${e.path.join('.')}: ${e.message}`).join(', ')],
    the message the handlers give to the error they pass on for a
    [ZodError]. *)
Definition zodMessage (errors : list ZodIssue) : string :=
  Wokibrain.join ", "
    (map (fun e => (Wokibrain.join "." (path e) ++ ": " ++ issueMessage e)%string)
         errors).

End ErrorHandling.

(** ** routes.ts: discovery, listing, blackouts and cleanup *)

Module Handlers.

Inductive Reply (A : Type) :=
| Json (status : Z) (body : A)
| ErrorJson (status : Z) (error : Error)
| Next (error : Error).

Arguments Json {A} status body.
Arguments ErrorJson {A} status error.
Arguments Next {A} error.

(** The query of [GET /woki/discover] once parsed by its schema. *)
Record DiscoverParams := mkDiscover {
  restaurantId : string;
  sectorId : string;
  date : Z;
  partySize : Z;
  duration : option Z;
  windowStart : option TimeOfDay.t;
  windowEnd : option TimeOfDay.t;
  limit : nat
}.

Record DiscoverBody := mkDiscoverBody {
  slotMinutes : Z;
  durationMinutes : Z;
  candidates : list Candidate.t
}.

Section Collation.

Variable localeCompare : string -> string -> Z.

Definition discover (w : World.t) (params : DiscoverParams) : Reply DiscoverBody :=
  match Db.getRestaurant (World.db w) (restaurantId params) with
  | None => Next not_found
  | Some restaurant =>
      match Db.getSector (World.db w) (sectorId params) with
      | None => Next not_found
      | Some sector =>
          if negb (String.eqb (Sector.restaurantId sector) (restaurantId params))
          then Next not_found
          else
            let duration :=
              match duration params with
              | Some d => if d =? 0 then
                            DurationRules.calculateDurationByPartySize (partySize params)
                              DurationRules.DEFAULT_DURATION_RULES
                          else d
              | None =>
                  DurationRules.calculateDurationByPartySize (partySize params)
                    DurationRules.DEFAULT_DURATION_RULES
              end in
            if negb (Z.rem duration 15 =? 0) then Next invalid_input
            else
              match Routes.assertWindowWithinService (date params)
                      (Restaurant.timezone restaurant)
                      (windowStart params) (windowEnd params)
                      (Restaurant.windows restaurant) with
              | Throw e => Next e
              | Ok _ =>
                  let candidates :=
                    Wokibrain.findCandidates localeCompare (World.db w)
                      (sectorId params) (date params) (partySize params) duration
                      (BookingService.windowsOrEmpty restaurant)
                      (Restaurant.timezone restaurant)
                      (windowStart params) (windowEnd params) (limit params) in
                  match candidates with
                  | [] => ErrorJson 409 no_capacity
                  | _ => Json 200 (mkDiscoverBody 15 duration candidates)
                  end
              end
      end
  end.

End Collation.




(** The body of [POST /woki/blackouts] once parsed by its schema; the
    instants are those its two datetime strings denote. *)
Record CreateBlackoutBody := mkBlackoutBody {
  tableId : string;
  blackoutStart : ISODateTime;
  blackoutEnd : ISODateTime;
  reason : string
}.

(** The identifier is ["BL_"] followed by the time stamp and a random
    suffix, which the world supplies. *)
Definition createBlackout (w : World.t) (body : CreateBlackoutBody)
    : Reply Blackout.t * World.t :=
  match DbQueries.getTable (World.db w) (tableId body) with
  | None => (Next not_found, w)
  | Some table =>
      let '(suffix, w1) := World.fresh w in
      let blackout :=
        Blackout.mk ("BL_" ++ suffix) (tableId body) (blackoutStart body)
          (blackoutEnd body) (reason body) in
      (Json 201 blackout, World.with_db w1 (Db.createBlackout (World.db w1) blackout))
  end.

(** [POST /woki/waitlist/cleanup], through [cleanupExpiredWaitlist]. *)
Definition cleanupWaitlist (w : World.t) : Reply Z * World.t :=
  let '(count, db') := DbQueries.cleanupExpiredWaitlistEntries (World.now w) (World.db w) in
  (Json 200 count, World.with_db w db').

End Handlers.

(** ** A running example: the seed of the repository's tests *)

Module Seed.

Definition day : Z := 20383.  (* 2025-10-22 *)

Definition BuenosAires : TimeZone := fun _ => -180.

Definition hm (h m : Z) : TimeOfDay.t := TimeOfDay.mk h m.

Definition windows : list ServiceWindow.t :=
  [ ServiceWindow.mk (hm 12 0) (hm 16 0); ServiceWindow.mk (hm 20 0) (hm 23 45) ].

Definition R1 : Restaurant.t :=
  Restaurant.mk "R1" "Test Restaurant" BuenosAires (Some windows) None.

Definition S1 : Sector.t := Sector.mk "S1" "R1" "Main Hall".

Definition T (id : string) (lo hi : Z) : string * Table.t :=
  (id, Table.mk id "S1" id lo hi).

Definition db : Db.t :=
  Db.mk [("R1"%string, R1)] [("S1"%string, S1)]
    [T "T1" 2 2; T "T2" 2 4; T "T3" 2 4; T "T4" 4 6] [] [] [] [].

Definition ids (n : nat) : string :=
  match n with
  | O => "A" | 1%nat => "B" | 2%nat => "C" | 3%nat => "D" | 4%nat => "E"
  | _ => "F"
  end.

Definition world : World.t := World.mk db (day * 86400000) ids 0.

(** An ASCII-only collation: code-unit order. *)
Definition collate : string -> string -> Z := Wokibrain.codeUnitOrder.

Definition request (party duration : Z) (key : option string)
    (ws we : option TimeOfDay.t) : BookingService.Request :=
  let arg (x : option TimeOfDay.t) :=
    match x with
    | Some t => BookingService.Given t
    | None => BookingService.Absent
    end in
  BookingService.mkRequest "R1" "S1" (BookingService.Int party)
    (BookingService.Int duration) (BookingService.Given day) key (arg ws) (arg we).

(** Local wall-clock time of the seed day as an instant. *)
Definition at_ (h m : Z) : ISODateTime := Gaps.toZonedIso day (hm h m) BuenosAires.

Definition evening : option TimeOfDay.t * option TimeOfDay.t :=
  (Some (hm 20 0), Some (hm 23 45)).

(** A venue without service windows whose only table is blacked out from
    20:00 to 22:00. *)
Definition maintenance : Blackout.t :=
  Blackout.mk "BL1" "T4" (at_ 20 0) (at_ 22 0) "maintenance".

Definition alwaysOpenDb : Db.t :=
  Db.mk [("R1"%string, Restaurant.mk "R1" "Always Open" BuenosAires None None)]
    [("S1"%string, S1)] [T "T4" 4 6] [] [] [("BL1"%string, maintenance)] [].

(** The same table in a venue with the evening window. *)
Definition eveningDb : Db.t :=
  Db.mk [("R1"%string, R1)] [("S1"%string, S1)] [T "T4" 4 6] [] []
    [("BL1"%string, maintenance)] [].

(** The evening venue with T4 blacked out until 20:15:30. *)
Definition halfMinuteDb : Db.t :=
  Db.mk [("R1"%string, R1)] [("S1"%string, S1)] [T "T4" 4 6] [] []
    [("BL2"%string,
      Blackout.mk "BL2" "T4" (at_ 20 0) (at_ 20 15 + 30 * 1000) "cleaning")] [].

(** A venue in UTC that opens at 12:10, with one table. *)
Definition utc : TimeZone := fun _ => 0.

Definition oddWindows : list ServiceWindow.t :=
  [ ServiceWindow.mk (hm 12 10) (hm 16 0) ].

Definition oddDb : Db.t :=
  Db.mk [("R1"%string, Restaurant.mk "R1" "Odd Hours" utc (Some oddWindows) None)]
    [("S1"%string, S1)] [T "T1" 2 4] [] [] [] [].

End Seed.

(** ** Scenarios the statements below refer to *)

Module Scenarios.

Import BookingService.

(** A request for a venue the store does not know. *)
Definition unknownVenue : Request :=
  mkRequest "R9" "S1" (Int 4) (Int 90) (Given Seed.day) None Absent Absent.

(** A request carrying an idempotency key, the world after it, and the
    same world thirty seconds later. *)
Definition keyed : Request :=
  Seed.request 5 90 (Some "key-1"%string) (Some (Seed.hm 20 0)) (Some (Seed.hm 23 45)).

Definition afterFirst : World.t := snd (createBooking Seed.collate Seed.world keyed).

Definition firstBooking : Booking.t :=
  Booking.mk "BK_A" "R1" "S1" ["T4"%string] 5 (Seed.at_ 20 0) (Seed.at_ 21 30) 90
    CONFIRMED (World.now Seed.world) (World.now Seed.world).

Definition later : World.t :=
  World.mk (World.db afterFirst) (World.now afterFirst + 30000)
    (World.rnd afterFirst) (World.tick afterFirst).

Definition brief (b : Booking.t) : string * list string * Z * Z * BookingStatus :=
  (Booking.id b, Booking.tableIds b, Booking.start b, Booking.end_ b, Booking.status b).

Definition stored (w : World.t) : list (string * list string * Z * Z * BookingStatus) :=
  map brief (JsMap.values (Db.bookings (World.db w))).

(** A party of ten asks for the evening: the booking waits for approval on
    tables T1, T2 and T3.  A party of three then gets T2 for the same
    time, since a PENDING booking holds nothing. *)
Definition largeGroup : World.t :=
  snd (createBooking Seed.collate Seed.world
         (Seed.request 10 90 None (fst Seed.evening) (snd Seed.evening))).

Definition smallGroup : World.t :=
  snd (createBooking Seed.collate largeGroup
         (Seed.request 3 90 None (fst Seed.evening) (snd Seed.evening))).

Definition approved : World.t := snd (Routes.approve smallGroup "BK_A").

(** Three requests for a table for two, the last two for 21:30 or later. *)
Definition early : World.t :=
  snd (createBooking Seed.collate Seed.world
         (Seed.request 2 90 None (fst Seed.evening) (snd Seed.evening))).

Definition late1 : World.t :=
  snd (createBooking Seed.collate early
         (Seed.request 2 60 None (Some (Seed.hm 21 30)) (snd Seed.evening))).

Definition late2 : World.t :=
  snd (createBooking Seed.collate late1
         (Seed.request 2 60 None (Some (Seed.hm 21 30)) (snd Seed.evening))).

(** A table asked for between 17:00 and 19:00, when the venue is closed. *)
Definition closedHours : Request :=
  Seed.request 5 90 None (Some (Seed.hm 17 0)) (Some (Seed.hm 19 0)).

(** Two identical requests without key go for T4 at 20:00; the rival's
    commits while the other waits for the lock. *)
Definition racer : Request :=
  Seed.request 5 90 None (fst Seed.evening) (snd Seed.evening).

Definition rivalWon : World.t := snd (createBooking Seed.collate Seed.world racer).

(** A venue with the single table T4: a party takes it for the whole
    evening, a second party is queued, the first booking is cancelled. *)
Definition oneTable : World.t :=
  World.mk (Db.mk [("R1"%string, Seed.R1)] [("S1"%string, Seed.S1)]
              [Seed.T "T4" 4 6] [] [] [] [])
    (World.now Seed.world) Seed.ids 0.

Definition fullHouse : World.t :=
  snd (createBooking Seed.collate oneTable
         (Seed.request 5 225 None (fst Seed.evening) (snd Seed.evening))).

Definition queuedParty : World.t :=
  snd (createBooking Seed.collate fullHouse
         (Seed.request 5 90 None (fst Seed.evening) (snd Seed.evening))).

Definition afterCancel : World.t :=
  snd (Routes.deleteBookingRoute Seed.collate queuedParty "BK_A").

Definition queue (w : World.t) : list string :=
  map WaitlistEntry.id (JsMap.values (Db.waitlist (World.db w))).

(** A window from 19:00 to 22:00 overlaps the evening service without
    lying inside it. *)
Definition straddling : Request :=
  Seed.request 4 90 None (Some (Seed.hm 19 0)) (Some (Seed.hm 22 0)).

(** Free gaps of three tables. *)
Definition tableA : list Gap.t := [Gap.mk 0 10; Gap.mk 20 30].
Definition tableB : list Gap.t := [Gap.mk 5 25].
Definition tableC : list Gap.t := [Gap.mk 0 8; Gap.mk 22 40].


End Scenarios.

(** ** Further worlds, candidates and requests *)

Module Cases.

Import Scenarios.

(** T4 is taken from 20:00 to 21:30 ([Scenarios.rivalWon]); the next slot
    a party of five is offered on it. *)
Definition secondSitting : Candidate.t :=
  Wokibrain.scoreCandidate 5
    (Candidate.mk single ["T4"%string] (Seed.at_ 21 30) (Seed.at_ 23 0) 4 6 None None).

(** The first slot on T4 after the maintenance of [Seed.eveningDb]. *)
Definition afterMaintenance : Candidate.t :=
  Wokibrain.scoreCandidate 5
    (Candidate.mk single ["T4"%string] (Seed.at_ 22 0) (Seed.at_ 23 30) 4 6 None None).


Definition eveningWindow : list ServiceWindow.t :=
  [ServiceWindow.mk (Seed.hm 20 0) (Seed.hm 23 45)].

(** Two hours after [Scenarios.queuedParty]: its waitlist entry has
    expired. *)
Definition twoHoursLater : World.t :=
  World.mk (World.db queuedParty) (World.now queuedParty + 2 * 3600000)
    (World.rnd queuedParty) (World.tick queuedParty).

(** The party of ten of [Scenarios.largeGroup], waiting for approval. *)
Definition awaitingApproval : Booking.t :=
  Booking.mk "BK_A" "R1" "S1" ["T1"; "T2"; "T3"]%string 10 (Seed.at_ 20 0)
    (Seed.at_ 21 30) 90 PENDING (World.now Seed.world) (World.now Seed.world).

Definition discoverEvening : Handlers.DiscoverParams :=
  Handlers.mkDiscover "R1" "S1" Seed.day 5 (Some 90)
    (Some (Seed.hm 20 0)) (Some (Seed.hm 23 45)) 10.

Definition maintenanceBody : Handlers.CreateBlackoutBody :=
  Handlers.mkBlackoutBody "T4" (Seed.at_ 20 0) (Seed.at_ 22 0) "maintenance".

End Cases.

(** * Specification vocabulary *)

Module Spec.

(** The instant [t] lies in one of the half-open gaps. *)
Definition covers (gaps : list Gap.t) (t : Z) : Prop :=
  exists g, In g gaps /\ Gap.start g <= t < Gap.end_ g.

(** Chronological order of a gap list: by start. *)
Definition sortedByStart (gaps : list Gap.t) : Prop :=
  StronglySorted (fun a b => Gap.start a <= Gap.start b) gaps.

(** Sorted and pairwise disjoint: each gap ends before the later ones start. *)
Definition chronological (gaps : list Gap.t) : Prop :=
  StronglySorted (fun a b => Gap.end_ a <= Gap.start b) gaps.

(** The non-empty overlap of two gaps, as a list of at most one gap. *)
Definition overlap (gap1 gap2 : Gap.t) : list Gap.t :=
  let overlapStart :=
    if Gap.start gap1 >? Gap.start gap2 then Gap.start gap1 else Gap.start gap2 in
  let overlapEnd :=
    if Gap.end_ gap1 <? Gap.end_ gap2 then Gap.end_ gap1 else Gap.end_ gap2 in
  if overlapStart <? overlapEnd then [Gap.mk overlapStart overlapEnd] else [].

(** Both bounds of a gap, booking or blackout satisfy [P]. *)
Definition gapBounds (P : Z -> Prop) (g : Gap.t) : Prop :=
  P (Gap.start g) /\ P (Gap.end_ g).
Definition bookingBounds (P : Z -> Prop) (b : Booking.t) : Prop :=
  P (Booking.start b) /\ P (Booking.end_ b).
Definition blackoutBounds (P : Z -> Prop) (b : Blackout.t) : Prop :=
  P (Blackout.start b) /\ P (Blackout.end_ b).

Definition msPerMinute : Z := 60 * 1000.
Definition gridMs : Z := 15 * msPerMinute.

Definition wholeMinute (t : Z) : Prop := t mod msPerMinute = 0.
Definition onGrid (t : Z) : Prop := t mod gridMs = 0.

Definition wholeMinuteb (t : Z) : bool := t mod msPerMinute =? 0.

(** Every booking and blackout of the store starts and ends on a whole
    minute. *)
Definition wholeMinuteStore (db : Db.t) : bool :=
  forallb (fun b => wholeMinuteb (Booking.start b) && wholeMinuteb (Booking.end_ b))
          (JsMap.values (Db.bookings db))
  && forallb (fun b => wholeMinuteb (Blackout.start b) && wholeMinuteb (Blackout.end_ b))
             (JsMap.values (Db.blackouts db)).

(** The ordering of section 4.4, step 5, as a tuple order: kind, start,
    waste, then the sorted table ids joined by commas under the collation. *)
Definition kindRank (c : Candidate.t) : Z :=
  match Candidate.kind c with single => 0 | combo => 1 end.

Definition waste (partySize : Z) (c : Candidate.t) : Z :=
  Candidate.maxCapacity c - partySize.

Definition idKey (c : Candidate.t) : string :=
  Wokibrain.join "," (Wokibrain.sortStrings (Candidate.tableIds c)).

Definition precedes (localeCompare : string -> string -> Z) (partySize : Z)
    (a b : Candidate.t) : Prop :=
  kindRank a < kindRank b
  \/ (kindRank a = kindRank b
      /\ (Candidate.start a < Candidate.start b
          \/ (Candidate.start a = Candidate.start b
              /\ (waste partySize a < waste partySize b
                  \/ (waste partySize a = waste partySize b
                      /\ localeCompare (idKey a) (idKey b) <= 0))))).

(** The invariant of section 3: two distinct CONFIRMED bookings that
    share a table do not overlap as half-open intervals. *)
Definition overlaps (a b : Booking.t) : bool :=
  (Booking.start a <? Booking.end_ b) && (Booking.end_ a >? Booking.start b).

Definition shareTable (a b : Booking.t) : bool :=
  existsb (fun t => existsb (String.eqb t) (Booking.tableIds b)) (Booking.tableIds a).

Definition clash (a b : Booking.t) : bool :=
  BookingStatus_eqb (Booking.status a) CONFIRMED
  && BookingStatus_eqb (Booking.status b) CONFIRMED
  && shareTable a b && overlaps a b.

Fixpoint pairwiseFree (bs : list Booking.t) : bool :=
  match bs with
  | [] => true
  | b :: rest => forallb (fun b' => negb (clash b b')) rest && pairwiseFree rest
  end.

Definition noDoubleBooking (db : Db.t) : bool :=
  pairwiseFree (JsMap.values (Db.bookings db)).

(** The same invariant as a proposition over positions in the store. *)
Definition NoDoubleBooking (db : Db.t) : Prop :=
  forall i j a b,
    i <> j ->
    nth_error (JsMap.values (Db.bookings db)) i = Some a ->
    nth_error (JsMap.values (Db.bookings db)) j = Some b ->
    Booking.status a = CONFIRMED -> Booking.status b = CONFIRMED ->
    forall table,
      In table (Booking.tableIds a) -> In table (Booking.tableIds b) ->
      ~ (Booking.start a < Booking.end_ b /\ Booking.start b < Booking.end_ a).





End Spec.

(** * Further vocabulary *)

Module Vocabulary.




(** [c] picks elements of [l], keeping their order. *)
Inductive Subsequence (A : Type) : list A -> list A -> Prop :=
| sub_nil : Subsequence [] []
| sub_skip (x : A) (c l : list A) : Subsequence c l -> Subsequence c (x :: l)
| sub_take (x : A) (c l : list A) : Subsequence c l -> Subsequence (x :: c) (x :: l).

(** The requested window as [findCandidates] hands it to the enumeration. *)
Definition requestedOf (date : Z) (tz : TimeZone) (rs re : option TimeOfDay.t)
    : option (Z * Z) :=
  match rs, re with
  | Some s, Some e => Some (Gaps.toZonedIso date s tz, Gaps.toZonedIso date e tz)
  | _, _ => None
  end.

(** The tables a combination of ids stands for, as [findCandidates] looks
    them up. *)
Definition comboTables (tables : list Table.t) (comboTableIds : list string)
    : list Table.t :=
  flat_map (fun id =>
              match find (fun t => String.eqb (Table.id t) id) tables with
              | Some t => [t]
              | None => []
              end)
           comboTableIds.

(** [(restaurant as any).largeGroupThreshold || 10] *)
Definition largeGroupThreshold (restaurant : Restaurant.t) : Z :=
  match Restaurant.largeGroupThreshold restaurant with
  | Some n => if n =? 0 then 10 else n
  | None => 10
  end.

(** The party sizes a duration rule admits. *)
Definition admits (partySize : Z) (r : DurationRules.DurationRule) : bool :=
  match DurationRules.maxPartySize r with
  | Some m => partySize <=? m
  | None => true
  end.

(** A waitlist entry the cleanup keeps, and one step of its loop. *)
Definition live (now : Z) (e : WaitlistEntry.t) : bool :=
  negb (WaitlistEntry.expiresAt e <? now).

Definition expire (now : Z) (acc : Z * Db.t) (kv : string * WaitlistEntry.t) : Z * Db.t :=
  let '(count, db') := acc in
  let '(id, entry) := kv in
  if WaitlistEntry.expiresAt entry <? now
  then (count + 1, Db.deleteWaitlistEntry db' id)
  else (count, db').

(** Whether a string contains a colon, as every rendered issue of a
    [ZodError] does. *)
Fixpoint hasColon (s : string) : bool :=
  match s with
  | EmptyString => false
  | String c s' => Ascii.eqb c ":" || hasColon s'
  end.

End Vocabulary.

(** * Facts about the stable sort *)

Module SortFacts.

Section Sort.
Variable A : Type.
Variable cmp : A -> A -> Z.

Lemma insert_perm (x : A) (l : list A) :
  Permutation (JsArray.insert cmp x l) (x :: l).
Proof.
  induction l as [|y l IH]; simpl.
  - apply Permutation_refl.
  - destruct (cmp x y <=? 0).
    + apply Permutation_refl.
    + apply perm_trans with (y :: x :: l).
      * apply perm_skip. exact IH.
      * apply perm_swap.
Qed.

Lemma sort_perm (l : list A) : Permutation (JsArray.sort cmp l) l.
Proof.
  induction l as [|x l IH]; simpl.
  - apply perm_nil.
  - apply perm_trans with (x :: JsArray.sort cmp l).
    + apply insert_perm.
    + apply perm_skip. exact IH.
Qed.

Lemma sort_In (l : list A) (x : A) : In x (JsArray.sort cmp l) <-> In x l.
Proof.
  split; intro H.
  - eapply Permutation_in; [apply sort_perm | exact H].
  - eapply Permutation_in; [apply Permutation_sym, sort_perm | exact H].
Qed.

Lemma sort_Forall (P : A -> Prop) (l : list A) :
  Forall P l -> Forall P (JsArray.sort cmp l).
Proof.
  rewrite !Forall_forall. intros H x Hx. apply H, sort_In, Hx.
Qed.

Hypothesis le_total : forall a b, 0 < cmp a b -> cmp b a <= 0.
Hypothesis le_trans : forall a b c, cmp a b <= 0 -> cmp b c <= 0 -> cmp a c <= 0.

Lemma insert_sorted (x : A) (l : list A) :
  StronglySorted (JsArray.le cmp) l -> StronglySorted (JsArray.le cmp) (JsArray.insert cmp x l).
Proof.
  induction l as [|y l IH]; simpl; intro Hs.
  - constructor; constructor.
  - inversion Hs as [|? ? Hl Hy]; subst.
    destruct (cmp x y <=? 0) eqn:E.
    + apply Z.leb_le in E. constructor; [exact Hs|].
      constructor; [exact E|].
      rewrite Forall_forall in *. intros z Hz. eapply le_trans; [exact E|].
      apply Hy, Hz.
    + apply Z.leb_gt in E. constructor; [apply IH, Hl|].
      rewrite Forall_forall in *. intros z Hz.
      apply (Permutation_in _ (insert_perm x l)) in Hz.
      destruct Hz as [<-|Hz]; [apply le_total, E | apply Hy, Hz].
Qed.

Lemma sort_sorted (l : list A) : StronglySorted (JsArray.le cmp) (JsArray.sort cmp l).
Proof.
  induction l as [|x l IH]; simpl.
  - constructor.
  - apply insert_sorted, IH.
Qed.

End Sort.

Lemma StronglySorted_impl (A : Type) (R R' : A -> A -> Prop) (l : list A) :
  (forall a b, R a b -> R' a b) -> StronglySorted R l -> StronglySorted R' l.
Proof.
  intros HR H. induction H as [|a l Hl IH Ha]; constructor; [exact IH|].
  rewrite Forall_forall in *. intros b Hb. apply HR, Ha, Hb.
Qed.

Lemma In_firstn (A : Type) (n : nat) (l : list A) (x : A) :
  In x (firstn n l) -> In x l.
Proof.
  intro H. rewrite <- (firstn_skipn n l). apply in_or_app. left. exact H.
Qed.

End SortFacts.

(** * The Gap Intersector *)

Module IntersectFacts.

Import Spec.

(** One step of the two-pointer loop. *)
Lemma intersectGaps_step (gap1 gap2 : Gap.t) (rest1 rest2 : list Gap.t) :
  Gaps.intersectGaps (gap1 :: rest1) (gap2 :: rest2)
  = overlap gap1 gap2
    ++ (if Gap.end_ gap1 <? Gap.end_ gap2
        then Gaps.intersectGaps rest1 (gap2 :: rest2)
        else Gaps.intersectGaps (gap1 :: rest1) rest2).
Proof. reflexivity. Qed.

Lemma intersectGaps_nil_r (gaps1 : list Gap.t) : Gaps.intersectGaps gaps1 [] = [].
Proof. destruct gaps1; reflexivity. Qed.

Lemma overlap_max_min (gap1 gap2 : Gap.t) :
  overlap gap1 gap2
  = let lo := Z.max (Gap.start gap1) (Gap.start gap2) in
    let hi := Z.min (Gap.end_ gap1) (Gap.end_ gap2) in
    if lo <? hi then [Gap.mk lo hi] else [].
Proof.
  unfold overlap.
  replace (if Gap.start gap1 >? Gap.start gap2 then Gap.start gap1 else Gap.start gap2)
    with (Z.max (Gap.start gap1) (Gap.start gap2)).
  2:{ rewrite Z.gtb_ltb. destruct (Gap.start gap2 <? Gap.start gap1) eqn:E;
      [apply Z.ltb_lt in E | apply Z.ltb_ge in E]; lia. }
  replace (if Gap.end_ gap1 <? Gap.end_ gap2 then Gap.end_ gap1 else Gap.end_ gap2)
    with (Z.min (Gap.end_ gap1) (Gap.end_ gap2)).
  2:{ destruct (Gap.end_ gap1 <? Gap.end_ gap2) eqn:E;
      [apply Z.ltb_lt in E | apply Z.ltb_ge in E]; lia. }
  reflexivity.
Qed.

Lemma overlap_spec (gap1 gap2 g : Gap.t) :
  In g (overlap gap1 gap2) <->
  Gap.start g = Z.max (Gap.start gap1) (Gap.start gap2)
  /\ Gap.end_ g = Z.min (Gap.end_ gap1) (Gap.end_ gap2)
  /\ Gap.start g < Gap.end_ g.
Proof.
  rewrite overlap_max_min. cbv zeta.
  destruct (Z.max (Gap.start gap1) (Gap.start gap2)
            <? Z.min (Gap.end_ gap1) (Gap.end_ gap2)) eqn:E;
    [apply Z.ltb_lt in E | apply Z.ltb_ge in E]; simpl; split.
  - intros [<-|[]]. simpl. lia.
  - intros (H1 & H2 & H3). left. destruct g as [s e]. simpl in *. subst. reflexivity.
  - intros [].
  - intros (H1 & H2 & H3). lia.
Qed.

Lemma covers_overlap (gap1 gap2 : Gap.t) (t : Z) :
  covers (overlap gap1 gap2) t <->
  (Gap.start gap1 <= t < Gap.end_ gap1) /\ (Gap.start gap2 <= t < Gap.end_ gap2).
Proof.
  unfold covers. split.
  - intros (g & Hg & Ht). apply overlap_spec in Hg. lia.
  - intros [H1 H2].
    exists (Gap.mk (Z.max (Gap.start gap1) (Gap.start gap2))
                   (Z.min (Gap.end_ gap1) (Gap.end_ gap2))).
    split; [apply overlap_spec|]; simpl; lia.
Qed.

Lemma covers_app (l1 l2 : list Gap.t) (t : Z) :
  covers (l1 ++ l2) t <-> covers l1 t \/ covers l2 t.
Proof.
  unfold covers. split.
  - intros (g & Hg & Ht). apply in_app_or in Hg.
    destruct Hg; [left | right]; exists g; auto.
  - intros [(g & Hg & Ht) | (g & Hg & Ht)]; exists g; split; auto;
      apply in_or_app; auto.
Qed.

Lemma covers_cons (g : Gap.t) (l : list Gap.t) (t : Z) :
  covers (g :: l) t <-> (Gap.start g <= t < Gap.end_ g) \/ covers l t.
Proof.
  unfold covers. split.
  - intros (g' & [<-|Hg] & Ht); [left; exact Ht | right; exists g'; auto].
  - intros [Ht | (g' & Hg & Ht)]; [exists g | exists g']; simpl; auto.
Qed.

Lemma covers_nil (t : Z) : ~ covers [] t.
Proof. intros (g & [] & _). Qed.

(** A covered instant is not before the head of a sorted list. *)
Lemma covers_sorted_lower (g : Gap.t) (l : list Gap.t) (t : Z) :
  sortedByStart (g :: l) -> covers (g :: l) t -> Gap.start g <= t.
Proof.
  intros Hs (g' & Hin & Ht). inversion Hs as [|? ? _ Hall]; subst.
  destruct Hin as [<-|Hin]; [lia|].
  rewrite Forall_forall in Hall. specialize (Hall _ Hin). lia.
Qed.

Lemma sortedByStart_tail (g : Gap.t) (l : list Gap.t) :
  sortedByStart (g :: l) -> sortedByStart l.
Proof. intro H. inversion H; assumption. Qed.

(** Binary exactness: the merge covers exactly the instants covered by
    both lists. *)
Lemma intersectGaps_covers (gaps1 gaps2 : list Gap.t) (t : Z) :
  sortedByStart gaps1 -> sortedByStart gaps2 ->
  (covers (Gaps.intersectGaps gaps1 gaps2) t <-> covers gaps1 t /\ covers gaps2 t).
Proof.
  revert gaps2.
  induction gaps1 as [|a A IHA]; intros gaps2 HA HB.
  - simpl. split; [intro H; destruct (covers_nil H) | intros [H _]; destruct (covers_nil H)].
  - induction gaps2 as [|b B IHB].
    + rewrite intersectGaps_nil_r.
      split; [intro H; destruct (covers_nil H) | intros [_ H]; destruct (covers_nil H)].
    + rewrite intersectGaps_step, covers_app, covers_overlap.
      pose proof (sortedByStart_tail HA) as HA'.
      pose proof (sortedByStart_tail HB) as HB'.
      assert (HlowA : covers A t -> Gap.start a <= t).
      { intro H. apply (covers_sorted_lower (l := A)); [exact HA|].
        apply covers_cons. right. exact H. }
      assert (HlowB : covers B t -> Gap.start b <= t).
      { intro H. apply (covers_sorted_lower (l := B)); [exact HB|].
        apply covers_cons. right. exact H. }
      destruct (Gap.end_ a <? Gap.end_ b) eqn:E.
      * apply Z.ltb_lt in E. rewrite (IHA (b :: B) HA' HB).
        rewrite (covers_cons a A), (covers_cons b B).
        intuition lia.
      * apply Z.ltb_ge in E. rewrite (IHB HB').
        rewrite (covers_cons a A), (covers_cons b B).
        intuition lia.
Qed.

(** Every emitted gap is the non-empty overlap of a pair. *)
Lemma intersectGaps_In (gaps1 gaps2 : list Gap.t) (g : Gap.t) :
  In g (Gaps.intersectGaps gaps1 gaps2) ->
  exists a b, In a gaps1 /\ In b gaps2 /\ In g (overlap a b).
Proof.
  revert gaps2.
  induction gaps1 as [|a A IHA]; intros gaps2; [intros []|].
  induction gaps2 as [|b B IHB]; [rewrite intersectGaps_nil_r; intros []|].
  rewrite intersectGaps_step. intro H. apply in_app_or in H.
  destruct H as [H|H].
  - exists a, b. simpl. auto.
  - destruct (Gap.end_ a <? Gap.end_ b).
    + destruct (IHA _ H) as (a' & b' & Ha & Hb & Hg). exists a', b'. simpl. auto.
    + destruct (IHB H) as (a' & b' & Ha & Hb & Hg). exists a', b'. simpl. auto.
Qed.

Lemma intersectGaps_sorted (gaps1 gaps2 : list Gap.t) :
  sortedByStart gaps1 -> sortedByStart gaps2 ->
  sortedByStart (Gaps.intersectGaps gaps1 gaps2).
Proof.
  revert gaps2.
  induction gaps1 as [|a A IHA]; intros gaps2 HA HB; [constructor|].
  induction gaps2 as [|b B IHB]; [rewrite intersectGaps_nil_r; constructor|].
  rewrite intersectGaps_step.
  pose proof (sortedByStart_tail HA) as HA'.
  pose proof (sortedByStart_tail HB) as HB'.
  assert (Hlow : forall a' b' g, In a' (a :: A) -> In b' (b :: B) ->
            In g (overlap a' b') ->
            Z.max (Gap.start a) (Gap.start b) <= Gap.start g).
  { intros a' b' g Ha' Hb' Hg. apply overlap_spec in Hg.
    assert (Gap.start a <= Gap.start a').
    { inversion HA as [|? ? _ Hall]; subst. destruct Ha' as [<-|Ha']; [lia|].
      rewrite Forall_forall in Hall. apply Hall, Ha'. }
    assert (Gap.start b <= Gap.start b').
    { inversion HB as [|? ? _ Hall]; subst. destruct Hb' as [<-|Hb']; [lia|].
      rewrite Forall_forall in Hall. apply Hall, Hb'. }
    lia. }
  set (rest := if Gap.end_ a <? Gap.end_ b
               then Gaps.intersectGaps A (b :: B)
               else Gaps.intersectGaps (a :: A) B).
  assert (Hrest : sortedByStart rest).
  { unfold rest. destruct (Gap.end_ a <? Gap.end_ b); [apply IHA | apply IHB]; assumption. }
  assert (Hfrom : forall g, In g rest ->
            Z.max (Gap.start a) (Gap.start b) <= Gap.start g).
  { intros g Hg. unfold rest in Hg.
    destruct (Gap.end_ a <? Gap.end_ b);
      apply intersectGaps_In in Hg; destruct Hg as (a' & b' & Ha' & Hb' & Hg);
      apply (Hlow a' b' g); simpl; auto. }
  unfold overlap.
  match goal with |- sortedByStart ((if ?c then _ else _) ++ _) => destruct c end;
    simpl; [|exact Hrest].
  constructor; [exact Hrest|].
  apply Forall_forall. intros g Hg. simpl.
  specialize (Hfrom g Hg).
  destruct (Gap.start a >? Gap.start b) eqn:E; rewrite Z.gtb_ltb in E;
    [apply Z.ltb_lt in E | apply Z.ltb_ge in E]; lia.
Qed.

(** The fold of [findComboGaps] over the remaining tables' gap lists. *)
Lemma fold_intersect (others : list (list Gap.t)) :
  forall first,
    sortedByStart first -> Forall sortedByStart others ->
    sortedByStart (fold_left Gaps.intersectGaps others first)
    /\ forall t, covers (fold_left Gaps.intersectGaps others first) t
                 <-> covers first t /\ Forall (fun l => covers l t) others.
Proof.
  induction others as [|l others IH]; intros first Hf Ho; simpl.
  - split; [exact Hf|]. intro t. split; [intro H; split; [exact H | constructor] | tauto].
  - inversion Ho as [|? ? Hl Ho']; subst.
    destruct (IH (Gaps.intersectGaps first l)
                (intersectGaps_sorted Hf Hl) Ho') as [Hs Hc].
    split; [exact Hs|]. intro t. rewrite Hc, (intersectGaps_covers t Hf Hl).
    split.
    + intros [[H1 H2] H3]. split; [exact H1 | constructor; assumption].
    + intros [H1 H2]. inversion H2; subst. tauto.
Qed.

(** C8.  Each step of the two-pointer merge [intersectGaps] emits the
    overlap [[max start, min end)] of the current pair when it is not empty
    and advances the cursor of the gap that ends first.  For gap lists
    sorted by start the merge covers exactly the instants at which both
    inputs are free and returns a sorted list again, so that folding it over
    any number of sorted lists, as [findComboGaps] does, covers exactly the
    instants at which every input is free. *)
Theorem intersectGaps_exact
    (first : list Gap.t) (others : list (list Gap.t)) :
  Spec.sortedByStart first -> Forall Spec.sortedByStart others ->
  (forall gap1 gap2 rest1 rest2,
      Gaps.intersectGaps (gap1 :: rest1) (gap2 :: rest2)
      = (let lo := Z.max (Gap.start gap1) (Gap.start gap2) in
         let hi := Z.min (Gap.end_ gap1) (Gap.end_ gap2) in
         if lo <? hi then [Gap.mk lo hi] else [])
        ++ (if Gap.end_ gap1 <? Gap.end_ gap2
            then Gaps.intersectGaps rest1 (gap2 :: rest2)
            else Gaps.intersectGaps (gap1 :: rest1) rest2))
  /\ (forall second t, Spec.sortedByStart second ->
        (Spec.covers (Gaps.intersectGaps first second) t
         <-> Spec.covers first t /\ Spec.covers second t))
  /\ (forall second, Spec.sortedByStart second ->
        Spec.sortedByStart (Gaps.intersectGaps first second))
  /\ (forall t,
        Spec.covers (fold_left Gaps.intersectGaps others first) t
        <-> Spec.covers first t /\ Forall (fun l => Spec.covers l t) others).
Proof.
  intros Hf Ho. split; [|split; [|split]].
  - intros gap1 gap2 rest1 rest2.
    rewrite intersectGaps_step, overlap_max_min. reflexivity.
  - intros second t Hs. apply intersectGaps_covers; assumption.
  - intros second Hs. apply intersectGaps_sorted; assumption.
  - apply fold_intersect; assumption.
Qed.

End IntersectFacts.

(** * The duration filter *)

Module DurationFacts.

Import Spec.

Lemma slots_In (fuel : nat) :
  forall currentStart roundedEnd durationMinutes slotMinutes g,
    In g (Gaps.slots fuel currentStart roundedEnd durationMinutes slotMinutes) ->
    exists k : nat,
      (k < fuel)%nat
      /\ Gap.start g = currentStart + Z.of_nat k * (slotMinutes * 60 * 1000)
      /\ Gap.end_ g = Gap.start g + durationMinutes * 60 * 1000
      /\ Gap.end_ g <= roundedEnd.
Proof.
  induction fuel as [|fuel IH]; intros cur rEnd dur slot g; simpl; [intros []|].
  destruct (cur + dur * 60 * 1000 <=? rEnd) eqn:E; [|intros []].
  apply Z.leb_le in E. intros [<-|H].
  - exists O. simpl. repeat split; lia.
  - destruct (IH _ _ _ _ _ H) as (k & Hk & Hs & He & Hle).
    exists (S k). repeat split; try lia.
Qed.

(** With a positive step the loop emits every admissible offset, provided
    the fuel covers it. *)
Lemma slots_complete (fuel : nat) :
  forall currentStart roundedEnd durationMinutes slotMinutes (k : nat),
    0 < slotMinutes ->
    (k < fuel)%nat ->
    currentStart + Z.of_nat k * (slotMinutes * 60 * 1000)
      + durationMinutes * 60 * 1000 <= roundedEnd ->
    In (Gap.mk (currentStart + Z.of_nat k * (slotMinutes * 60 * 1000))
               (currentStart + Z.of_nat k * (slotMinutes * 60 * 1000)
                + durationMinutes * 60 * 1000))
       (Gaps.slots fuel currentStart roundedEnd durationMinutes slotMinutes).
Proof.
  induction fuel as [|fuel IH]; intros cur rEnd dur slot k Hslot Hk Hfit; [lia|].
  simpl. destruct (cur + dur * 60 * 1000 <=? rEnd) eqn:E.
  - destruct k as [|k].
    + left. f_equal; simpl; lia.
    + right.
      replace (cur + Z.of_nat (S k) * (slot * 60 * 1000))
        with (cur + slot * 60 * 1000 + Z.of_nat k * (slot * 60 * 1000)) by lia.
      apply IH; [exact Hslot | lia | lia].
  - apply Z.leb_gt in E. exfalso. nia.
Qed.

(** The bound [Gaps.iterations] is sufficient: more fuel changes nothing. *)
Lemma slots_enough_fuel (fuel : nat) :
  forall extra currentStart roundedEnd durationMinutes slotMinutes,
    0 < slotMinutes ->
    roundedEnd - currentStart - durationMinutes * 60 * 1000
      < Z.of_nat fuel * (slotMinutes * 60 * 1000) ->
    Gaps.slots (fuel + extra) currentStart roundedEnd durationMinutes slotMinutes
    = Gaps.slots fuel currentStart roundedEnd durationMinutes slotMinutes.
Proof.
  induction fuel as [|fuel IH]; intros extra cur rEnd dur slot Hslot Hlt.
  - destruct extra as [|extra]; [reflexivity|]. simpl.
    destruct (cur + dur * 60 * 1000 <=? rEnd) eqn:E; [|reflexivity].
    apply Z.leb_le in E. simpl in Hlt. lia.
  - simpl. destruct (cur + dur * 60 * 1000 <=? rEnd) eqn:E; [|reflexivity].
    f_equal. apply IH; [exact Hslot | lia].
Qed.

Lemma iterations_enough (roundedStart roundedEnd durationMinutes slotMinutes : Z) :
  0 < slotMinutes ->
  roundedEnd - roundedStart - durationMinutes * 60 * 1000
  < Z.of_nat (Gaps.iterations roundedStart roundedEnd durationMinutes slotMinutes)
    * (slotMinutes * 60 * 1000).
Proof.
  intro Hslot. unfold Gaps.iterations.
  set (d := roundedEnd - roundedStart - durationMinutes * 60 * 1000).
  set (s := slotMinutes * 60 * 1000).
  assert (Hs : 0 < s) by (unfold s; lia).
  pose proof (Z.div_mod d s ltac:(lia)) as Hdm.
  pose proof (Z.mod_pos_bound d s Hs) as Hm.
  assert (Hn : d / s + 1 <= Z.of_nat (Z.to_nat (d / s + 1))) by lia.
  nia.
Qed.

(** The loop of [filterGapsByDuration] ends by its own test: with a
    positive step, fuel beyond [Gaps.iterations] changes nothing. *)
Lemma filter_loop_terminates
    (roundedStart roundedEnd durationMinutes slotMinutes : Z) (extra : nat) :
  0 < slotMinutes ->
  Gaps.slots (Gaps.iterations roundedStart roundedEnd durationMinutes slotMinutes + extra)
    roundedStart roundedEnd durationMinutes slotMinutes
  = Gaps.slots (Gaps.iterations roundedStart roundedEnd durationMinutes slotMinutes)
      roundedStart roundedEnd durationMinutes slotMinutes.
Proof.
  intro Hslot. apply slots_enough_fuel; [exact Hslot|].
  apply iterations_enough, Hslot.
Qed.


End DurationFacts.

(** * Candidates: where their fields come from *)

Module CandidateFacts.

Section Collation.
Variable localeCompare : string -> string -> Z.

Lemma scoreCandidate_interval (partySize : Z) (c : Candidate.t) :
  Candidate.start (Wokibrain.scoreCandidate partySize c) = Candidate.start c
  /\ Candidate.end_ (Wokibrain.scoreCandidate partySize c) = Candidate.end_ c.
Proof. split; reflexivity. Qed.

(** The interval of an enumerated candidate is a slot of the duration
    filter, applied to the gaps of its table or of its combination. *)
Lemma enumerateCandidates_slot
    (db : Db.t) (tables : list Table.t) (date partySize durationMinutes : Z)
    (activeWindows : list ServiceWindow.t) (tz : TimeZone)
    (requested : option (Z * Z)) (c : Candidate.t) :
  In c (Wokibrain.enumerateCandidates db tables date partySize durationMinutes
          activeWindows tz requested) ->
  exists gaps,
    (gaps = Gaps.findTableGaps db (hd ""%string (Candidate.tableIds c)) date activeWindows tz
     \/ gaps = Gaps.findComboGaps db (Candidate.tableIds c) date activeWindows tz)
    /\ In (Gap.mk (Candidate.start c) (Candidate.end_ c))
          (Gaps.filterGapsByDuration gaps durationMinutes 15).
Proof.
  unfold Wokibrain.enumerateCandidates. intro H.
  assert (Hclip : forall (l : list Gap.t) (g : Gap.t),
            In g (match requested with
                  | Some (requestedStartTs, requestedEndTs) =>
                      filter (fun gap => (Gap.start gap >=? requestedStartTs)
                                         && (Gap.end_ gap <=? requestedEndTs)) l
                  | None => l
                  end) -> In g l).
  { intros l g Hg. destruct requested as [[rs re]|]; [|exact Hg].
    apply filter_In in Hg. apply Hg. }
  apply in_app_or in H. destruct H as [H|H]; apply in_flat_map in H;
    destruct H as (x & _ & H).
  - destruct (_ || _) in H; [destruct H|].
    apply in_map_iff in H. destruct H as (g & <- & Hg). apply Hclip in Hg.
    eexists. split; [left; reflexivity|]. simpl. destruct g; exact Hg.
  - destruct (_ || _) in H; [destruct H|].
    apply in_map_iff in H. destruct H as (g & <- & Hg). apply Hclip in Hg.
    eexists. split; [right; reflexivity|]. simpl. destruct g; exact Hg.
Qed.

(** Candidates returned by [findCandidates] are scored enumerated ones. *)
Lemma findCandidates_In
    (db : Db.t) (sectorId : string) (date partySize durationMinutes : Z)
    (serviceWindows : list ServiceWindow.t) (tz : TimeZone)
    (rs re : option TimeOfDay.t) (limit : nat) (c : Candidate.t) :
  In c (Wokibrain.findCandidates localeCompare db sectorId date partySize
          durationMinutes serviceWindows tz rs re limit) ->
  exists c0 activeWindows requested,
    c = Wokibrain.scoreCandidate partySize c0
    /\ In c0 (Wokibrain.enumerateCandidates db (Db.getTablesBySector db sectorId)
                date partySize durationMinutes activeWindows tz requested).
Proof.
  unfold Wokibrain.findCandidates. intro H.
  destruct (Db.getTablesBySector db sectorId) as [|t0 ts] eqn:Et; [destruct H|].
  match type of H with
  | In _ (match ?r with _ => _ end) => destruct r as [[a b]|] eqn:Er
  end.
  - match type of H with
    | In _ (match ?aw with _ => _ end) => destruct aw as [|w0 ws] eqn:Ea
    end; [destruct H|].
    apply SortFacts.In_firstn, SortFacts.sort_In, in_map_iff in H.
    destruct H as (c0 & <- & Hc0). eauto.
  - apply SortFacts.In_firstn, SortFacts.sort_In, in_map_iff in H.
    destruct H as (c0 & <- & Hc0). eauto.
Qed.

End Collation.

End CandidateFacts.

Module FixedLength.


End FixedLength.

(** * Where gap boundaries come from *)

Module BoundFacts.

Section Bounds.

(** A property of instants that holds of every window bound. *)
Variable P : Z -> Prop.
Hypothesis P_zoned : forall date time tz, P (Gaps.toZonedIso date time tz).

Lemma sweep_bounds (bs : list Booking.t) :
  forall cur winEnd, P cur -> P winEnd -> Forall (Spec.bookingBounds P) bs ->
                     Forall (Spec.gapBounds P) (Gaps.sweep cur bs winEnd).
Proof.
  induction bs as [|b bs IH]; intros cur winEnd Hc He Hb; simpl.
  - destruct (cur <? winEnd); constructor; [split; assumption | constructor].
  - inversion Hb as [|? ? [Hs Hd] Hbs]; subst.
    apply Forall_app. split.
    + destruct (cur <? Booking.start b); constructor; [split; assumption | constructor].
    + apply IH; [|exact He|exact Hbs].
      destruct (Booking.end_ b >? cur); assumption.
Qed.

Lemma findGapsInWindow_bounds (bookings : list Booking.t) (ws we : Z) :
  P ws -> P we -> Forall (Spec.bookingBounds P) bookings ->
  Forall (Spec.gapBounds P) (Gaps.findGapsInWindow bookings ws we).
Proof.
  intros Hs He Hb. unfold Gaps.findGapsInWindow.
  apply sweep_bounds; [exact Hs | exact He |].
  apply SortFacts.sort_Forall. rewrite Forall_forall in *.
  intros b Hin. apply filter_In in Hin. apply Hb, Hin.
Qed.

Lemma splitAround_bounds (bl : list Blackout.t) :
  forall cur gapEnd, P cur -> P gapEnd -> Forall (Spec.blackoutBounds P) bl ->
                     Forall (Spec.gapBounds P) (Blackouts.splitAround cur bl gapEnd).
Proof.
  induction bl as [|b bl IH]; intros cur gapEnd Hc He Hb; simpl.
  - destruct (cur <? gapEnd); constructor; [split; assumption | constructor].
  - inversion Hb as [|? ? [Hs Hd] Hbl]; subst.
    apply Forall_app. split.
    + destruct (cur <? Blackout.start b); constructor; [split; assumption | constructor].
    + apply IH; [|exact He|exact Hbl].
      destruct (Z.max_spec cur (Blackout.end_ b)) as [[_ ->]|[_ ->]]; assumption.
Qed.

Lemma filterGapsByBlackouts_bounds
    (db : Db.t) (gaps : list Gap.t) (tableIds : list string) :
  Forall (Spec.blackoutBounds P) (JsMap.values (Db.blackouts db)) ->
  Forall (Spec.gapBounds P) gaps ->
  Forall (Spec.gapBounds P) (Blackouts.filterGapsByBlackouts db gaps tableIds).
Proof.
  intros Hb Hg. unfold Blackouts.filterGapsByBlackouts.
  assert (Hsel : Forall (Spec.blackoutBounds P) (Db.getBlackoutsByTables db tableIds)).
  { unfold Db.getBlackoutsByTables. rewrite Forall_forall in *.
    intros b Hin. apply filter_In in Hin. apply Hb, Hin. }
  destruct (Db.getBlackoutsByTables db tableIds) as [|b0 bl]; [exact Hg|].
  apply Forall_flat_map. rewrite Forall_forall in Hg |- *.
  intros g Hin. destruct (Hg g Hin) as [Hs He].
  destruct (filter _ (b0 :: bl)) as [|o os] eqn:Ef.
  - constructor; [split; assumption | constructor].
  - apply splitAround_bounds; [exact Hs | exact He |].
    apply SortFacts.sort_Forall. rewrite <- Ef.
    rewrite Forall_forall in *. intros b Hb'. apply filter_In in Hb'. apply Hsel, Hb'.
Qed.

Lemma intersectGaps_bounds (gaps1 gaps2 : list Gap.t) :
  Forall (Spec.gapBounds P) gaps1 -> Forall (Spec.gapBounds P) gaps2 ->
  Forall (Spec.gapBounds P) (Gaps.intersectGaps gaps1 gaps2).
Proof.
  intros H1 H2. rewrite Forall_forall in *. intros g Hg.
  apply IntersectFacts.intersectGaps_In in Hg.
  destruct Hg as (a & b & Ha & Hb & Hg).
  destruct (H1 a Ha) as [Has Hae]. destruct (H2 b Hb) as [Hbs Hbe].
  unfold Spec.overlap in Hg.
  destruct (_ <? _) in Hg; [|destruct Hg].
  destruct Hg as [<-|[]]. split; simpl.
  - destruct (Gap.start a >? Gap.start b); assumption.
  - destruct (Gap.end_ a <? Gap.end_ b); assumption.
Qed.

Variable db : Db.t.
Hypothesis bookings_P : Forall (Spec.bookingBounds P) (JsMap.values (Db.bookings db)).
Hypothesis blackouts_P : Forall (Spec.blackoutBounds P) (JsMap.values (Db.blackouts db)).

Lemma getBookings_bounds (tableIds : list string) (date : Z) :
  Forall (Spec.bookingBounds P) (Db.getBookingsByTablesAndDate db tableIds date).
Proof.
  unfold Db.getBookingsByTablesAndDate. apply SortFacts.sort_Forall.
  rewrite Forall_forall in *. intros b Hin. apply filter_In in Hin.
  apply bookings_P, Hin.
Qed.

Lemma findTableGaps_bounds
    (tableId : string) (date : Z) (windows : list ServiceWindow.t) (tz : TimeZone) :
  Forall (Spec.gapBounds P) (Gaps.findTableGaps db tableId date windows tz).
Proof.
  unfold Gaps.findTableGaps. destruct windows as [|w0 ws].
  - apply findGapsInWindow_bounds; auto using getBookings_bounds.
  - apply filterGapsByBlackouts_bounds; [exact blackouts_P|].
    apply Forall_flat_map. apply Forall_forall. intros w _.
    apply findGapsInWindow_bounds; auto using getBookings_bounds.
Qed.

Lemma findComboGaps_bounds
    (tableIds : list string) (date : Z) (windows : list ServiceWindow.t) (tz : TimeZone) :
  Forall (Spec.gapBounds P) (Gaps.findComboGaps db tableIds date windows tz).
Proof.
  unfold Gaps.findComboGaps. destruct tableIds as [|t1 [|t2 ts]].
  - constructor.
  - apply findTableGaps_bounds.
  - apply filterGapsByBlackouts_bounds; [exact blackouts_P|].
    generalize (Gaps.findTableGaps db t1 date windows tz)
               (findTableGaps_bounds t1 date windows tz).
    generalize (t2 :: ts). intro others.
    induction others as [|o others IH]; intros acc Hacc; simpl; [exact Hacc|].
    apply IH. apply intersectGaps_bounds; [exact Hacc | apply findTableGaps_bounds].
Qed.

End Bounds.

End BoundFacts.

(** * The 15-minute grid *)

Module GridFacts.

Import Spec.

Lemma rem15 (d : Z) : Z.rem (Gaps.getMinutes d) 15 = Gaps.getMinutes d mod 15.
Proof.
  unfold Gaps.getMinutes. apply Z.rem_mod_nonneg; [|lia].
  apply Z.mod_pos_bound. lia.
Qed.

Ltac unfold_dates :=
  unfold Gaps.setMilliseconds, Gaps.setSeconds, Gaps.setMinutes,
    Gaps.getMilliseconds, Gaps.getSeconds, Gaps.getMinutes in *.

(** Rounding up a whole-minute instant gives the least grid point that is
    not before it. *)
Lemma roundToSlot_up (d : Z) :
  wholeMinute d ->
  onGrid (Gaps.roundToSlot d 15 Gaps.up)
  /\ d <= Gaps.roundToSlot d 15 Gaps.up < d + gridMs.
Proof.
  unfold wholeMinute, onGrid, gridMs, msPerMinute, Gaps.roundToSlot. intro H.
  rewrite rem15.
  destruct (Gaps.getMinutes d mod 15 =? 0) eqn:E;
    [apply Z.eqb_eq in E | apply Z.eqb_neq in E];
    unfold_dates; Z.div_mod_to_equations; lia.
Qed.

(** Rounding down gives the greatest grid point that is not after it. *)
Lemma roundToSlot_down (d : Z) :
  wholeMinute d ->
  onGrid (Gaps.roundToSlot d 15 Gaps.down)
  /\ Gaps.roundToSlot d 15 Gaps.down <= d < Gaps.roundToSlot d 15 Gaps.down + gridMs.
Proof.
  unfold wholeMinute, onGrid, gridMs, msPerMinute, Gaps.roundToSlot. intro H.
  rewrite rem15.
  destruct (Gaps.getMinutes d mod 15 =? 0) eqn:E;
    [apply Z.eqb_eq in E | apply Z.eqb_neq in E];
    unfold_dates; Z.div_mod_to_equations; lia.
Qed.

Lemma wholeMinute_zoned (date : Z) (time : TimeOfDay.t) (tz : TimeZone) :
  wholeMinute (Gaps.toZonedIso date time tz).
Proof.
  unfold wholeMinute, msPerMinute, Gaps.toZonedIso.
  Z.div_mod_to_equations. lia.
Qed.

Lemma slots_NoDup (fuel : nat) :
  forall cur rEnd dur slot,
    0 < slot -> NoDup (Gaps.slots fuel cur rEnd dur slot).
Proof.
  induction fuel as [|fuel IH]; intros cur rEnd dur slot Hslot; simpl; [constructor|].
  destruct (cur + dur * 60 * 1000 <=? rEnd); [|constructor].
  constructor; [|apply IH, Hslot].
  intro Hin. apply DurationFacts.slots_In in Hin.
  destruct Hin as (k & _ & Hs & _). simpl in Hs. nia.
Qed.

(** The slots cut from the gaps: for each gap, one slot per grid offset
    [k] from the rounded start that leaves room before the rounded end. *)
Lemma filterGapsByDuration_slots (gaps : list Gap.t) (durationMinutes : Z) (s : Gap.t) :
  In s (Gaps.filterGapsByDuration gaps durationMinutes 15) <->
  exists g k,
    In g gaps /\ 0 <= k
    /\ Gap.start s = Gaps.roundToSlot (Gap.start g) 15 Gaps.up + k * gridMs
    /\ Gap.end_ s = Gap.start s + durationMinutes * msPerMinute
    /\ Gap.end_ s <= Gaps.roundToSlot (Gap.end_ g) 15 Gaps.down.
Proof.
  unfold Gaps.filterGapsByDuration, gridMs, msPerMinute.
  rewrite in_flat_map. split.
  - intros (g & Hg & Hs). exists g.
    destruct (_ <=? _) in Hs; [|destruct Hs].
    apply DurationFacts.slots_In in Hs. destruct Hs as (k & _ & H1 & H2 & H3).
    exists (Z.of_nat k). repeat split; try assumption; lia.
  - intros (g & k & Hg & Hk & H1 & H2 & H3). exists g. split; [exact Hg|].
    set (rs := Gaps.roundToSlot (Gap.start g) 15 Gaps.up) in *.
    set (re := Gaps.roundToSlot (Gap.end_ g) 15 Gaps.down) in *.
    destruct (durationMinutes * (1000 * 60) <=? re - rs) eqn:E;
      [|apply Z.leb_gt in E; lia].
    pose proof (DurationFacts.iterations_enough rs re durationMinutes (slotMinutes := 15)
                  ltac:(lia)) as Hfuel.
    replace s with (Gap.mk (rs + Z.of_nat (Z.to_nat k) * (15 * 60 * 1000))
                           (rs + Z.of_nat (Z.to_nat k) * (15 * 60 * 1000)
                            + durationMinutes * 60 * 1000)).
    2:{ destruct s as [ss se]. simpl in *. f_equal; lia. }
    apply DurationFacts.slots_complete; lia.
Qed.

Lemma wholeMinuteb_spec (t : Z) : wholeMinuteb t = true <-> wholeMinute t.
Proof. unfold wholeMinuteb, wholeMinute. apply Z.eqb_eq. Qed.

Lemma wholeMinuteStore_spec (db : Db.t) :
  wholeMinuteStore db = true ->
  Forall (Spec.bookingBounds wholeMinute) (JsMap.values (Db.bookings db))
  /\ Forall (Spec.blackoutBounds wholeMinute) (JsMap.values (Db.blackouts db)).
Proof.
  unfold wholeMinuteStore. intro H. apply andb_prop in H. destruct H as [Hb Hk].
  rewrite forallb_forall in Hb, Hk. split; apply Forall_forall; intros x Hx.
  - specialize (Hb x Hx). apply andb_prop in Hb.
    split; apply wholeMinuteb_spec; tauto.
  - specialize (Hk x Hx). apply andb_prop in Hk.
    split; apply wholeMinuteb_spec; tauto.
Qed.

(** C5, counterexample.  A venue opens at 12:10; the first candidate for
    its only table starts at 12:15, five minutes after the window start. *)
Lemma candidate_off_window_grid :
  exists c,
    In c (Wokibrain.findCandidates Seed.collate Seed.oddDb "S1" Seed.day 2 60
            Seed.oddWindows Seed.utc None None 10)
    /\ (Candidate.start c - Gaps.toZonedIso Seed.day (Seed.hm 12 10) Seed.utc)
         mod Spec.gridMs = 5 * Spec.msPerMinute
    /\ (Candidate.start c - Gaps.toZonedIso Seed.day (Seed.hm 12 10) Seed.utc)
         mod Spec.gridMs <> 0.
Proof.
  exists (Wokibrain.scoreCandidate 2
            (Candidate.mk single ["T1"%string]
               (Gaps.toZonedIso Seed.day (Seed.hm 12 15) Seed.utc)
               (Gaps.toZonedIso Seed.day (Seed.hm 13 15) Seed.utc) 2 4 None None)).
  split; [vm_compute; left; reflexivity|].
  split; vm_compute; [reflexivity | discriminate].
Qed.

(** The rounding leaves an instant alone when its minute is on the grid,
    seconds included: after a blackout that ends at 20:15:30 the first
    candidate starts at 20:15:30. *)
Lemma seconds_survive_rounding :
  Gaps.roundToSlot (Seed.at_ 20 15 + 30 * 1000) 15 Gaps.up = Seed.at_ 20 15 + 30 * 1000
  /\ map Candidate.start
       (Wokibrain.findCandidates Seed.collate Seed.halfMinuteDb "S1" Seed.day 5 90
          Seed.windows Seed.BuenosAires
          (Some (Seed.hm 20 0)) (Some (Seed.hm 23 45)) 1)
     = [Seed.at_ 20 15 + 30 * 1000].
Proof. vm_compute. split; reflexivity. Qed.

(** C5, amended.  When every booking and blackout of the store starts and
    ends on a whole minute and the duration is a multiple of 15, every
    candidate starts and ends on the 15-minute clock grid, hence at a
    multiple of 15 minutes from any origin that is itself on that grid.
    For gaps with whole-minute bounds the start is rounded up and the end
    rounded down to the nearest grid point, and the filter emits exactly one
    slot per grid offset from the rounded start that leaves room for the
    duration before the rounded end, so a gap too short after rounding
    yields none. *)
Theorem candidates_on_clock_grid
    (localeCompare : string -> string -> Z)
    (db : Db.t) (sectorId : string) (date partySize durationMinutes : Z)
    (serviceWindows : list ServiceWindow.t) (tz : TimeZone)
    (rs re : option TimeOfDay.t) (limit : nat) :
  Spec.wholeMinuteStore db = true ->
  Z.rem durationMinutes 15 = 0 ->
  (forall c,
      In c (Wokibrain.findCandidates localeCompare db sectorId date partySize
              durationMinutes serviceWindows tz rs re limit) ->
      Spec.onGrid (Candidate.start c) /\ Spec.onGrid (Candidate.end_ c)
      /\ forall origin, Spec.onGrid origin ->
           (Candidate.start c - origin) mod Spec.gridMs = 0
           /\ (Candidate.end_ c - origin) mod Spec.gridMs = 0)
  /\ (forall g,
        Spec.wholeMinute (Gap.start g) -> Spec.wholeMinute (Gap.end_ g) ->
        let roundedStart := Gaps.roundToSlot (Gap.start g) 15 Gaps.up in
        let roundedEnd := Gaps.roundToSlot (Gap.end_ g) 15 Gaps.down in
        (Spec.onGrid roundedStart
         /\ Gap.start g <= roundedStart < Gap.start g + Spec.gridMs)
        /\ (Spec.onGrid roundedEnd
            /\ roundedEnd <= Gap.end_ g < roundedEnd + Spec.gridMs)
        /\ (forall s,
              In s (Gaps.filterGapsByDuration [g] durationMinutes 15) <->
              exists k,
                0 <= k
                /\ Gap.start s = roundedStart + k * Spec.gridMs
                /\ Gap.end_ s = Gap.start s + durationMinutes * Spec.msPerMinute
                /\ Gap.end_ s <= roundedEnd)
        /\ NoDup (Gaps.filterGapsByDuration [g] durationMinutes 15)).
Proof.
  intros Hstore Hdur. split.
  - intros c Hc.
    apply CandidateFacts.findCandidates_In in Hc.
    destruct Hc as (c0 & aw & rq & -> & H0).
    apply CandidateFacts.enumerateCandidates_slot in H0.
    destruct H0 as (gaps & Hgaps & Hslot).
    destruct (wholeMinuteStore_spec db Hstore) as [Hbk Hbl].
    assert (Hwm : Forall (Spec.gapBounds wholeMinute) gaps).
    { destruct Hgaps as [-> | ->];
        [apply BoundFacts.findTableGaps_bounds | apply BoundFacts.findComboGaps_bounds];
        auto using wholeMinute_zoned. }
    apply filterGapsByDuration_slots in Hslot.
    destruct Hslot as (g & k & Hg & Hk & Hs & He & _). simpl in Hs, He.
    rewrite Forall_forall in Hwm. destruct (Hwm g Hg) as [Hgs _].
    destruct (roundToSlot_up Hgs) as [Hup _].
    destruct (CandidateFacts.scoreCandidate_interval partySize c0) as [-> ->].
    rewrite He, Hs. clear - Hup Hdur.
    unfold onGrid, gridMs, msPerMinute in *.
    assert (Hq : exists q, durationMinutes = 15 * q).
    { exists (Z.quot durationMinutes 15).
      pose proof (Z.quot_rem' durationMinutes 15). lia. }
    destruct Hq as [q ->].
    repeat split; try intros origin Ho; try split;
      Z.div_mod_to_equations; lia.
  - intros g Hgs Hge. cbv zeta.
    split; [apply roundToSlot_up, Hgs|].
    split; [apply roundToSlot_down, Hge|].
    split.
    + intro s. rewrite filterGapsByDuration_slots. split.
      * intros (g' & k & [<-|[]] & H). exists k. exact H.
      * intros (k & H). exists g, k. split; [left; reflexivity | exact H].
    + unfold Gaps.filterGapsByDuration. simpl. rewrite app_nil_r.
      destruct (_ <=? _); [apply slots_NoDup; lia | constructor].
Qed.

(** The seed store with a table free all evening: the first candidate for a
    party of five. *)
Lemma candidates_on_clock_grid_witness :
  Spec.onGrid (Seed.at_ 20 0) /\ Spec.onGrid (Seed.at_ 21 30).
Proof.
  destruct (@candidates_on_clock_grid Seed.collate Seed.db "S1" Seed.day 5 90
              Seed.windows Seed.BuenosAires
              (Some (Seed.hm 20 0)) (Some (Seed.hm 23 45)) 10
              eq_refl eq_refl) as [H _].
  destruct (H (Wokibrain.scoreCandidate 5
                 (Candidate.mk single ["T4"%string] (Seed.at_ 20 0) (Seed.at_ 21 30)
                    4 6 None None))) as (H1 & H2 & _).
  - vm_compute. left. reflexivity.
  - split; [exact H1 | exact H2].
Defined.

End GridFacts.

(** * The ordering of candidates *)

Module OrderFacts.

Import Spec.

(** Code-unit order is a total preorder. *)
Lemma ascii_compare_N (a b : ascii) :
  Ascii.compare a b = N.compare (N_of_ascii a) (N_of_ascii b).
Proof. reflexivity. Qed.

Lemma string_compare_trans (a : string) :
  forall b c, String.compare a b <> Gt -> String.compare b c <> Gt ->
              String.compare a c <> Gt.
Proof.
  induction a as [|x a IH]; intros [|y b] [|z c]; simpl; try congruence.
  rewrite !ascii_compare_N.
  destruct (N.compare_spec (N_of_ascii x) (N_of_ascii y)) as [Exy|Lxy|Gxy];
    destruct (N.compare_spec (N_of_ascii y) (N_of_ascii z)) as [Eyz|Lyz|Gyz];
    destruct (N.compare_spec (N_of_ascii x) (N_of_ascii z)) as [Exz|Lxz|Gxz];
    try congruence; try lia.
  apply IH.
Qed.

Lemma codeUnitOrder_total (a b : string) :
  0 < Wokibrain.codeUnitOrder a b -> Wokibrain.codeUnitOrder b a <= 0.
Proof.
  unfold Wokibrain.codeUnitOrder. rewrite (String.compare_antisym b a).
  destruct (String.compare a b); simpl; lia.
Qed.

Lemma codeUnitOrder_trans (a b c : string) :
  Wokibrain.codeUnitOrder a b <= 0 -> Wokibrain.codeUnitOrder b c <= 0 ->
  Wokibrain.codeUnitOrder a c <= 0.
Proof.
  unfold Wokibrain.codeUnitOrder. intros H1 H2.
  pose proof (@string_compare_trans a b c) as H.
  destruct (String.compare a b); destruct (String.compare b c);
    destruct (String.compare a c); try lia;
    exfalso; apply H; congruence.
Qed.

Section Collation.

Variable localeCompare : string -> string -> Z.

(** The source comparator decides the tuple order. *)
Lemma compareCandidates_precedes (partySize : Z) (a b : Candidate.t) :
  Wokibrain.compareCandidates localeCompare partySize a b <= 0
  <-> precedes localeCompare partySize a b.
Proof.
  unfold Wokibrain.compareCandidates, precedes, kindRank, waste, idKey,
    localeCompareIso.
  destruct (Candidate.kind a), (Candidate.kind b); simpl; try lia.
  - destruct (Z.compare_spec (Candidate.start a) (Candidate.start b)); simpl; try lia.
    destruct (Candidate.maxCapacity a - partySize =? Candidate.maxCapacity b - partySize)
      eqn:E; simpl; [apply Z.eqb_eq in E | apply Z.eqb_neq in E]; lia.
  - destruct (Z.compare_spec (Candidate.start a) (Candidate.start b)); simpl; try lia.
    destruct (Candidate.maxCapacity a - partySize =? Candidate.maxCapacity b - partySize)
      eqn:E; simpl; [apply Z.eqb_eq in E | apply Z.eqb_neq in E]; lia.
Qed.

Lemma compareCandidates_after (partySize : Z) (a b : Candidate.t) :
  0 < Wokibrain.compareCandidates localeCompare partySize a b
  <-> ~ precedes localeCompare partySize a b.
Proof. rewrite <- compareCandidates_precedes. lia. Qed.

Hypothesis collation_total :
  forall x y, 0 < localeCompare x y -> localeCompare y x <= 0.
Hypothesis collation_trans :
  forall x y z, localeCompare x y <= 0 -> localeCompare y z <= 0 ->
                localeCompare x z <= 0.

Lemma precedes_total (partySize : Z) (a b : Candidate.t) :
  ~ precedes localeCompare partySize a b -> precedes localeCompare partySize b a.
Proof.
  unfold precedes. pose proof (@collation_total (idKey a) (idKey b)). lia.
Qed.

Lemma precedes_trans (partySize : Z) (a b c : Candidate.t) :
  precedes localeCompare partySize a b -> precedes localeCompare partySize b c ->
  precedes localeCompare partySize a c.
Proof.
  unfold precedes. pose proof (@collation_trans (idKey a) (idKey b) (idKey c)). lia.
Qed.

Lemma sort_by_precedes (partySize : Z) (l : list Candidate.t) :
  StronglySorted (precedes localeCompare partySize)
    (JsArray.sort (Wokibrain.compareCandidates localeCompare partySize) l).
Proof.
  eapply SortFacts.StronglySorted_impl.
  2:{ apply SortFacts.sort_sorted.
      - intros a b H. apply compareCandidates_precedes, precedes_total.
        apply compareCandidates_after, H.
      - intros a b c H1 H2. apply compareCandidates_precedes.
        apply compareCandidates_precedes in H1, H2.
        eapply precedes_trans; eassumption. }
  intros a b. unfold JsArray.le. apply compareCandidates_precedes.
Qed.

End Collation.

End OrderFacts.

Module Ordering.



(** In the seed store the candidates of a party of five come out by start
    time while their scores go up and then down: the score is not the key. *)
Lemma scores_not_monotone :
  map Candidate.score
    (Wokibrain.findCandidates Seed.collate Seed.db "S1" Seed.day 5 90
       Seed.windows Seed.BuenosAires
       (Some (Seed.hm 20 0)) (Some (Seed.hm 23 45)) 10)
  = map Some [4010; 4910; 5810; 6710; 7610; 8510; 9410; 310; 1210; 2110].
Proof. vm_compute. reflexivity. Qed.

End Ordering.

(** * The store *)

Module StoreFacts.

Section Map.
Variable V : Type.

Lemma get_set_same (m : JsMap.t V) (k : string) (v : V) :
  JsMap.get (JsMap.set m k v) k = Some v.
Proof.
  induction m as [|[k' v'] m IH]; simpl.
  - rewrite String.eqb_refl. reflexivity.
  - destruct (String.eqb k' k) eqn:E; simpl.
    + rewrite String.eqb_refl. reflexivity.
    + rewrite E. exact IH.
Qed.

Lemma get_set_other (m : JsMap.t V) (k k' : string) (v : V) :
  k <> k' -> JsMap.get (JsMap.set m k v) k' = JsMap.get m k'.
Proof.
  intro Hne. induction m as [|[k0 v0] m IH]; simpl.
  - destruct (String.eqb_spec k k'); [contradiction | reflexivity].
  - destruct (String.eqb_spec k0 k) as [->|Hk0]; simpl.
    + destruct (String.eqb_spec k k'); [contradiction | reflexivity].
    + destruct (String.eqb k0 k'); [reflexivity | exact IH].
Qed.

Lemma get_delete_same (m : JsMap.t V) (k : string) :
  JsMap.get (JsMap.delete m k) k = None.
Proof.
  induction m as [|[k' v'] m IH]; simpl; [reflexivity|].
  destruct (String.eqb k' k) eqn:E; simpl; [exact IH|].
  rewrite E. exact IH.
Qed.

Lemma get_delete_other (m : JsMap.t V) (k k' : string) :
  k <> k' -> JsMap.get (JsMap.delete m k) k' = JsMap.get m k'.
Proof.
  intro Hne. induction m as [|[k0 v0] m IH]; simpl; [reflexivity|].
  destruct (String.eqb_spec k0 k) as [->|Hk0]; simpl.
  - destruct (String.eqb_spec k k'); [contradiction | exact IH].
  - destruct (String.eqb k0 k'); [reflexivity | exact IH].
Qed.

Lemma get_In (m : JsMap.t V) (k : string) (v : V) :
  JsMap.get m k = Some v -> In v (JsMap.values m).
Proof.
  induction m as [|[k' v'] m IH]; simpl; [discriminate|].
  destruct (String.eqb k' k); [intros [= ->]; left; reflexivity | right; auto].
Qed.

End Map.

Lemma with_db_same (w : World.t) : World.with_db w (World.db w) = w.
Proof. destruct w. reflexivity. Qed.

End StoreFacts.

(** * The booking transaction: failures and idempotency *)

Module TransactionFacts.

Import BookingService.

(** Destructs the tests of a hypothesis [H] one after the other. *)
Ltac split_tests H :=
  repeat match type of H with
         | context [if ?c then _ else _] => destruct c eqn:?
         | context [match ?x with _ => _ end] => destruct x eqn:?
         end;
  try discriminate H.

Lemma validate_fields (req : Request) (a : Args) :
  validate req = Ok a ->
  a_idempotencyKey a = idempotencyKey req
  /\ a_restaurantId a = restaurantId req
  /\ a_sectorId a = sectorId req.
Proof.
  unfold validate. intro H. split_tests H;
    injection H as <-; repeat split; reflexivity.
Qed.

(** An idempotency lookup touches nothing but the cache. *)
Lemma lookupIdempotency_store (w w' : World.t) (key : option string)
    (existing : option Booking.t) :
  lookupIdempotency w key = (existing, w') ->
  Db.bookings (World.db w') = Db.bookings (World.db w)
  /\ Db.waitlist (World.db w') = Db.waitlist (World.db w)
  /\ World.now w' = World.now w.
Proof.
  unfold lookupIdempotency, Db.getIdempotency. intro H.
  destruct key as [k|]; [|injection H as <- <-; repeat split; reflexivity].
  destruct (String.eqb k ""); [injection H as <- <-; repeat split; reflexivity|].
  destruct (JsMap.get (Db.idempotencyCache (World.db w)) k) as [[b e]|];
    [destruct (World.now w >? e)|];
    injection H as <- <-; repeat split; reflexivity.
Qed.




Section Collation.
Variable localeCompare : string -> string -> Z.

Lemma prepare_throw (w w' : World.t) (req : Request) (e : Error) :
  prepare localeCompare w req = Returned (Throw e) w' ->
  Db.bookings (World.db w') = Db.bookings (World.db w)
  /\ Db.waitlist (World.db w') = Db.waitlist (World.db w).
Proof.
  unfold prepare. intro H.
  destruct (validate req) as [a|e0]; [|injection H as <- <-; split; reflexivity].
  destruct (lookupIdempotency w (a_idempotencyKey a)) as [existing w1] eqn:El.
  apply lookupIdempotency_store in El. destruct El as (Hb & Hw & _).
  destruct existing; [discriminate H|].
  destruct (Db.getRestaurant _ _); [|injection H as <- <-; split; assumption].
  destruct (Db.getSector _ _); [|injection H as <- <-; split; assumption].
  destruct (negb _); [injection H as <- <-; split; assumption|].
  destruct (Wokibrain.selectBestCandidate _ _ _ _ _ _ _ _ _ _).
  - match type of H with
    | (if ?c then _ else _) = _ => destruct c
    end; [injection H as <- <-; split; assumption | discriminate H].
  - destruct (enqueue w1 a t). discriminate H.
Qed.

Lemma prepare_selected (w w' : World.t) (req : Request)
    (a : Args) (restaurant : Restaurant.t) (candidate : Candidate.t) :
  prepare localeCompare w req = Selected a restaurant candidate w' ->
  Db.bookings (World.db w') = Db.bookings (World.db w)
  /\ Db.waitlist (World.db w') = Db.waitlist (World.db w)
  /\ validate req = Ok a
  /\ lookupIdempotency w (a_idempotencyKey a) = (None, w').
Proof.
  unfold prepare. intro H.
  destruct (validate req) as [a0|e0]; [|discriminate H].
  destruct (lookupIdempotency w (a_idempotencyKey a0)) as [existing w1] eqn:El.
  pose proof (lookupIdempotency_store _ _ El) as (Hb & Hw & _).
  destruct existing; [discriminate H|].
  destruct (Db.getRestaurant _ _); [|discriminate H].
  destruct (Db.getSector _ _); [|discriminate H].
  destruct (negb _); [discriminate H|].
  destruct (Wokibrain.selectBestCandidate _ _ _ _ _ _ _ _ _ _).
  - match type of H with
    | (if ?c then _ else _) = _ => destruct c
    end; [discriminate H|].
    injection H as <- <- <- <-. repeat split; assumption.
  - destruct (enqueue w1 a0 t). discriminate H.
Qed.

Lemma commit_throw (w w' : World.t) (a : Args) (restaurant : Restaurant.t)
    (candidate : Candidate.t) (e : Error) :
  commit w a restaurant candidate = (Throw e, w') ->
  e = no_capacity
  /\ Db.bookings (World.db w') = Db.bookings (World.db w)
  /\ Db.waitlist (World.db w') = Db.waitlist (World.db w).
Proof.
  unfold commit. intro H.
  destruct (lookupIdempotency w (a_idempotencyKey a)) as [existing w1] eqn:El.
  apply lookupIdempotency_store in El. destruct El as (Hb & Hw & _).
  destruct existing; [discriminate H|].
  destruct (JsArray.some _ _).
  - injection H as <- <-. repeat split; assumption.
  - unfold generateBookingId, World.fresh in H. simpl in H. discriminate H.
Qed.



End Collation.

End TransactionFacts.

Module Failures.

Import Scenarios.

Import BookingService.

(** C9.  When [createBooking] ends by throwing, the bookings of the store
    are what they were when it started.  The same holds of each of its two
    synchronous phases taken alone (before the lock, and the critical
    section entered in whatever world the wait for the lock ended in), so it
    holds too when other requests run while the call waits. *)
Theorem createBooking_failure_writes_nothing
    (localeCompare : string -> string -> Z)
    (w w' : World.t) (req : Request) (e : Error) :
  createBooking localeCompare w req = (Throw e, w')
  \/ prepare localeCompare w req = Returned (Throw e) w'
  \/ (exists a restaurant candidate,
        commit w a restaurant candidate = (Throw e, w')) ->
  Db.bookings (World.db w') = Db.bookings (World.db w).
Proof.
  intros [H | [H | (a & r & c & H)]].
  - unfold createBooking in H.
    destruct (prepare localeCompare w req) as [res w1 | a r c w1] eqn:Ep.
    + injection H as -> ->. apply (TransactionFacts.prepare_throw _ _ _ Ep).
    + apply TransactionFacts.prepare_selected in Ep. destruct Ep as (Hb & _).
      apply TransactionFacts.commit_throw in H. destruct H as (_ & Hb' & _).
      congruence.
  - apply (TransactionFacts.prepare_throw _ _ _ H).
  - apply TransactionFacts.commit_throw in H. tauto.
Qed.

(** A rejected request in a store that holds a booking. *)
Lemma createBooking_failure_writes_nothing_witness :
  Db.bookings (World.db (snd (createBooking Seed.collate rivalWon straddling)))
  = Db.bookings (World.db rivalWon).
Proof.
  apply (@createBooking_failure_writes_nothing Seed.collate rivalWon
           (snd (createBooking Seed.collate rivalWon straddling))
           straddling outside_service_window).
  left. vm_compute. reflexivity.
Defined.

(** Each of the four conditions is raised by some call. *)
Lemma throws_invalid_input :
  fst (createBooking Seed.collate Seed.world
         (mkRequest "R1" "S1" (Int 4) (Int 50) (Given Seed.day) None Absent Absent))
  = Throw invalid_input.
Proof. reflexivity. Qed.

Lemma throws_not_found :
  fst (createBooking Seed.collate Seed.world unknownVenue) = Throw not_found.
Proof. reflexivity. Qed.

(** A requested window that overlaps a service window without lying inside
    one. *)
Lemma throws_outside_service_window :
  fst (createBooking Seed.collate Seed.world straddling)
  = Throw outside_service_window.
Proof. vm_compute. reflexivity. Qed.

(** The slot was free when the candidate was selected and is taken when
    the critical section starts: the double-check refuses. *)
Lemma throws_no_capacity :
  match prepare Seed.collate Seed.world racer with
  | Selected a restaurant candidate _ =>
      fst (commit rivalWon a restaurant candidate) = Throw no_capacity
  | Returned _ _ => False
  end.
Proof. vm_compute. reflexivity. Qed.

End Failures.

Module Idempotency.

Import Scenarios.

Import BookingService.

Section Collation.
Variable localeCompare : string -> string -> Z.


End Collation.



End Idempotency.

(** * Waitlist replay *)

Module ReplayFacts.



(** The queue a replay goes through: the live entries of the sector and
    date. *)
Lemma loadEntries_In (w : World.t) (sectorId : string) (date : Z)
    (entry : WaitlistEntry.t) :
  In entry (WaitlistReplay.loadEntries w sectorId date) <->
  In entry (JsMap.values (Db.waitlist (World.db w)))
  /\ WaitlistEntry.sectorId entry = sectorId
  /\ WaitlistEntry.date entry = date
  /\ World.now w < WaitlistEntry.expiresAt entry.
Proof.
  unfold WaitlistReplay.loadEntries, Db.getWaitlistEntriesBySectorAndDate.
  rewrite !SortFacts.sort_In, filter_In, !andb_true_iff, String.eqb_eq,
    Z.eqb_eq, Z.gtb_ltb, Z.ltb_lt.
  tauto.
Qed.

(** What a validated request satisfies. *)
Lemma validate_sound (req : BookingService.Request) (a : BookingService.Args) :
  BookingService.validate req = Ok a ->
  BookingService.isBlank (BookingService.a_restaurantId a) = false
  /\ BookingService.isBlank (BookingService.a_sectorId a) = false
  /\ (BookingService.a_partySize a <=? 0) = false
  /\ ((BookingService.a_durationMinutes a <=? 0)
      || negb (Z.rem (BookingService.a_durationMinutes a) 15 =? 0)) = false
  /\ match BookingService.a_windowStart a, BookingService.a_windowEnd a with
     | Some s, Some e => TimeOfDay.leb e s = false
     | _, _ => True
     end.
Proof.
  unfold BookingService.validate. intro H.
  destruct (BookingService.isBlank (BookingService.restaurantId req)) eqn:E1;
    [discriminate H|].
  destruct (BookingService.isBlank (BookingService.sectorId req)) eqn:E2;
    [discriminate H|].
  destruct (BookingService.partySize req) as [ps|]; [|discriminate H].
  destruct (ps <=? 0) eqn:E3; [discriminate H|].
  destruct (BookingService.durationMinutes req) as [d|]; [|discriminate H].
  destruct ((d <=? 0) || negb (Z.rem d 15 =? 0)) eqn:E4; [discriminate H|].
  destruct (BookingService.date req) as [| |day]; try discriminate H.
  destruct (BookingService.isMalformed (BookingService.requestedWindowStart req));
    [discriminate H|].
  destruct (BookingService.isMalformed (BookingService.requestedWindowEnd req));
    [discriminate H|].
  destruct (BookingService.toOption (BookingService.requestedWindowStart req)) as [s|];
    destruct (BookingService.toOption (BookingService.requestedWindowEnd req)) as [e|];
    try (injection H as <-; simpl; auto).
  destruct (TimeOfDay.leb e s) eqn:E5; [discriminate H|].
  injection H as <-. simpl. auto.
Qed.

(** The parameters frozen in a waitlist entry pass validation again and
    denote the same arguments, without idempotency key. *)
Lemma frozen_parameters_valid
    (req : BookingService.Request) (a : BookingService.Args)
    (id : string) (contactInfo : option string) (createdAt expiresAt : Z) :
  BookingService.validate req = Ok a ->
  BookingService.validate
    (WaitlistReplay.requestOfEntry
       (WaitlistEntry.mk id (BookingService.a_restaurantId a)
          (BookingService.a_sectorId a) (BookingService.a_partySize a)
          (BookingService.a_durationMinutes a) (BookingService.a_date a)
          (BookingService.a_windowStart a) (BookingService.a_windowEnd a)
          contactInfo createdAt expiresAt))
  = Ok (BookingService.mkArgs (BookingService.a_restaurantId a)
          (BookingService.a_sectorId a) (BookingService.a_partySize a)
          (BookingService.a_durationMinutes a) (BookingService.a_date a) None
          (BookingService.a_windowStart a) (BookingService.a_windowEnd a)).
Proof.
  intro H. apply validate_sound in H. destruct H as (H1 & H2 & H3 & H4 & H5).
  unfold BookingService.validate, WaitlistReplay.requestOfEntry. simpl.
  rewrite H1, H2, H3, H4.
  destruct (BookingService.a_windowStart a) as [s|];
    destruct (BookingService.a_windowEnd a) as [e|]; simpl; try reflexivity.
  rewrite H5. reflexivity.
Qed.

Section Replay.
Variable book : World.t -> BookingService.Request -> Result Booking.t * World.t.



End Replay.

End ReplayFacts.

Module Replay.


(** Cancelling a booking deletes it and replays the waitlist of its sector
    for the date prefix of its start, with [createBooking] as transaction. *)
Lemma cancel_triggers_replay
    (localeCompare : string -> string -> Z)
    (w : World.t) (bookingId : string) (booking : Booking.t) :
  Db.getBooking (World.db w) bookingId = Some booking ->
  Routes.deleteBookingRoute localeCompare w bookingId
  = (Routes.Empty 204,
     snd (WaitlistReplay.tryPromoteWaitlistWith
            (BookingService.createBooking localeCompare)
            (World.with_db w (Db.deleteBooking (World.db w) bookingId))
            (Booking.sectorId booking) (Db.utcDay (Booking.start booking)))).
Proof.
  intro H. unfold Routes.deleteBookingRoute, WaitlistReplay.tryPromoteWaitlist.
  rewrite H. destruct (WaitlistReplay.tryPromoteWaitlistWith _ _ _ _). reflexivity.
Qed.

(** The promotion scenario of section 8: the queued party gets the table
    once the booking that held it is cancelled, and leaves the queue. *)
Lemma waitlist_promotion_scenario :
  Scenarios.stored Scenarios.queuedParty
  = [ ("BK_A"%string, ["T4"%string], Seed.at_ 20 0, Seed.at_ 23 45, CONFIRMED);
      ("BK_B"%string, [], Seed.at_ 20 0, Seed.at_ 21 30, PENDING) ]
  /\ Scenarios.queue Scenarios.queuedParty = ["WL_B"%string]
  /\ Scenarios.stored Scenarios.afterCancel
     = [ ("BK_B"%string, [], Seed.at_ 20 0, Seed.at_ 21 30, PENDING);
         ("BK_C"%string, ["T4"%string], Seed.at_ 20 0, Seed.at_ 21 30, CONFIRMED) ]
  /\ Scenarios.queue Scenarios.afterCancel = [].
Proof. vm_compute. repeat split; reflexivity. Qed.

End Replay.

(** * Double booking *)

Module DoubleBooking.

Import Scenarios.

Import BookingService.

Lemma pairwiseFree_spec (bs : list Booking.t) :
  Spec.pairwiseFree bs = true <->
  forall i j a b,
    (i < j)%nat -> nth_error bs i = Some a -> nth_error bs j = Some b ->
    Spec.clash a b = false.
Proof.
  induction bs as [|x bs IH]; simpl.
  - split; [|reflexivity]. intros _ i j a b _ H. destruct i; discriminate H.
  - rewrite andb_true_iff, forallb_forall, IH. split.
    + intros [Hx Hrest] i j a b Hij Ha Hb.
      destruct j as [|j]; [lia|]. simpl in Hb.
      destruct i as [|i]; simpl in Ha.
      * injection Ha as <-. apply nth_error_In in Hb.
        specialize (Hx b Hb). destruct (Spec.clash x b); [discriminate | reflexivity].
      * apply (Hrest i j a b); [lia | assumption | assumption].
    + intro H. split.
      * intros b Hb. apply In_nth_error in Hb. destruct Hb as [j Hj].
        rewrite (H O (S j) x b); [reflexivity | lia | reflexivity | exact Hj].
      * intros i j a b Hij Ha Hb. apply (H (S i) (S j) a b); [lia | exact Ha | exact Hb].
Qed.

Lemma clash_false (a b : Booking.t) :
  Spec.clash a b = false <->
  (Booking.status a = CONFIRMED -> Booking.status b = CONFIRMED ->
   forall table, In table (Booking.tableIds a) -> In table (Booking.tableIds b) ->
                 ~ (Booking.start a < Booking.end_ b /\ Booking.start b < Booking.end_ a)).
Proof.
  unfold Spec.clash, Spec.shareTable, Spec.overlaps.
  rewrite <- not_true_iff_false, !andb_true_iff, !existsb_exists.
  rewrite Z.gtb_ltb, !Z.ltb_lt.
  split.
  - intros H Ha Hb table Hta Htb Hov. apply H. repeat split; try tauto.
    + rewrite Ha. reflexivity.
    + rewrite Hb. reflexivity.
    + exists table. split; [exact Hta|]. apply existsb_exists.
      exists table. split; [exact Htb | apply String.eqb_refl].
  - intros H (((Ha & Hb) & (table & Hta & Hex)) & (Hs & He)).
    apply existsb_exists in Hex. destruct Hex as (t' & Htb & Heq).
    apply String.eqb_eq in Heq. subst t'.
    destruct (Booking.status a); try discriminate Ha.
    destruct (Booking.status b); try discriminate Hb.
    apply (H eq_refl eq_refl table Hta Htb). lia.
Qed.

(** The executable invariant decides the stated one. *)
Lemma noDoubleBooking_spec (db : Db.t) :
  Spec.noDoubleBooking db = true <-> Spec.NoDoubleBooking db.
Proof.
  unfold Spec.noDoubleBooking, Spec.NoDoubleBooking. rewrite pairwiseFree_spec.
  split.
  - intros H i j a b Hij Ha Hb Hsa Hsb table Hta Htb.
    destruct (Nat.lt_total i j) as [Hlt|[Heq|Hgt]]; [|contradiction|].
    + apply (proj1 (clash_false a b) (H i j a b Hlt Ha Hb) Hsa Hsb table Hta Htb).
    + intro Hov.
      apply (proj1 (clash_false b a) (H j i b a Hgt Hb Ha) Hsb Hsa table Htb Hta).
      tauto.
  - intros H i j a b Hij Ha Hb. apply clash_false.
    intros Hsa Hsb table Hta Htb.
    apply (H i j a b ltac:(lia) Ha Hb Hsa Hsb table Hta Htb).
Qed.

(** C1, the failing runs.  From the seed store, two bookings and an
    approval leave T2 confirmed twice for 20:00 to 21:30: the approval
    confirms the waiting booking without looking at what was confirmed in
    between.  And three bookings alone leave T1 confirmed twice for 21:30
    to 22:30: a booking that starts at 21:30 local time starts on the next
    UTC day, the date filter of the store hides it, and the same slot is
    given out again. *)
Theorem double_booking_reached :
  (Spec.noDoubleBooking (World.db smallGroup) = true
   /\ stored smallGroup
      = [ ("BK_A"%string, ["T1"; "T2"; "T3"]%string, Seed.at_ 20 0, Seed.at_ 21 30, PENDING);
          ("BK_B"%string, ["T2"%string], Seed.at_ 20 0, Seed.at_ 21 30, CONFIRMED) ]
   /\ stored approved
      = [ ("BK_A"%string, ["T1"; "T2"; "T3"]%string, Seed.at_ 20 0, Seed.at_ 21 30, CONFIRMED);
          ("BK_B"%string, ["T2"%string], Seed.at_ 20 0, Seed.at_ 21 30, CONFIRMED) ]
   /\ Spec.noDoubleBooking (World.db approved) = false)
  /\ (Spec.noDoubleBooking (World.db late1) = true
      /\ stored late2
         = [ ("BK_A"%string, ["T1"%string], Seed.at_ 20 0, Seed.at_ 21 30, CONFIRMED);
             ("BK_B"%string, ["T1"%string], Seed.at_ 21 30, Seed.at_ 22 30, CONFIRMED);
             ("BK_C"%string, ["T1"%string], Seed.at_ 21 30, Seed.at_ 22 30, CONFIRMED) ]
      /\ Spec.noDoubleBooking (World.db late2) = false).
Proof. vm_compute. repeat split; reflexivity. Qed.

(** Removing a booking, as rejection and cancellation do, keeps the
    invariant. *)
Lemma pairwiseFree_delete (m : JsMap.t Booking.t) (id : string) :
  Spec.pairwiseFree (JsMap.values m) = true ->
  Spec.pairwiseFree (JsMap.values (JsMap.delete m id)) = true.
Proof.
  induction m as [|[k b] m IH]; simpl; [reflexivity|].
  rewrite andb_true_iff. intros [Hb Hm].
  destruct (String.eqb k id); [apply IH, Hm|].
  simpl. rewrite andb_true_iff. split; [|apply IH, Hm].
  rewrite forallb_forall in *. intros x Hx. apply Hb.
  clear - Hx. induction m as [|[k' b'] m IH]; simpl in *; [contradiction|].
  destruct (String.eqb k' id); [right; apply IH, Hx|].
  destruct Hx as [<-|Hx]; [left; reflexivity | right; apply IH, Hx].
Qed.





Lemma deleteBooking_keeps_invariant (db : Db.t) (id : string) :
  Spec.noDoubleBooking db = true ->
  Spec.noDoubleBooking (Db.deleteBooking db id) = true.
Proof. apply pairwiseFree_delete. Qed.

Lemma reject_keeps_invariant (w : World.t) (id : string) :
  Spec.noDoubleBooking (World.db w) = true ->
  Spec.noDoubleBooking (World.db (snd (Routes.reject w id))) = true.
Proof.
  intro H. unfold Routes.reject.
  destruct (Db.getBooking (World.db w) id); [|exact H].
  destruct (negb _); [exact H|]. simpl. apply deleteBooking_keeps_invariant, H.
Qed.

End DoubleBooking.

(** * Requests outside the service hours *)

Module ServiceHours.

Import Scenarios.

Import BookingService.

Section Collation.
Variable localeCompare : string -> string -> Z.

(** No service window meets the requested one: no candidate. *)
Lemma findCandidates_closed
    (db : Db.t) (sectorId : string) (date partySize durationMinutes : Z)
    (serviceWindows : list ServiceWindow.t) (tz : TimeZone)
    (s e : TimeOfDay.t) (limit : nat) :
  (forall window, In window serviceWindows ->
     ~ (Gaps.toZonedIso date s tz < Gaps.toZonedIso date (ServiceWindow.end_ window) tz
        /\ Gaps.toZonedIso date (ServiceWindow.start window) tz < Gaps.toZonedIso date e tz)) ->
  Wokibrain.findCandidates localeCompare db sectorId date partySize durationMinutes
    serviceWindows tz (Some s) (Some e) limit = [].
Proof.
  intro Hclosed. unfold Wokibrain.findCandidates.
  destruct (Db.getTablesBySector db sectorId); [reflexivity|].
  match goal with
  | |- context [filter ?f serviceWindows] =>
      assert (Hf : filter f serviceWindows = [])
  end.
  { induction serviceWindows as [|w0 ws IH]; simpl; [reflexivity|].
    pose proof (Hclosed w0 (or_introl eq_refl)) as H0.
    match goal with
    | |- (if ?c then _ else _) = _ => destruct c eqn:E
    end.
    - exfalso. apply H0. apply andb_prop in E. destruct E as [E1 E2].
      apply Z.ltb_lt in E1. rewrite Z.gtb_ltb in E2. apply Z.ltb_lt in E2. lia.
    - apply IH. intros w Hw. apply Hclosed. right. exact Hw. }
  rewrite Hf. reflexivity.
Qed.

(** Whatever the store, a valid request for an existing venue and sector
    whose window meets no service window is not rejected: it is queued and
    answered with a PENDING placeholder without tables. *)
Lemma closed_hours_request_is_queued
    (w : World.t) (req : Request) (a : Args)
    (restaurant : Restaurant.t) (sector : Sector.t) (s e : TimeOfDay.t) :
  validate req = Ok a ->
  a_idempotencyKey a = None ->
  Db.getRestaurant (World.db w) (a_restaurantId a) = Some restaurant ->
  Db.getSector (World.db w) (a_sectorId a) = Some sector ->
  Sector.restaurantId sector = a_restaurantId a ->
  a_windowStart a = Some s -> a_windowEnd a = Some e ->
  (forall window, In window (windowsOrEmpty restaurant) ->
     ~ (Gaps.toZonedIso (a_date a) s (Restaurant.timezone restaurant)
        < Gaps.toZonedIso (a_date a) (ServiceWindow.end_ window) (Restaurant.timezone restaurant)
        /\ Gaps.toZonedIso (a_date a) (ServiceWindow.start window) (Restaurant.timezone restaurant)
           < Gaps.toZonedIso (a_date a) e (Restaurant.timezone restaurant))) ->
  exists booking w',
    createBooking localeCompare w req = (Ok booking, w')
    /\ Booking.status booking = PENDING
    /\ Booking.tableIds booking = []
    /\ JsMap.get (Db.bookings (World.db w')) (Booking.id booking) = Some booking.
Proof.
  intros Hv Hkey Hr Hs Hown Hws Hwe Hclosed.
  unfold createBooking, prepare. rewrite Hv, Hkey. simpl.
  rewrite StoreFacts.with_db_same || idtac.
  rewrite Hr, Hs, Hown, String.eqb_refl. simpl.
  unfold Wokibrain.selectBestCandidate. rewrite Hws, Hwe.
  rewrite (@findCandidates_closed _ _ _ _ _ _ _ _ _ _ Hclosed).
  unfold enqueue, Waitlist.addToWaitlist, World.fresh. simpl.
  eexists. eexists. split; [reflexivity|]. simpl.
  repeat split. apply StoreFacts.get_set_same.
Qed.

End Collation.

(** C2, the failing call.  The venue is open 12:00 to 16:00 and 20:00 to
    23:45; a table is asked for between 17:00 and 19:00.  Called directly,
    [createBooking] does not throw: it queues the request and returns a
    PENDING placeholder.  The HTTP handler refuses the same request with
    [outside_service_window] before it reaches [createBooking]. *)
Theorem closed_hours_request_accepted :
  Routes.assertWindowWithinService Seed.day Seed.BuenosAires
    (Some (Seed.hm 17 0)) (Some (Seed.hm 19 0)) (Some Seed.windows)
  = Throw outside_service_window
  /\ fst (createBooking Seed.collate Seed.world closedHours)
     = Ok (Booking.mk "BK_A" "R1" "S1" [] 5 (Seed.at_ 17 0) (Seed.at_ 18 30) 90
             PENDING (World.now Seed.world) (World.now Seed.world))
  /\ map WaitlistEntry.id
       (JsMap.values
          (Db.waitlist (World.db (snd (createBooking Seed.collate Seed.world closedHours)))))
     = ["WL_A"%string]
  /\ fst (Routes.postBookings Seed.collate Seed.world
            (Routes.mkBody "R1" "S1" 5 (Some 90) Seed.day
               (Some (Seed.hm 17 0)) (Some (Seed.hm 19 0))) None)
     = Routes.Next outside_service_window.
Proof. vm_compute. repeat split; reflexivity. Qed.

End ServiceHours.

(** * The Interval Engine *)

Module IntervalFacts.

Import Spec.

Lemma covers_single (s e t : Z) : covers [Gap.mk s e] t <-> s <= t < e.
Proof.
  rewrite IntersectFacts.covers_cons. simpl.
  split; [intros [H|H]; [exact H | destruct (IntersectFacts.covers_nil H)] | auto].
Qed.

Lemma covers_one (g : Gap.t) (t : Z) :
  covers [g] t <-> Gap.start g <= t < Gap.end_ g.
Proof. destruct g. apply covers_single. Qed.

Lemma covers_flat_map (A : Type) (f : A -> list Gap.t) (l : list A) (t : Z) :
  covers (flat_map f l) t <-> exists x, In x l /\ covers (f x) t.
Proof.
  unfold covers. split.
  - intros (g & Hg & Ht). apply in_flat_map in Hg. destruct Hg as (x & Hx & Hg).
    exists x. split; [exact Hx|]. exists g. auto.
  - intros (x & Hx & g & Hg & Ht). exists g. split; [|exact Ht].
    apply in_flat_map. exists x. auto.
Qed.

(** The sweep over bookings sorted by start leaves exactly the instants of
    the window, from the watermark on, that no booking contains. *)
Lemma sweep_covers (bs : list Booking.t) :
  forall cur winEnd t,
    StronglySorted (fun a b => Booking.start a <= Booking.start b) bs ->
    Forall (fun b => Booking.start b < winEnd) bs ->
    (covers (Gaps.sweep cur bs winEnd) t <->
     cur <= t < winEnd
     /\ forall b, In b bs -> ~ (Booking.start b <= t < Booking.end_ b)).
Proof.
  induction bs as [|b bs IH]; intros cur winEnd t Hs Hw; cbn [Gaps.sweep].
  - destruct (cur <? winEnd) eqn:E; [apply Z.ltb_lt in E | apply Z.ltb_ge in E].
    + rewrite covers_single. intuition.
    + split; [intro H; destruct (IntersectFacts.covers_nil H) | lia].
  - inversion Hs as [|? ? Hs' Hall]; subst. inversion Hw as [|? ? Hb Hw']; subst.
    rewrite Forall_forall in Hall.
    rewrite IntersectFacts.covers_app, (IH _ winEnd t Hs' Hw').
    assert (Hcur : (if Booking.end_ b >? cur then (Booking.end_ b : Z) else cur)
                   = Z.max cur (Booking.end_ b)).
    { rewrite Z.gtb_ltb. destruct (cur <? Booking.end_ b) eqn:E;
        [apply Z.ltb_lt in E | apply Z.ltb_ge in E]; lia. }
    rewrite Hcur.
    destruct (cur <? Booking.start b) eqn:E;
      [apply Z.ltb_lt in E; rewrite covers_single | apply Z.ltb_ge in E].
    + split.
      * intros [H | [H1 H2]].
        -- split; [lia|]. intros b' [<-|Hb']; [lia|]. specialize (Hall b' Hb'). lia.
        -- split; [lia|]. intros b' [<-|Hb']; [lia | apply H2, Hb'].
      * intros [H1 H2].
        destruct (Z_lt_le_dec t (Booking.start b)); [left; lia|].
        right. pose proof (H2 b (or_introl eq_refl)).
        split; [lia|]. intros b' Hb'. apply H2. right. exact Hb'.
    + split.
      * intros [H | [H1 H2]]; [destruct (IntersectFacts.covers_nil H)|].
        split; [lia|]. intros b' [<-|Hb']; [lia | apply H2, Hb'].
      * intros [H1 H2]. right. pose proof (H2 b (or_introl eq_refl)).
        split; [lia|]. intros b' Hb'. apply H2. right. exact Hb'.
Qed.

Lemma sort_byStartTs (l : list Booking.t) :
  StronglySorted (fun a b => Booking.start a <= Booking.start b)
    (JsArray.sort Gaps.byStartTs l).
Proof.
  eapply SortFacts.StronglySorted_impl.
  2:{ apply SortFacts.sort_sorted; unfold Gaps.byStartTs; intros; lia. }
  intros a b. unfold JsArray.le, Gaps.byStartTs. lia.
Qed.

(** The gaps of a window: the instants of the window inside no booking. *)
Lemma findGapsInWindow_covers (bookings : list Booking.t) (ws we t : Z) :
  covers (Gaps.findGapsInWindow bookings ws we) t <->
  ws <= t < we
  /\ forall b, In b bookings -> ~ (Booking.start b <= t < Booking.end_ b).
Proof.
  unfold Gaps.findGapsInWindow. rewrite sweep_covers.
  - split; intros [Hw Hb]; (split; [exact Hw|]); intros b Hin.
    + destruct ((Booking.start b <? we) && (Booking.end_ b >? ws)) eqn:E.
      * apply Hb, SortFacts.sort_In, filter_In. auto.
      * apply andb_false_iff in E. rewrite Z.gtb_ltb in E.
        destruct E as [E|E]; apply Z.ltb_ge in E; lia.
    + apply SortFacts.sort_In, filter_In in Hin. apply Hb, Hin.
  - apply sort_byStartTs.
  - apply SortFacts.sort_Forall, Forall_forall. intros b Hin.
    apply filter_In in Hin. destruct Hin as [_ Hin].
    apply andb_prop in Hin. destruct Hin as [Hin _]. apply Z.ltb_lt, Hin.
Qed.

(** The split of a gap around blackouts sorted by start. *)
Lemma splitAround_covers (bl : list Blackout.t) :
  forall cur gapEnd t,
    StronglySorted (fun a b => Blackout.start a <= Blackout.start b) bl ->
    Forall (fun b => Blackout.start b < gapEnd) bl ->
    (covers (Blackouts.splitAround cur bl gapEnd) t <->
     cur <= t < gapEnd
     /\ forall b, In b bl -> ~ (Blackout.start b <= t < Blackout.end_ b)).
Proof.
  induction bl as [|b bl IH]; intros cur gapEnd t Hs Hw; simpl.
  - destruct (cur <? gapEnd) eqn:E; [apply Z.ltb_lt in E | apply Z.ltb_ge in E].
    + rewrite covers_single. intuition.
    + split; [intro H; destruct (IntersectFacts.covers_nil H) | lia].
  - inversion Hs as [|? ? Hs' Hall]; subst. inversion Hw as [|? ? Hb Hw']; subst.
    rewrite Forall_forall in Hall.
    rewrite IntersectFacts.covers_app, (IH _ gapEnd t Hs' Hw').
    destruct (cur <? Blackout.start b) eqn:E;
      [apply Z.ltb_lt in E; rewrite covers_single | apply Z.ltb_ge in E].
    + split.
      * intros [H | [H1 H2]].
        -- split; [lia|]. intros b' [<-|Hb']; [lia|]. specialize (Hall b' Hb'). lia.
        -- split; [lia|]. intros b' [<-|Hb']; [lia | apply H2, Hb'].
      * intros [H1 H2].
        destruct (Z_lt_le_dec t (Blackout.start b)); [left; lia|].
        right. pose proof (H2 b (or_introl eq_refl)).
        split; [lia|]. intros b' Hb'. apply H2. right. exact Hb'.
    + split.
      * intros [H | [H1 H2]]; [destruct (IntersectFacts.covers_nil H)|].
        split; [lia|]. intros b' [<-|Hb']; [lia | apply H2, Hb'].
      * intros [H1 H2]. right. pose proof (H2 b (or_introl eq_refl)).
        split; [lia|]. intros b' Hb'. apply H2. right. exact Hb'.
Qed.

Lemma sort_blackouts (l : list Blackout.t) :
  StronglySorted (fun a b => Blackout.start a <= Blackout.start b)
    (JsArray.sort Blackouts.byStart l).
Proof.
  eapply SortFacts.StronglySorted_impl.
  2:{ apply SortFacts.sort_sorted; unfold Blackouts.byStart; intros; lia. }
  intros a b. unfold JsArray.le, Blackouts.byStart. lia.
Qed.

(** Subtracting the blackouts of the tables removes exactly the instants
    inside one of them. *)
Lemma filterGapsByBlackouts_covers
    (db : Db.t) (gaps : list Gap.t) (tableIds : list string) (t : Z) :
  covers (Blackouts.filterGapsByBlackouts db gaps tableIds) t <->
  covers gaps t
  /\ forall b, In b (Db.getBlackoutsByTables db tableIds) ->
               ~ (Blackout.start b <= t < Blackout.end_ b).
Proof.
  unfold Blackouts.filterGapsByBlackouts.
  destruct (Db.getBlackoutsByTables db tableIds) as [|b0 bl] eqn:Eb.
  - split; [intro H; split; [exact H | intros b []] | tauto].
  - rewrite covers_flat_map. unfold covers at 2.
    assert (Hgap : forall g,
      covers
        (match filter (fun blackout =>
                         (Blackout.start blackout <? Gap.end_ g)
                         && (Blackout.end_ blackout >? Gap.start g)) (b0 :: bl) with
         | [] => [g]
         | _ :: _ =>
             Blackouts.splitAround (Gap.start g)
               (JsArray.sort Blackouts.byStart
                  (filter (fun blackout =>
                             (Blackout.start blackout <? Gap.end_ g)
                             && (Blackout.end_ blackout >? Gap.start g)) (b0 :: bl)))
               (Gap.end_ g)
         end) t
      <-> Gap.start g <= t < Gap.end_ g
          /\ forall b, In b (b0 :: bl) -> ~ (Blackout.start b <= t < Blackout.end_ b)).
    { intro g.
      set (f := fun blackout : Blackout.t =>
                  (Blackout.start blackout <? Gap.end_ g)
                  && (Blackout.end_ blackout >? Gap.start g)).
      assert (Hf : forall b, f b = true
                    <-> Blackout.start b < Gap.end_ g /\ Gap.start g < Blackout.end_ b).
      { intro b. unfold f. rewrite andb_true_iff, Z.gtb_ltb, !Z.ltb_lt. tauto. }
      assert (Hsplit :
        covers (Blackouts.splitAround (Gap.start g)
                  (JsArray.sort Blackouts.byStart (filter f (b0 :: bl))) (Gap.end_ g)) t
        <-> Gap.start g <= t < Gap.end_ g
            /\ forall b, In b (b0 :: bl) -> ~ (Blackout.start b <= t < Blackout.end_ b)).
      { rewrite splitAround_covers.
        - split; intros [Hw Hb]; (split; [exact Hw|]); intros b Hin.
          + destruct (f b) eqn:E.
            * apply Hb, SortFacts.sort_In, filter_In. auto.
            * assert (~ (Blackout.start b < Gap.end_ g /\ Gap.start g < Blackout.end_ b))
                by (rewrite <- Hf; congruence).
              lia.
          + apply SortFacts.sort_In, filter_In in Hin. apply Hb, Hin.
        - apply sort_blackouts.
        - apply SortFacts.sort_Forall, Forall_forall. intros b Hin.
          apply filter_In in Hin. destruct Hin as [_ Hin]. apply Hf in Hin. tauto. }
      destruct (filter f (b0 :: bl)) as [|o os] eqn:Ef; [|exact Hsplit].
      rewrite covers_one.
      split; [|tauto]. intro Hw. split; [exact Hw|]. intros b Hin Hb.
      assert (Hin' : In b (filter f (b0 :: bl)))
        by (apply filter_In; split; [exact Hin | apply Hf; lia]).
      rewrite Ef in Hin'. destruct Hin'. }
    split.
    + intros (g & Hg & Hc). apply Hgap in Hc. destruct Hc as [Hw Hb].
      split; [exists g; auto | exact Hb].
    + intros [(g & Hg & Hw) Hb]. exists g. split; [exact Hg|].
      apply Hgap. auto.
Qed.

(** With service windows configured, [findTableGaps] covers exactly the
    instants of some window that lie in no confirmed booking the store
    reports for the table and date, and in no blackout of the table. *)
Lemma findTableGaps_windows_covers
    (db : Db.t) (tableId : string) (date : Z)
    (w0 : ServiceWindow.t) (ws : list ServiceWindow.t) (tz : TimeZone) (t : Z) :
  covers (Gaps.findTableGaps db tableId date (w0 :: ws) tz) t <->
  (exists window, In window (w0 :: ws)
     /\ Gaps.toZonedIso date (ServiceWindow.start window) tz <= t
        < Gaps.toZonedIso date (ServiceWindow.end_ window) tz)
  /\ (forall b, In b (Db.getBookingsByTablesAndDate db [tableId] date) ->
                ~ (Booking.start b <= t < Booking.end_ b))
  /\ (forall b, In b (Db.getBlackoutsByTables db [tableId]) ->
                ~ (Blackout.start b <= t < Blackout.end_ b)).
Proof.
  unfold Gaps.findTableGaps.
  rewrite filterGapsByBlackouts_covers, covers_flat_map.
  split.
  - intros [(window & Hin & Hc) Hbl]. apply findGapsInWindow_covers in Hc.
    destruct Hc as [Hw Hb]. split; [exists window; auto | auto].
  - intros [(window & Hin & Hw) [Hb Hbl]]. split; [|exact Hbl].
    exists window. split; [exact Hin|]. apply findGapsInWindow_covers. auto.
Qed.


Lemma chronological_cons (g : Gap.t) (l : list Gap.t) :
  chronological (g :: l) <->
  Forall (fun g' => Gap.end_ g <= Gap.start g') l /\ chronological l.
Proof.
  unfold chronological. split.
  - intro H. inversion H; subst. auto.
  - intros [H1 H2]. constructor; assumption.
Qed.

Lemma chronological_app (l1 l2 : list Gap.t) :
  chronological l1 -> chronological l2 ->
  (forall g1 g2, In g1 l1 -> In g2 l2 -> Gap.end_ g1 <= Gap.start g2) ->
  chronological (l1 ++ l2).
Proof.
  induction l1 as [|g l1 IH]; simpl; intros H1 H2 H12; [exact H2|].
  apply chronological_cons in H1. destruct H1 as [Hg Hl1].
  apply chronological_cons. split.
  - apply Forall_app. split; [exact Hg|].
    apply Forall_forall. intros g2 Hg2. apply H12; simpl; auto.
  - apply IH; [exact Hl1 | exact H2|]. intros g1 g2 Hg1 Hg2. apply H12; simpl; auto.
Qed.

(** The gaps of a sweep over well-formed bookings come one after the
    other, each non-empty and inside the window. *)
Lemma sweep_chronological (bs : list Booking.t) :
  forall cur winEnd,
    StronglySorted (fun a b => Booking.start a <= Booking.start b) bs ->
    Forall (fun b => Booking.start b < winEnd) bs ->
    Forall (fun b => Booking.start b <= Booking.end_ b) bs ->
    chronological (Gaps.sweep cur bs winEnd)
    /\ Forall (fun g => cur <= Gap.start g /\ Gap.start g < Gap.end_ g
                         /\ Gap.end_ g <= winEnd)
              (Gaps.sweep cur bs winEnd).
Proof.
  induction bs as [|b bs IH]; intros cur winEnd Hs Hw Hwf; cbn [Gaps.sweep].
  - destruct (cur <? winEnd) eqn:E; [apply Z.ltb_lt in E|].
    + split; [repeat constructor|]. repeat constructor; simpl; lia.
    + split; constructor.
  - inversion Hs as [|? ? Hs' _]; subst. inversion Hw as [|? ? Hb Hw']; subst.
    inversion Hwf as [|? ? Hbwf Hwf']; subst.
    destruct (IH (if Booking.end_ b >? cur then (Booking.end_ b : Z) else cur)
                winEnd Hs' Hw' Hwf') as [Hc Hin].
    assert (Hcur : cur <= (if Booking.end_ b >? cur then (Booking.end_ b : Z) else cur)
                   /\ Booking.end_ b
                      <= (if Booking.end_ b >? cur then (Booking.end_ b : Z) else cur)).
    { rewrite Z.gtb_ltb. destruct (cur <? Booking.end_ b) eqn:E;
        [apply Z.ltb_lt in E | apply Z.ltb_ge in E]; lia. }
    rewrite Forall_forall in Hin.
    destruct (cur <? Booking.start b) eqn:E; [apply Z.ltb_lt in E|]; simpl.
    + split.
      * apply chronological_cons. split; [|exact Hc].
        apply Forall_forall. intros g Hg. specialize (Hin g Hg). simpl. lia.
      * constructor; [simpl; lia|].
        apply Forall_forall. intros g Hg. specialize (Hin g Hg). lia.
    + split; [exact Hc|].
      apply Forall_forall. intros g Hg. specialize (Hin g Hg). lia.
Qed.

Lemma splitAround_chronological (bl : list Blackout.t) :
  forall cur gapEnd,
    StronglySorted (fun a b => Blackout.start a <= Blackout.start b) bl ->
    Forall (fun b => Blackout.start b < gapEnd) bl ->
    Forall (fun b => Blackout.start b <= Blackout.end_ b) bl ->
    chronological (Blackouts.splitAround cur bl gapEnd)
    /\ Forall (fun g => cur <= Gap.start g /\ Gap.start g < Gap.end_ g
                         /\ Gap.end_ g <= gapEnd)
              (Blackouts.splitAround cur bl gapEnd).
Proof.
  induction bl as [|b bl IH]; intros cur gapEnd Hs Hw Hwf; cbn [Blackouts.splitAround].
  - destruct (cur <? gapEnd) eqn:E; [apply Z.ltb_lt in E|].
    + split; [repeat constructor|]. repeat constructor; simpl; lia.
    + split; constructor.
  - inversion Hs as [|? ? Hs' _]; subst. inversion Hw as [|? ? Hb Hw']; subst.
    inversion Hwf as [|? ? Hbwf Hwf']; subst.
    destruct (IH (Z.max cur (Blackout.end_ b)) gapEnd Hs' Hw' Hwf') as [Hc Hin].
    rewrite Forall_forall in Hin. cbv zeta.
    destruct (cur <? Blackout.start b) eqn:E; [apply Z.ltb_lt in E|]; simpl.
    + split.
      * apply chronological_cons. split; [|exact Hc].
        apply Forall_forall. intros g Hg. specialize (Hin g Hg). simpl. lia.
      * constructor; [simpl; lia|].
        apply Forall_forall. intros g Hg. specialize (Hin g Hg). lia.
    + split; [exact Hc|].
      apply Forall_forall. intros g Hg. specialize (Hin g Hg). lia.
Qed.

(** Pieces cut from intervals that follow one another follow one another. *)
Lemma flat_map_chronological (A : Type) (lo hi : A -> Z) (f : A -> list Gap.t)
    (l : list A) :
  StronglySorted (fun x y => hi x <= lo y) l ->
  (forall x, In x l ->
     chronological (f x)
     /\ Forall (fun g => lo x <= Gap.start g /\ Gap.end_ g <= hi x) (f x)) ->
  chronological (flat_map f l).
Proof.
  induction l as [|x l IH]; simpl; intros Hs Hf; [constructor|].
  inversion Hs as [|? ? Hs' Hx]; subst. rewrite Forall_forall in Hx.
  destruct (Hf x (or_introl eq_refl)) as [Hcx Hbx]. rewrite Forall_forall in Hbx.
  apply chronological_app; [exact Hcx | apply IH; auto |].
  intros g1 g2 Hg1 Hg2. apply in_flat_map in Hg2. destruct Hg2 as (y & Hy & Hg2).
  destruct (Hf y (or_intror Hy)) as [_ Hby]. rewrite Forall_forall in Hby.
  specialize (Hbx g1 Hg1). specialize (Hby g2 Hg2). specialize (Hx y Hy). lia.
Qed.

Lemma findGapsInWindow_chronological (bookings : list Booking.t) (ws we : Z) :
  Forall (fun b => Booking.start b <= Booking.end_ b) bookings ->
  chronological (Gaps.findGapsInWindow bookings ws we)
  /\ Forall (fun g => ws <= Gap.start g /\ Gap.start g < Gap.end_ g
                       /\ Gap.end_ g <= we)
            (Gaps.findGapsInWindow bookings ws we).
Proof.
  intro Hwf. unfold Gaps.findGapsInWindow. apply sweep_chronological.
  - apply sort_byStartTs.
  - apply SortFacts.sort_Forall, Forall_forall. intros b Hin.
    apply filter_In in Hin. destruct Hin as [_ Hin].
    apply andb_prop in Hin. destruct Hin as [Hin _]. apply Z.ltb_lt, Hin.
  - apply SortFacts.sort_Forall, Forall_forall. intros b Hin.
    apply filter_In in Hin. destruct Hin as [Hin _].
    rewrite Forall_forall in Hwf. apply Hwf, Hin.
Qed.

Lemma filterGapsByBlackouts_chronological
    (db : Db.t) (gaps : list Gap.t) (tableIds : list string) :
  Forall (fun b => Blackout.start b <= Blackout.end_ b) (JsMap.values (Db.blackouts db)) ->
  Forall (fun g => Gap.start g <= Gap.end_ g) gaps ->
  chronological gaps ->
  chronological (Blackouts.filterGapsByBlackouts db gaps tableIds).
Proof.
  intros Hwf Hg Hc. unfold Blackouts.filterGapsByBlackouts.
  assert (Hsel : Forall (fun b => Blackout.start b <= Blackout.end_ b)
                   (Db.getBlackoutsByTables db tableIds)).
  { unfold Db.getBlackoutsByTables. rewrite Forall_forall in *.
    intros b Hin. apply filter_In in Hin. apply Hwf, Hin. }
  destruct (Db.getBlackoutsByTables db tableIds) as [|b0 bl]; [exact Hc|].
  apply (flat_map_chronological Gap.start Gap.end_); [exact Hc|].
  intros g Hin. rewrite Forall_forall in Hg. specialize (Hg g Hin).
  set (f := fun blackout : Blackout.t =>
              (Blackout.start blackout <? Gap.end_ g)
              && (Blackout.end_ blackout >? Gap.start g)).
  destruct (filter f (b0 :: bl)) as [|o os] eqn:Ef.
  - split; repeat constructor; lia.
  - rewrite <- Ef.
    destruct (@splitAround_chronological
                (JsArray.sort Blackouts.byStart (filter f (b0 :: bl)))
                (Gap.start g) (Gap.end_ g)) as [H1 H2].
    + apply sort_blackouts.
    + apply SortFacts.sort_Forall, Forall_forall. intros b Hb.
      apply filter_In in Hb. destruct Hb as [_ Hb]. unfold f in Hb.
      apply andb_prop in Hb. destruct Hb as [Hb _]. apply Z.ltb_lt, Hb.
    + apply SortFacts.sort_Forall, Forall_forall. intros b Hb.
      apply filter_In in Hb. destruct Hb as [Hb _].
      rewrite Forall_forall in Hsel. apply Hsel, Hb.
    + split; [exact H1|]. rewrite Forall_forall in *.
      intros g' Hg'. specialize (H2 g' Hg'). lia.
Qed.


(** C3, the failing input.  Table T4 is blacked out from 20:00 to 22:00.
    In a venue with the evening window the engine returns the one gap from
    22:00 to 23:45.  In a venue without service windows it returns the day
    from 00:00 to 23:59 in one piece, 21:00 included, and a candidate from
    20:00 to 21:30 is offered on the blacked-out table. *)
Theorem blackout_ignored_without_windows :
  Gaps.findTableGaps Seed.eveningDb "T4" Seed.day
    [ServiceWindow.mk (Seed.hm 20 0) (Seed.hm 23 45)] Seed.BuenosAires
  = [Gap.mk (Seed.at_ 22 0) (Seed.at_ 23 45)]
  /\ Gaps.findTableGaps Seed.alwaysOpenDb "T4" Seed.day [] Seed.BuenosAires
     = [Gap.mk (Seed.at_ 0 0) (Seed.at_ 23 59)]
  /\ Blackouts.hasBlackout Seed.alwaysOpenDb ["T4"%string] (Seed.at_ 21 0) (Seed.at_ 21 15)
     = true
  /\ Spec.covers
       (Gaps.findTableGaps Seed.alwaysOpenDb "T4" Seed.day [] Seed.BuenosAires)
       (Seed.at_ 21 0)
  /\ In (Wokibrain.scoreCandidate 5
           (Candidate.mk single ["T4"%string] (Seed.at_ 20 0) (Seed.at_ 21 30)
              4 6 None None))
        (Wokibrain.findCandidates Seed.collate Seed.alwaysOpenDb "S1" Seed.day 5 90
           [] Seed.BuenosAires None None 100).
Proof.
  split; [vm_compute; reflexivity|].
  split; [vm_compute; reflexivity|].
  split; [vm_compute; reflexivity|].
  split.
  - eexists. split; [left; reflexivity|]. vm_compute. split; [discriminate | reflexivity].
  - vm_compute. do 80 right. left. reflexivity.
Qed.

End IntervalFacts.

(** * Worked instances *)

Module Instances.

Import Scenarios.

(** Three tables are free together at instant 23. *)
Lemma intersectGaps_exact_witness :
  Spec.covers (fold_left Gaps.intersectGaps [tableB; tableC] tableA) 23
  <-> Spec.covers tableA 23
      /\ Forall (fun l => Spec.covers l 23) [tableB; tableC].
Proof.
  assert (HA : Spec.sortedByStart tableA) by (repeat constructor; simpl; lia).
  assert (HB : Spec.sortedByStart tableB) by (repeat constructor).
  assert (HC : Spec.sortedByStart tableC) by (repeat constructor; simpl; lia).
  exact (proj2 (proj2 (proj2
           (@IntersectFacts.intersectGaps_exact tableA [tableB; tableC] HA
              (Forall_cons _ HB (Forall_cons _ HC (Forall_nil _)))))) 23).
Defined.


End Instances.

(** * Rounding and slots *)

Module SlotFacts.

(** Rounding up never moves an instant back, rounding down never moves it
    forward; no assumption on seconds or on the sign of the instant. *)
Lemma getMinutes_range (d : Z) : 0 <= Gaps.getMinutes d < 60.
Proof. unfold Gaps.getMinutes. apply Z.mod_pos_bound. lia. Qed.

Lemma getSeconds_range (d : Z) : 0 <= Gaps.getSeconds d < 60.
Proof. unfold Gaps.getSeconds. apply Z.mod_pos_bound. lia. Qed.

Lemma getMilliseconds_range (d : Z) : 0 <= Gaps.getMilliseconds d < 1000.
Proof. unfold Gaps.getMilliseconds. apply Z.mod_pos_bound. lia. Qed.

Lemma getSeconds_setMinutes (d m : Z) :
  Gaps.getSeconds (Gaps.setMinutes d m) = Gaps.getSeconds d.
Proof.
  unfold Gaps.getSeconds, Gaps.setMinutes.
  replace (d + (m - Gaps.getMinutes d) * 60000)
    with (d + ((m - Gaps.getMinutes d) * 60) * 1000) by lia.
  rewrite Z.div_add by lia.
  rewrite Z.add_mod by lia.
  replace ((m - Gaps.getMinutes d) * 60) with ((m - Gaps.getMinutes d) * 60) by lia.
  rewrite Z.mod_mul by lia. rewrite Z.add_0_r. apply Z.mod_mod. lia.
Qed.

Lemma getMilliseconds_shift (d k : Z) :
  Gaps.getMilliseconds (d + k * 1000) = Gaps.getMilliseconds d.
Proof. unfold Gaps.getMilliseconds. apply Z.mod_add. lia. Qed.

Lemma roundToSlot_up_value (d : Z) :
  let r := Z.rem (Gaps.getMinutes d) 15 in
  Gaps.roundToSlot d 15 Gaps.up
  = if r =? 0 then d
    else d + (15 - r) * 60000 - Gaps.getSeconds d * 1000 - Gaps.getMilliseconds d.
Proof.
  cbv zeta. unfold Gaps.roundToSlot.
  destruct (Z.rem (Gaps.getMinutes d) 15 =? 0); [reflexivity|].
  unfold Gaps.setMilliseconds, Gaps.setSeconds.
  rewrite getSeconds_setMinutes.
  replace (Gaps.setMinutes d (Gaps.getMinutes d + (15 - Z.rem (Gaps.getMinutes d) 15))
           + (0 - Gaps.getSeconds d) * 1000)
    with (Gaps.setMinutes d (Gaps.getMinutes d + (15 - Z.rem (Gaps.getMinutes d) 15))
          + (- Gaps.getSeconds d) * 1000) by lia.
  rewrite getMilliseconds_shift.
  unfold Gaps.setMinutes at 2.
  replace (d + (Gaps.getMinutes d + (15 - Z.rem (Gaps.getMinutes d) 15) - Gaps.getMinutes d) * 60000)
    with (d + ((15 - Z.rem (Gaps.getMinutes d) 15) * 60) * 1000) by lia.
  rewrite getMilliseconds_shift.
  unfold Gaps.setMinutes. lia.
Qed.

Lemma roundToSlot_down_value (d : Z) :
  let r := Z.rem (Gaps.getMinutes d) 15 in
  Gaps.roundToSlot d 15 Gaps.down
  = if r =? 0 then d
    else d - r * 60000 - Gaps.getSeconds d * 1000 - Gaps.getMilliseconds d.
Proof.
  cbv zeta. unfold Gaps.roundToSlot.
  destruct (Z.rem (Gaps.getMinutes d) 15 =? 0); [reflexivity|].
  unfold Gaps.setMilliseconds, Gaps.setSeconds.
  rewrite getSeconds_setMinutes.
  replace (Gaps.setMinutes d (Gaps.getMinutes d - Z.rem (Gaps.getMinutes d) 15)
           + (0 - Gaps.getSeconds d) * 1000)
    with (Gaps.setMinutes d (Gaps.getMinutes d - Z.rem (Gaps.getMinutes d) 15)
          + (- Gaps.getSeconds d) * 1000) by lia.
  rewrite getMilliseconds_shift.
  unfold Gaps.setMinutes at 2.
  replace (d + (Gaps.getMinutes d - Z.rem (Gaps.getMinutes d) 15 - Gaps.getMinutes d) * 60000)
    with (d + ((- Z.rem (Gaps.getMinutes d) 15) * 60) * 1000) by lia.
  rewrite getMilliseconds_shift.
  unfold Gaps.setMinutes. lia.
Qed.

Lemma rem15_range (d : Z) : 0 <= Z.rem (Gaps.getMinutes d) 15 < 15.
Proof.
  pose proof (getMinutes_range d).
  rewrite Z.rem_mod_nonneg by lia. apply Z.mod_pos_bound. lia.
Qed.

Lemma roundToSlot_up_ge (d : Z) : d <= Gaps.roundToSlot d 15 Gaps.up.
Proof.
  rewrite roundToSlot_up_value. cbv zeta.
  pose proof (rem15_range d). pose proof (getSeconds_range d).
  pose proof (getMilliseconds_range d).
  destruct (Z.eqb_spec (Z.rem (Gaps.getMinutes d) 15) 0); lia.
Qed.

Lemma roundToSlot_down_le (d : Z) : Gaps.roundToSlot d 15 Gaps.down <= d.
Proof.
  rewrite roundToSlot_down_value. cbv zeta.
  pose proof (rem15_range d). pose proof (getSeconds_range d).
  pose proof (getMilliseconds_range d).
  destruct (Z.eqb_spec (Z.rem (Gaps.getMinutes d) 15) 0); lia.
Qed.

Lemma slot_inside_gap (gaps : list Gap.t) (durationMinutes : Z) (s : Gap.t) :
  In s (Gaps.filterGapsByDuration gaps durationMinutes 15) ->
  exists g,
    In g gaps
    /\ Gap.start g <= Gap.start s
    /\ Gap.end_ s <= Gap.end_ g
    /\ Gap.end_ s = Gap.start s + durationMinutes * 60 * 1000.
Proof.
  intro H. apply GridFacts.filterGapsByDuration_slots in H.
  destruct H as (g & k & Hg & Hk & Hs & He & Hle).
  exists g. split; [exact Hg|].
  pose proof (roundToSlot_up_ge (Gap.start g)).
  pose proof (roundToSlot_down_le (Gap.end_ g)).
  unfold Spec.gridMs, Spec.msPerMinute in *. repeat split; nia.
Qed.

End SlotFacts.

(** * What the store reports *)

Module QueryFacts.

Lemma has_In (set : list string) (x : string) : Db.has set x = true <-> In x set.
Proof.
  unfold Db.has. rewrite existsb_exists. split.
  - intros (y & Hy & E). apply String.eqb_eq in E. subst. exact Hy.
  - intro H. exists x. split; [exact H | apply String.eqb_refl].
Qed.



Lemma getBlackoutsByTables_In
    (db : Db.t) (tableIds : list string) (b : Blackout.t) :
  In b (Db.getBlackoutsByTables db tableIds) <->
  In b (JsMap.values (Db.blackouts db)) /\ In (Blackout.tableId b) tableIds.
Proof.
  unfold Db.getBlackoutsByTables. rewrite filter_In, has_In. reflexivity.
Qed.

End QueryFacts.

Module MapFacts.

Section Map.
Variable V : Type.

Lemma delete_absent (m : JsMap.t V) (k : string) :
  ~ In k (JsMap.keys m) -> JsMap.delete m k = m.
Proof.
  induction m as [|[k' v] m IH]; simpl; intro H; [reflexivity|].
  destruct (String.eqb_spec k' k) as [->|_].
  - exfalso. apply H. left. reflexivity.
  - rewrite IH; [reflexivity|]. intro Hin. apply H. right. exact Hin.
Qed.

Lemma delete_middle (m1 m2 : JsMap.t V) (k : string) (v : V) :
  ~ In k (JsMap.keys m1) -> ~ In k (JsMap.keys m2) ->
  JsMap.delete (m1 ++ (k, v) :: m2) k = m1 ++ m2.
Proof.
  induction m1 as [|[k' v'] m1 IH]; simpl; intros H1 H2.
  - rewrite String.eqb_refl. apply delete_absent, H2.
  - destruct (String.eqb_spec k' k) as [->|_].
    + exfalso. apply H1. left. reflexivity.
    + rewrite IH; [reflexivity | | exact H2].
      intro Hin. apply H1. right. exact Hin.
Qed.

Lemma keys_filter (p : string * V -> bool) (m : JsMap.t V) (k : string) :
  In k (JsMap.keys (filter p m)) -> In k (JsMap.keys m).
Proof.
  unfold JsMap.keys. rewrite !in_map_iff.
  intros (kv & E & H). apply filter_In in H. exists kv. tauto.
Qed.

Lemma values_filter (p : V -> bool) (m : JsMap.t V) :
  JsMap.values (filter (fun kv => p (snd kv)) m) = filter p (JsMap.values m).
Proof.
  induction m as [|[k v] m IH]; simpl; [reflexivity|].
  destruct (p v); simpl; rewrite IH; reflexivity.
Qed.

End Map.

Lemma In_values_set_self (V : Type) (m : JsMap.t V) (k : string) (v : V) :
  In v (JsMap.values (JsMap.set m k v)).
Proof.
  apply StoreFacts.get_In with (k := k). apply StoreFacts.get_set_same.
Qed.

Lemma filter_filter_implied (A : Type) (p q : A -> bool) (l : list A) :
  (forall x, p x = true -> q x = true) ->
  filter p (filter q l) = filter p l.
Proof.
  intro H. induction l as [|x l IH]; simpl; [reflexivity|].
  destruct (q x) eqn:Eq; simpl.
  - rewrite IH. reflexivity.
  - destruct (p x) eqn:Ep; [|exact IH].
    rewrite (H x Ep) in Eq. discriminate.
Qed.

End MapFacts.

(** * The interval engine *)

Module NonEmptyFacts.

Import Vocabulary.







End NonEmptyFacts.

Module EngineFacts.



End EngineFacts.

Module Engine.

(** X1.  [findGapsInWindow]: an instant lies in one of the returned gaps
    exactly when it lies in the window and in no booking of the list.
    When no booking ends before it starts, the gaps come in chronological
    order, pairwise disjoint, each non-empty and inside the window. *)
Theorem findGapsInWindow_is_the_free_time_of_the_window
    (bookings : list Booking.t) (windowStart windowEnd : ISODateTime) :
  Forall (fun b => Booking.start b <= Booking.end_ b) bookings ->
  (forall t,
      Spec.covers (Gaps.findGapsInWindow bookings windowStart windowEnd) t
      <-> windowStart <= t < windowEnd
          /\ forall b, In b bookings -> ~ (Booking.start b <= t < Booking.end_ b))
  /\ Spec.chronological (Gaps.findGapsInWindow bookings windowStart windowEnd)
  /\ Forall (fun g => windowStart <= Gap.start g /\ Gap.start g < Gap.end_ g
                       /\ Gap.end_ g <= windowEnd)
            (Gaps.findGapsInWindow bookings windowStart windowEnd).
Proof.
  intro Hwf. split.
  - intro t. apply IntervalFacts.findGapsInWindow_covers.
  - apply IntervalFacts.findGapsInWindow_chronological, Hwf.
Qed.

(** X2.  [filterGapsByBlackouts], given gaps in chronological order and
    blackouts that do not end before they start: an instant lies in one of
    the filtered gaps exactly when it lies in one of the given gaps and in
    no blackout of the given tables.  The filtered gaps are again in
    chronological order, and without a blackout on those tables the gaps
    are returned as they are. *)
Theorem filterGapsByBlackouts_cuts_the_blackouts_out
    (db : Db.t) (gaps : list Gap.t) (tableIds : list string) :
  Forall (fun b => Blackout.start b <= Blackout.end_ b) (JsMap.values (Db.blackouts db)) ->
  Forall (fun g => Gap.start g <= Gap.end_ g) gaps ->
  Spec.chronological gaps ->
  (forall t,
      Spec.covers (Blackouts.filterGapsByBlackouts db gaps tableIds) t
      <-> Spec.covers gaps t
          /\ forall blackout,
               In blackout (JsMap.values (Db.blackouts db)) ->
               In (Blackout.tableId blackout) tableIds ->
               ~ (Blackout.start blackout <= t < Blackout.end_ blackout))
  /\ Spec.chronological (Blackouts.filterGapsByBlackouts db gaps tableIds)
  /\ (Db.getBlackoutsByTables db tableIds = [] ->
      Blackouts.filterGapsByBlackouts db gaps tableIds = gaps).
Proof.
  intros Hbl Hg Hc. split; [|split].
  - intro t. rewrite IntervalFacts.filterGapsByBlackouts_covers.
    split; intros [H1 H2]; (split; [exact H1|]).
    + intros blackout Hin Ht. apply H2.
      apply QueryFacts.getBlackoutsByTables_In. split; assumption.
    + intros b Hb. apply QueryFacts.getBlackoutsByTables_In in Hb.
      apply H2; apply Hb.
  - apply IntervalFacts.filterGapsByBlackouts_chronological; assumption.
  - intro E. unfold Blackouts.filterGapsByBlackouts. rewrite E. reflexivity.
Qed.




(** X6.  [roundToSlot] moves an instant forward by less than fifteen
    minutes when rounding up and back by less than fifteen minutes when
    rounding down, whatever its seconds; hence every slot that
    [filterGapsByDuration] emits lies inside one of the gaps it was given and
    has the requested length. *)
Theorem slots_lie_inside_their_gap (gaps : list Gap.t) (durationMinutes : Z) :
  (forall d,
      d <= Gaps.roundToSlot d 15 Gaps.up < d + 15 * 60000
      /\ d - 15 * 60000 < Gaps.roundToSlot d 15 Gaps.down <= d)
  /\ (forall s,
        In s (Gaps.filterGapsByDuration gaps durationMinutes 15) ->
        exists g,
          In g gaps
          /\ Gap.start g <= Gap.start s
          /\ Gap.end_ s <= Gap.end_ g
          /\ Gap.end_ s = Gap.start s + durationMinutes * 60 * 1000).
Proof.
  split; [|intros s Hs; apply SlotFacts.slot_inside_gap, Hs].
  intro d. rewrite SlotFacts.roundToSlot_up_value, SlotFacts.roundToSlot_down_value.
  cbv zeta.
  pose proof (SlotFacts.rem15_range d). pose proof (SlotFacts.getSeconds_range d).
  pose proof (SlotFacts.getMilliseconds_range d).
  destruct (Z.eqb_spec (Z.rem (Gaps.getMinutes d) 15) 0); lia.
Qed.

End Engine.

(** * Combinations of tables *)

Module ComboFacts.

(** Soundness of the merge needs no order on its inputs. *)
Lemma intersectGaps_sound (gaps1 gaps2 : list Gap.t) (t : Z) :
  Spec.covers (Gaps.intersectGaps gaps1 gaps2) t ->
  Spec.covers gaps1 t /\ Spec.covers gaps2 t.
Proof.
  intros (g & Hg & Ht).
  apply IntersectFacts.intersectGaps_In in Hg.
  destruct Hg as (a & b & Ha & Hb & Hg).
  apply IntersectFacts.overlap_spec in Hg. destruct Hg as (Hs & He & _).
  split; [exists a | exists b]; (split; [assumption | lia]).
Qed.

Lemma fold_intersect_sound (others : list (list Gap.t)) :
  forall first t,
    Spec.covers (fold_left Gaps.intersectGaps others first) t ->
    Spec.covers first t /\ Forall (fun l => Spec.covers l t) others.
Proof.
  induction others as [|o others IH]; intros first t H; simpl in H.
  - split; [exact H | constructor].
  - apply IH in H. destruct H as [H1 H2].
    apply intersectGaps_sound in H1. destruct H1 as [Hf Ho].
    split; [exact Hf | constructor; assumption].
Qed.

(** An instant at which a combination is free is free on each table. *)
Lemma findComboGaps_sound
    (db : Db.t) (tableIds : list string) (date : Z)
    (windows : list ServiceWindow.t) (tz : TimeZone) (t : Z) :
  Spec.covers (Gaps.findComboGaps db tableIds date windows tz) t ->
  forall tableId, In tableId tableIds ->
    Spec.covers (Gaps.findTableGaps db tableId date windows tz) t.
Proof.
  intros H tableId Hin.
  destruct tableIds as [|first [|second others]].
  - destruct Hin.
  - destruct Hin as [<-|[]]. exact H.
  - unfold Gaps.findComboGaps in H.
    apply IntervalFacts.filterGapsByBlackouts_covers in H. destruct H as [H _].
    apply fold_intersect_sound in H. destruct H as [Hf Ho].
    destruct Hin as [<-|Hin]; [exact Hf|].
    rewrite Forall_forall in Ho. apply Ho.
    apply in_map_iff. exists tableId. split; [reflexivity | exact Hin].
Qed.

End ComboFacts.

Module CombinationFacts.

Import Vocabulary.

Lemma Subsequence_nil (A : Type) (l : list A) : Subsequence [] l.
Proof. induction l; constructor; assumption. Qed.

Lemma Subsequence_length (A : Type) (c l : list A) :
  Subsequence c l -> (List.length c <= List.length l)%nat.
Proof. induction 1; simpl; lia. Qed.

Lemma Subsequence_In (A : Type) (c l : list A) (x : A) :
  Subsequence c l -> In x c -> In x l.
Proof.
  induction 1; intro Hx; [exact Hx | right; auto |].
  destruct Hx as [<-|Hx]; [left; reflexivity | right; auto].
Qed.

Lemma Subsequence_NoDup (A : Type) (c l : list A) :
  Subsequence c l -> NoDup l -> NoDup c.
Proof.
  induction 1; intro Hl; [exact Hl | |]; inversion Hl as [|? ? Hx Hl']; subst.
  - auto.
  - constructor; [|auto]. intro Hin. apply Hx.
    eapply Subsequence_In; eassumption.
Qed.

Lemma combine_spec (A : Type) (arr : list A) :
  forall (k : nat) (c : list A),
    In c (Wokibrain.combine arr k) <-> Subsequence c arr /\ List.length c = k.
Proof.
  induction arr as [|x rest IH]; intros k c.
  - destruct k; simpl.
    + split.
      * intros [<-|[]]. split; [constructor | reflexivity].
      * intros [H _]. inversion H. left. reflexivity.
    + split; [intros [] |]. intros [H E]. inversion H; subst. discriminate E.
  - destruct k as [|k]; cbn [Wokibrain.combine].
    + split.
      * intros [<-|[]]. split; [apply Subsequence_nil | reflexivity].
      * intros [_ E]. destruct c; [left; reflexivity | discriminate E].
    + rewrite in_app_iff, in_map_iff. split.
      * intros [(c' & <- & Hc')|Hc].
        -- apply IH in Hc'. destruct Hc' as [Hs <-].
           split; [constructor; exact Hs | reflexivity].
        -- apply IH in Hc. destruct Hc as [Hs E].
           split; [constructor; exact Hs | exact E].
      * intros [Hs E]. inversion Hs as [|x' c' l' Hs'|x' c' l' Hs']; subst.
        -- right. apply IH. split; assumption.
        -- left. exists c'. split; [reflexivity|]. apply IH.
           split; [exact Hs' | simpl in E; lia].
Qed.

Lemma NoDup_map_cons (A : Type) (x : A) (l : list (list A)) :
  NoDup l -> NoDup (map (cons x) l).
Proof.
  induction 1 as [|c l Hc Hl IH]; simpl; constructor; [|exact IH].
  intro Hin. apply in_map_iff in Hin. destruct Hin as (c' & E & Hc').
  injection E as ->. contradiction.
Qed.

Lemma combine_NoDup (A : Type) (arr : list A) :
  NoDup arr -> forall k, NoDup (Wokibrain.combine arr k).
Proof.
  induction arr as [|x rest IH]; intros Hnd k.
  - destruct k; simpl; repeat constructor. intros [].
  - inversion Hnd as [|? ? Hx Hrest]; subst.
    destruct k as [|k]; cbn [Wokibrain.combine].
    + repeat constructor. intros [].
    + apply NoDup_app.
      * apply NoDup_map_cons, IH, Hrest.
      * apply IH, Hrest.
      * intros c Hc1 Hc2. apply in_map_iff in Hc1. destruct Hc1 as (c' & <- & _).
        apply combine_spec in Hc2. destruct Hc2 as [Hs _].
        apply Hx. eapply Subsequence_In; [exact Hs | left; reflexivity].
Qed.

Lemma flat_map_NoDup (A B : Type) (f : A -> list B) (l : list A) :
  NoDup l ->
  (forall a, In a l -> NoDup (f a)) ->
  (forall a a' b, In a l -> In a' l -> In b (f a) -> In b (f a') -> a = a') ->
  NoDup (flat_map f l).
Proof.
  induction l as [|a l IH]; intros Hl Hf Hdis; simpl; [constructor|].
  inversion Hl as [|? ? Ha Hl']; subst.
  apply NoDup_app.
  - apply Hf. left. reflexivity.
  - apply IH; [exact Hl' | intros; apply Hf; right; assumption |].
    intros a1 a2 b H1 H2. apply Hdis; right; assumption.
  - intros b Hb1 Hb2. apply in_flat_map in Hb2. destruct Hb2 as (a' & Ha' & Hb2).
    apply Ha. rewrite (Hdis a a' b); auto; [left; reflexivity | right; assumption].
Qed.

(** X7.  [generateCombinations] with a minimum size of at least one
    returns exactly the selections of elements of the array, in the order of
    the array, that have at least the minimum size; when the array has no
    repeated element no selection is listed twice. *)
Theorem generateCombinations_lists_each_group_once
    (A : Type) (arr : list A) (minSize : nat) :
  (1 <= minSize)%nat ->
  (forall c : list A,
      In c (Wokibrain.generateCombinations arr minSize)
      <-> Subsequence c arr /\ (minSize <= List.length c)%nat)
  /\ (NoDup arr -> NoDup (Wokibrain.generateCombinations arr minSize)).
Proof.
  intro Hmin. unfold Wokibrain.generateCombinations.
  destruct (Nat.leb_spec minSize 0) as [H0|H0]; [lia|]. cbn [orb].
  destruct (Nat.ltb_spec (List.length arr) minSize) as [Hlt|Hge].
  - split; [|constructor]. intro c. split; [intros []|].
    intros [Hs Hl]. apply Subsequence_length in Hs. lia.
  - split.
    + intro c. rewrite in_flat_map. split.
      * intros (size & Hsize & Hc). apply in_seq in Hsize.
        apply combine_spec in Hc. destruct Hc as [Hs <-]. split; [exact Hs | lia].
      * intros [Hs Hl]. exists (List.length c). split.
        -- apply in_seq. apply Subsequence_length in Hs. lia.
        -- apply combine_spec. split; [exact Hs | reflexivity].
    + intro Hnd. apply flat_map_NoDup.
      * apply seq_NoDup.
      * intros size _. apply combine_NoDup, Hnd.
      * intros s s' c _ _ H1 H2. apply combine_spec in H1, H2.
        destruct H1 as [_ <-], H2 as [_ <-]. reflexivity.
Qed.


End CombinationFacts.

(** * What a candidate is *)

Module Anatomy.

Section Collation.
Variable localeCompare : string -> string -> Z.

Lemma findCandidates_enumerated
    (db : Db.t) (sectorId : string) (date partySize durationMinutes : Z)
    (serviceWindows : list ServiceWindow.t) (tz : TimeZone)
    (rs re : option TimeOfDay.t) (limit : nat) (c : Candidate.t) :
  In c (Wokibrain.findCandidates localeCompare db sectorId date partySize
          durationMinutes serviceWindows tz rs re limit) ->
  exists c0 activeWindows,
    c = Wokibrain.scoreCandidate partySize c0
    /\ In c0 (Wokibrain.enumerateCandidates db (Db.getTablesBySector db sectorId)
                date partySize durationMinutes activeWindows tz
                (Vocabulary.requestedOf date tz rs re))
    /\ (serviceWindows <> [] -> activeWindows <> []).
Proof.
  unfold Wokibrain.findCandidates. intro H.
  destruct (Db.getTablesBySector db sectorId) as [|t0 ts] eqn:Et; [destruct H|].
  assert (Hrest : forall aw rq,
            In c (firstn limit
                    (JsArray.sort (Wokibrain.compareCandidates localeCompare partySize)
                       (map (Wokibrain.scoreCandidate partySize)
                          (Wokibrain.enumerateCandidates db (t0 :: ts) date partySize
                             durationMinutes aw tz rq)))) ->
            exists c0,
              c = Wokibrain.scoreCandidate partySize c0
              /\ In c0 (Wokibrain.enumerateCandidates db (t0 :: ts) date partySize
                          durationMinutes aw tz rq)).
  { intros aw rq Hc.
    apply SortFacts.In_firstn, SortFacts.sort_In, in_map_iff in Hc.
    destruct Hc as (c0 & <- & Hc0). eauto. }
  destruct rs as [s|]; [destruct re as [e|]|]; cbn [Vocabulary.requestedOf].
  - match type of H with
    | In _ (match ?aw with _ => _ end) => destruct aw as [|w0 ws] eqn:Ea
    end; [destruct H|].
    apply Hrest in H. destruct H as (c0 & -> & Hc0).
    exists c0, (w0 :: ws). split; [reflexivity|]. split; [exact Hc0|].
    intros _; discriminate.
  - apply Hrest in H. destruct H as (c0 & -> & Hc0).
    exists c0, serviceWindows. split; [reflexivity|]. split; [exact Hc0|]. auto.
  - apply Hrest in H. destruct H as (c0 & -> & Hc0).
    exists c0, serviceWindows. split; [reflexivity|]. split; [exact Hc0|]. auto.
Qed.

End Collation.

Lemma enumerateCandidates_anatomy
    (db : Db.t) (tables : list Table.t) (date partySize durationMinutes : Z)
    (activeWindows : list ServiceWindow.t) (tz : TimeZone)
    (requested : option (Z * Z)) (c : Candidate.t) :
  In c (Wokibrain.enumerateCandidates db tables date partySize durationMinutes
          activeWindows tz requested) ->
  In (Gap.mk (Candidate.start c) (Candidate.end_ c))
     (Gaps.filterGapsByDuration
        (Gaps.findComboGaps db (Candidate.tableIds c) date activeWindows tz)
        durationMinutes 15)
  /\ match requested with
     | Some (requestedStartTs, requestedEndTs) =>
         requestedStartTs <= Candidate.start c /\ Candidate.end_ c <= requestedEndTs
     | None => True
     end
  /\ Candidate.minCapacity c <= partySize <= Candidate.maxCapacity c
  /\ ((Candidate.kind c = single
       /\ exists table, In table tables
            /\ Candidate.tableIds c = [Table.id table]
            /\ Candidate.minCapacity c = Table.minSize table
            /\ Candidate.maxCapacity c = Table.maxSize table)
      \/ (Candidate.kind c = combo
          /\ In (Candidate.tableIds c)
                (Wokibrain.generateCombinations (map Table.id tables) 2)
          /\ (Candidate.minCapacity c, Candidate.maxCapacity c)
             = Gaps.calculateComboCapacity (Vocabulary.comboTables tables (Candidate.tableIds c)))).
Proof.
  unfold Wokibrain.enumerateCandidates. intro H.
  assert (Hclip : forall (l : list Gap.t) (g : Gap.t),
            In g (match requested with
                  | Some (requestedStartTs, requestedEndTs) =>
                      filter (fun gap => (Gap.start gap >=? requestedStartTs)
                                         && (Gap.end_ gap <=? requestedEndTs)) l
                  | None => l
                  end) ->
            In g l
            /\ match requested with
               | Some (requestedStartTs, requestedEndTs) =>
                   requestedStartTs <= Gap.start g /\ Gap.end_ g <= requestedEndTs
               | None => True
               end).
  { intros l g Hg. destruct requested as [[rs re]|]; [|split; [exact Hg | exact I]].
    apply filter_In in Hg. destruct Hg as [Hg Hb].
    apply andb_true_iff in Hb. destruct Hb as [Hb1 Hb2].
    split; [exact Hg|]. lia. }
  apply in_app_or in H. destruct H as [H|H]; apply in_flat_map in H;
    destruct H as (x & Hx & H).
  - destruct (_ || _) eqn:Efit in H; [destruct H|].
    apply orb_false_iff in Efit. destruct Efit as [E1 E2].
    apply in_map_iff in H. destruct H as (g & <- & Hg). apply Hclip in Hg.
    destruct Hg as [Hg Hreq]. cbn [Candidate.start Candidate.end_ Candidate.tableIds
      Candidate.minCapacity Candidate.maxCapacity Candidate.kind].
    split; [destruct g; exact Hg|]. split; [exact Hreq|]. split; [lia|].
    left. split; [reflexivity|]. exists x. auto.
  - match type of H with
    | In _ (if ?b then _ else _) => destruct b eqn:Efit
    end; [destruct H|].
    apply orb_false_iff in Efit. destruct Efit as [E1 E2].
    apply in_map_iff in H. destruct H as (g & <- & Hg). apply Hclip in Hg.
    destruct Hg as [Hg Hreq]. cbn [Candidate.start Candidate.end_ Candidate.tableIds
      Candidate.minCapacity Candidate.maxCapacity Candidate.kind].
    split; [destruct g; exact Hg|]. split; [exact Hreq|]. split; [lia|].
    right. split; [reflexivity|]. split; [exact Hx|].
    unfold Vocabulary.comboTables. destruct (Gaps.calculateComboCapacity _); reflexivity.
Qed.

End Anatomy.

Module CandidateSafety.

(** A candidate's interval lies inside a free gap of each of its tables. *)
Lemma candidate_instant_free
    (localeCompare : string -> string -> Z)
    (db : Db.t) (sectorId : string) (date partySize durationMinutes : Z)
    (serviceWindows : list ServiceWindow.t) (tz : TimeZone)
    (rs re : option TimeOfDay.t) (limit : nat) (c : Candidate.t) :
  In c (Wokibrain.findCandidates localeCompare db sectorId date partySize
          durationMinutes serviceWindows tz rs re limit) ->
  exists activeWindows,
    (serviceWindows <> [] -> activeWindows <> [])
    /\ Candidate.end_ c = Candidate.start c + durationMinutes * 60 * 1000
    /\ forall t tableId,
         Candidate.start c <= t < Candidate.end_ c ->
         In tableId (Candidate.tableIds c) ->
         Spec.covers (Gaps.findTableGaps db tableId date activeWindows tz) t.
Proof.
  intro H. apply Anatomy.findCandidates_enumerated in H.
  destruct H as (c0 & aw & -> & H0 & Haw).
  apply Anatomy.enumerateCandidates_anatomy in H0. destruct H0 as (Hslot & _).
  apply SlotFacts.slot_inside_gap in Hslot.
  destruct Hslot as (g & Hg & Hs & He & Hlen). cbn [Gap.start Gap.end_] in Hs, He, Hlen.
  exists aw. split; [exact Haw|].
  split; [cbn [Wokibrain.scoreCandidate Wokibrain.withScore Candidate.start Candidate.end_];
          exact Hlen|].
  intros t tableId Ht Hid.
  apply ComboFacts.findComboGaps_sound with (tableIds := Candidate.tableIds c0).
  - exists g. split; [exact Hg|].
    destruct (CandidateFacts.scoreCandidate_interval partySize c0) as [E1 E2].
    rewrite E1, E2 in Ht. lia.
  - exact Hid.
Qed.



(** X9.  For a venue with service windows and a positive duration no
    candidate of [findCandidates] overlaps a non-empty blackout of one of
    its tables. *)
Theorem candidates_avoid_blackouts
    (localeCompare : string -> string -> Z)
    (db : Db.t) (sectorId : string) (date partySize durationMinutes : Z)
    (serviceWindows : list ServiceWindow.t) (tz : TimeZone)
    (rs re : option TimeOfDay.t) (limit : nat) (c : Candidate.t) (bl : Blackout.t) :
  0 < durationMinutes ->
  serviceWindows <> [] ->
  In c (Wokibrain.findCandidates localeCompare db sectorId date partySize
          durationMinutes serviceWindows tz rs re limit) ->
  In bl (JsMap.values (Db.blackouts db)) ->
  In (Blackout.tableId bl) (Candidate.tableIds c) ->
  Blackout.start bl < Blackout.end_ bl ->
  Candidate.end_ c <= Blackout.start bl \/ Blackout.end_ bl <= Candidate.start c.
Proof.
  intros Hd Hw Hc Hb Htc Hwf.
  apply candidate_instant_free in Hc. destruct Hc as (aw & Haw & Hlen & Hfree).
  specialize (Haw Hw). destruct aw as [|w0 ws]; [congruence|].
  destruct (Z_le_gt_dec (Candidate.end_ c) (Blackout.start bl)) as [|H1]; [left; assumption|].
  destruct (Z_le_gt_dec (Blackout.end_ bl) (Candidate.start c)) as [|H2]; [right; assumption|].
  exfalso.
  set (t := Z.max (Blackout.start bl) (Candidate.start c)).
  assert (Ht : Candidate.start c <= t < Candidate.end_ c) by (unfold t; lia).
  specialize (Hfree t _ Ht Htc).
  apply IntervalFacts.findTableGaps_windows_covers in Hfree.
  destruct Hfree as (_ & _ & Hbl).
  apply (Hbl bl).
  - apply QueryFacts.getBlackoutsByTables_In. split; [exact Hb | left; reflexivity].
  - unfold t. lia.
Qed.

End CandidateSafety.

Module CandidateShape.



(** X11.  When a window is requested, every candidate of [findCandidates]
    starts and ends inside it, and candidates exist only if the window
    overlaps a service window. *)
Theorem candidates_stay_inside_the_requested_window
    (localeCompare : string -> string -> Z)
    (db : Db.t) (sectorId : string) (date partySize durationMinutes : Z)
    (serviceWindows : list ServiceWindow.t) (tz : TimeZone)
    (windowStart windowEnd : TimeOfDay.t) (limit : nat) (c : Candidate.t) :
  In c (Wokibrain.findCandidates localeCompare db sectorId date partySize
          durationMinutes serviceWindows tz (Some windowStart) (Some windowEnd) limit) ->
  Gaps.toZonedIso date windowStart tz <= Candidate.start c
  /\ Candidate.end_ c <= Gaps.toZonedIso date windowEnd tz
  /\ exists window,
       In window serviceWindows
       /\ Gaps.toZonedIso date windowStart tz
          < Gaps.toZonedIso date (ServiceWindow.end_ window) tz
       /\ Gaps.toZonedIso date (ServiceWindow.start window) tz
          < Gaps.toZonedIso date windowEnd tz.
Proof.
  intro H.
  assert (Hw : exists window,
             In window serviceWindows
             /\ Gaps.toZonedIso date windowStart tz
                < Gaps.toZonedIso date (ServiceWindow.end_ window) tz
             /\ Gaps.toZonedIso date (ServiceWindow.start window) tz
                < Gaps.toZonedIso date windowEnd tz).
  { unfold Wokibrain.findCandidates in H.
    destruct (Db.getTablesBySector db sectorId); [destruct H|].
    match type of H with
    | In _ (match ?aw with _ => _ end) => destruct aw as [|w0 ws] eqn:Ea
    end; [destruct H|].
    assert (Hin : In w0 (w0 :: ws)) by (left; reflexivity).
    rewrite <- Ea in Hin. apply filter_In in Hin. destruct Hin as [Hin Hb].
    apply andb_true_iff in Hb. exists w0. split; [exact Hin|]. lia. }
  apply Anatomy.findCandidates_enumerated in H.
  destruct H as (c0 & aw & -> & H0 & _).
  apply Anatomy.enumerateCandidates_anatomy in H0.
  destruct H0 as (_ & Hreq & _). cbn [Vocabulary.requestedOf] in Hreq.
  cbn [Wokibrain.scoreCandidate Wokibrain.withScore Candidate.start Candidate.end_].
  tauto.
Qed.

End CandidateShape.

Module BestFacts.

Section Collation.
Variable localeCompare : string -> string -> Z.

(** Every listing is a prefix of one list, sorted by the comparator. *)
Lemma findCandidates_prefix
    (db : Db.t) (sectorId : string) (date partySize durationMinutes : Z)
    (serviceWindows : list ServiceWindow.t) (tz : TimeZone)
    (rs re : option TimeOfDay.t) :
  exists all,
    (forall limit,
        Wokibrain.findCandidates localeCompare db sectorId date partySize
          durationMinutes serviceWindows tz rs re limit = firstn limit all)
    /\ (all = []
        \/ exists l, all = JsArray.sort
                             (Wokibrain.compareCandidates localeCompare partySize) l).
Proof.
  unfold Wokibrain.findCandidates.
  destruct (Db.getTablesBySector db sectorId) as [|t0 ts].
  { exists []. split; [intro limit; destruct limit; reflexivity | left; reflexivity]. }
  destruct rs as [s|]; [destruct re as [e|]|].
  - match goal with
    | |- context [match ?aw with [] => [] | _ :: _ => _ end] => destruct aw as [|w0 ws]
    end.
    + exists []. split; [intro limit; destruct limit; reflexivity | left; reflexivity].
    + eexists. split; [intro limit; reflexivity | right; eexists; reflexivity].
  - eexists. split; [intro limit; reflexivity | right; eexists; reflexivity].
  - eexists. split; [intro limit; reflexivity | right; eexists; reflexivity].
Qed.

Lemma selectBestCandidate_head
    (db : Db.t) (sectorId : string) (date partySize durationMinutes : Z)
    (serviceWindows : list ServiceWindow.t) (tz : TimeZone)
    (rs re : option TimeOfDay.t) (limit : nat) :
  (1 <= limit)%nat ->
  Wokibrain.selectBestCandidate localeCompare db sectorId date partySize
    durationMinutes serviceWindows tz rs re
  = hd_error (Wokibrain.findCandidates localeCompare db sectorId date partySize
                durationMinutes serviceWindows tz rs re limit).
Proof.
  intro Hl. unfold Wokibrain.selectBestCandidate.
  destruct (findCandidates_prefix db sectorId date partySize durationMinutes
              serviceWindows tz rs re) as (all & Hall & _).
  rewrite !Hall. destruct limit as [|n]; [lia|].
  destruct all; reflexivity.
Qed.

End Collation.

End BestFacts.

Module Best.

(** X12.  [selectBestCandidate] returns the first candidate of
    [findCandidates] for any limit of at least one, and none when there is
    no candidate; under a collation that is a total preorder it precedes
    every candidate of the listing in the order of the strategy. *)
Theorem selectBestCandidate_is_the_head_of_every_listing
    (localeCompare : string -> string -> Z)
    (db : Db.t) (sectorId : string) (date partySize durationMinutes : Z)
    (serviceWindows : list ServiceWindow.t) (tz : TimeZone)
    (rs re : option TimeOfDay.t) (limit : nat) :
  (forall x y, 0 < localeCompare x y -> localeCompare y x <= 0) ->
  (forall x y z, localeCompare x y <= 0 -> localeCompare y z <= 0 ->
                 localeCompare x z <= 0) ->
  (1 <= limit)%nat ->
  Wokibrain.selectBestCandidate localeCompare db sectorId date partySize
    durationMinutes serviceWindows tz rs re
  = hd_error (Wokibrain.findCandidates localeCompare db sectorId date partySize
                durationMinutes serviceWindows tz rs re limit)
  /\ (forall best c,
        Wokibrain.selectBestCandidate localeCompare db sectorId date partySize
          durationMinutes serviceWindows tz rs re = Some best ->
        In c (Wokibrain.findCandidates localeCompare db sectorId date partySize
                durationMinutes serviceWindows tz rs re limit) ->
        Spec.precedes localeCompare partySize best c).
Proof.
  intros Htot Htrans Hl.
  split; [apply BestFacts.selectBestCandidate_head, Hl|].
  intros best c Hbest Hc.
  rewrite (@BestFacts.selectBestCandidate_head localeCompare db sectorId date partySize
             durationMinutes serviceWindows tz rs re limit Hl) in Hbest.
  destruct (BestFacts.findCandidates_prefix localeCompare db sectorId date partySize
              durationMinutes serviceWindows tz rs re) as (all & Hall & Hsorted).
  rewrite Hall in Hbest, Hc.
  assert (Hs : StronglySorted (Spec.precedes localeCompare partySize) all).
  { destruct Hsorted as [->|(l & ->)]; [constructor|].
    apply OrderFacts.sort_by_precedes; assumption. }
  apply SortFacts.In_firstn in Hc.
  destruct limit as [|n]; [lia|]. destruct all as [|a all]; [discriminate Hbest|].
  injection Hbest as <-. inversion Hs as [|? ? _ Hf]; subst.
  destruct Hc as [<-|Hc].
  - unfold Spec.precedes. right. split; [reflexivity|]. right. split; [reflexivity|].
    right. split; [reflexivity|].
    destruct (Z_lt_le_dec 0 (localeCompare (Spec.idKey a) (Spec.idKey a))) as [H|H];
      [apply Htot, H | exact H].
  - rewrite Forall_forall in Hf. apply Hf, Hc.
Qed.

End Best.

(** * The booking transaction on its own *)

Module SequentialFacts.

Import BookingService.




Section Collation.
Variable localeCompare : string -> string -> Z.


(** The candidate that goes to the critical section. *)
Lemma prepare_candidate (w w' : World.t) (req : Request)
    (a : Args) (restaurant : Restaurant.t) (candidate : Candidate.t) :
  prepare localeCompare w req = Selected a restaurant candidate w' ->
  exists best,
    Wokibrain.selectBestCandidate localeCompare (World.db w') (a_sectorId a)
      (a_date a) (a_partySize a) (a_durationMinutes a) (windowsOrEmpty restaurant)
      (Restaurant.timezone restaurant) (a_windowStart a) (a_windowEnd a) = Some best
    /\ candidate = withTableIds best (Wokibrain.sortStrings (Candidate.tableIds best))
    /\ Db.getRestaurant (World.db w') (a_restaurantId a) = Some restaurant.
Proof.
  unfold prepare. intro H.
  destruct (validate req) as [a0|e0]; [|discriminate H].
  destruct (lookupIdempotency w (a_idempotencyKey a0)) as [existing w1] eqn:El.
  destruct existing; [discriminate H|].
  destruct (Db.getRestaurant _ _) as [r|] eqn:Er; [|discriminate H].
  destruct (Db.getSector _ _); [|discriminate H].
  destruct (negb _); [discriminate H|].
  destruct (Wokibrain.selectBestCandidate _ _ _ _ _ _ _ _ _ _) as [best|] eqn:Eb.
  - match type of H with
    | (if ?c then _ else _) = _ => destruct c
    end; [discriminate H|].
    unfold Locks.generateLockKey in H. injection H as <- <- <- <-.
    exists best. repeat split; assumption.
  - destruct (enqueue w1 a0 r). discriminate H.
Qed.





End Collation.

End SequentialFacts.

Module Sequential.

Import BookingService.


End Sequential.

Module InvariantFacts.

Import BookingService.



Section Collation.
Variable localeCompare : string -> string -> Z.


End Collation.

End InvariantFacts.

Module Invariant.

Import BookingService.


End Invariant.

Module Outcome.

Import BookingService.

(** X15.  A keyless [createBooking] that returns a booking with tables
    has booked the candidate of [selectBestCandidate]: same interval, its
    table ids sorted, the party size and duration of the request; the
    status is PENDING when the party reaches the large-group threshold of
    the venue (ten by default) and CONFIRMED otherwise; the booking is
    stored under its id and the waitlist is untouched. *)
Theorem createBooking_books_the_best_candidate
    (localeCompare : string -> string -> Z)
    (w w' : World.t) (req : Request) (booking : Booking.t) :
  idempotencyKey req = None ->
  createBooking localeCompare w req = (Ok booking, w') ->
  Booking.tableIds booking <> [] ->
  exists a restaurant best,
    validate req = Ok a
    /\ Db.getRestaurant (World.db w) (a_restaurantId a) = Some restaurant
    /\ Wokibrain.selectBestCandidate localeCompare (World.db w) (a_sectorId a)
         (a_date a) (a_partySize a) (a_durationMinutes a) (windowsOrEmpty restaurant)
         (Restaurant.timezone restaurant) (a_windowStart a) (a_windowEnd a) = Some best
    /\ Booking.tableIds booking = Wokibrain.sortStrings (Candidate.tableIds best)
    /\ Booking.start booking = Candidate.start best
    /\ Booking.end_ booking = Candidate.end_ best
    /\ Booking.partySize booking = a_partySize a
    /\ Booking.durationMinutes booking = a_durationMinutes a
    /\ Booking.status booking
       = (if a_partySize a >=? Vocabulary.largeGroupThreshold restaurant
          then PENDING else CONFIRMED)
    /\ Db.getBooking (World.db w') (Booking.id booking) = Some booking
    /\ Db.waitlist (World.db w') = Db.waitlist (World.db w).
Proof.
  intros Hkey H Htables. unfold createBooking in H.
  destruct (prepare localeCompare w req) as [r w1|a restaurant candidate w1] eqn:Ep.
  - exfalso. injection H as -> ->. unfold prepare in Ep.
    destruct (validate req) as [a|e0] eqn:Ev; [|discriminate Ep].
    pose proof Ev as Hk. apply TransactionFacts.validate_fields in Hk.
    destruct Hk as (Hk & _). rewrite Hkey in Hk.
    rewrite Hk in Ep. cbn [lookupIdempotency] in Ep.
    destruct (Db.getRestaurant _ _) as [restaurant|]; [|discriminate Ep].
    destruct (Db.getSector _ _); [|discriminate Ep].
    destruct (negb _); [discriminate Ep|].
    destruct (Wokibrain.selectBestCandidate _ _ _ _ _ _ _ _ _ _).
    + match type of Ep with
      | (if ?c then _ else _) = _ => destruct c
      end; discriminate Ep.
    + unfold enqueue, Waitlist.addToWaitlist, World.fresh in Ep. cbn in Ep.
      injection Ep as <- _. apply Htables. reflexivity.
  - pose proof Ep as Ep'. apply SequentialFacts.prepare_candidate in Ep'.
    destruct Ep' as (best & Hbest & -> & Hr).
    apply TransactionFacts.prepare_selected in Ep.
    destruct Ep as (_ & _ & Hv & Hl).
    pose proof Hv as Hk. apply TransactionFacts.validate_fields in Hk.
    destruct Hk as (Hk & _). rewrite Hkey in Hk.
    rewrite Hk in Hl. cbn [lookupIdempotency] in Hl. injection Hl as <-.
    exists a, restaurant, best. split; [exact Hv|]. split; [exact Hr|].
    split; [exact Hbest|].
    unfold commit in H. rewrite Hk in H. cbn [lookupIdempotency] in H.
    destruct (JsArray.some _ _); [discriminate H|].
    unfold generateBookingId, World.fresh in H. cbn in H.
    injection H as <- <-.
    cbn [Booking.tableIds Booking.start Booking.end_ Booking.partySize
         Booking.durationMinutes Booking.status Booking.id withTableIds
         Candidate.tableIds Candidate.start Candidate.end_].
    repeat (split; [reflexivity|]).
    split; [|reflexivity].
    unfold Db.getBooking. cbn. apply StoreFacts.get_set_same.
Qed.

(** X16.  A valid keyless request for an existing venue and sector that
    finds no candidate is queued: [createBooking] returns a PENDING
    booking without tables, stored under its id, and the waitlist entry it
    adds is in the queue that [tryPromoteWaitlist] loads for the sector and
    date, expires one hour later and replays the arguments of the
    request. *)
Theorem request_without_candidate_is_queued
    (localeCompare : string -> string -> Z)
    (w : World.t) (req : Request) (a : Args)
    (restaurant : Restaurant.t) (sector : Sector.t) :
  validate req = Ok a ->
  a_idempotencyKey a = None ->
  Db.getRestaurant (World.db w) (a_restaurantId a) = Some restaurant ->
  Db.getSector (World.db w) (a_sectorId a) = Some sector ->
  Sector.restaurantId sector = a_restaurantId a ->
  Wokibrain.selectBestCandidate localeCompare (World.db w) (a_sectorId a)
    (a_date a) (a_partySize a) (a_durationMinutes a) (windowsOrEmpty restaurant)
    (Restaurant.timezone restaurant) (a_windowStart a) (a_windowEnd a) = None ->
  exists booking entry w',
    createBooking localeCompare w req = (Ok booking, w')
    /\ Booking.status booking = PENDING
    /\ Booking.tableIds booking = []
    /\ Db.getBooking (World.db w') (Booking.id booking) = Some booking
    /\ In entry (WaitlistReplay.loadEntries w' (a_sectorId a) (a_date a))
    /\ WaitlistEntry.expiresAt entry = World.now w + 60 * 60 * 1000
    /\ validate (WaitlistReplay.requestOfEntry entry) = Ok a.
Proof.
  intros Hv Hkey Hr Hs Hown Hnone.
  unfold createBooking, prepare. rewrite Hv, Hkey. cbn [lookupIdempotency].
  rewrite Hr, Hs, Hown, String.eqb_refl. cbn [negb]. rewrite Hnone.
  unfold enqueue, Waitlist.addToWaitlist, World.fresh.
  cbn [World.db World.now World.rnd World.tick World.with_db].
  eexists. eexists. eexists. split; [reflexivity|].
  cbn [Booking.status Booking.tableIds Booking.id].
  split; [reflexivity|]. split; [reflexivity|].
  split; [unfold Db.getBooking; cbn; apply StoreFacts.get_set_same|].
  split.
  - apply ReplayFacts.loadEntries_In.
    cbn [World.db World.now World.with_db Db.createBooking Db.createWaitlistEntry
         Db.waitlist Db.with_waitlist Db.with_bookings].
    split; [apply MapFacts.In_values_set_self|].
    cbn [WaitlistEntry.sectorId WaitlistEntry.date WaitlistEntry.expiresAt].
    split; [reflexivity|]. split; [reflexivity|]. lia.
  - cbn [WaitlistEntry.expiresAt]. split; [reflexivity|].
    rewrite (ReplayFacts.frozen_parameters_valid _ _ _ _ _ Hv).
    destruct a. cbn in Hkey |- *. rewrite Hkey. reflexivity.
Qed.

End Outcome.

(** * Cache, lock keys, clock times and duration rules *)

Module CacheFacts.

(** X17.  A result stored by [setIdempotency] is returned by
    [getIdempotency] up to and including the instant its time to live ends,
    and the lookup changes nothing; a later lookup returns nothing and
    removes the entry.  Other keys and the bookings are unaffected. *)
Theorem idempotency_entry_lives_for_its_ttl
    (now now' : Z) (db : Db.t) (key : string) (b : Booking.t) (ttlSeconds : Z) :
  let db1 := Db.setIdempotency now db key b ttlSeconds in
  (now' <= now + ttlSeconds * 1000 ->
     Db.getIdempotency now' db1 key = (Some b, db1))
  /\ (now + ttlSeconds * 1000 < now' ->
      fst (Db.getIdempotency now' db1 key) = None
      /\ JsMap.get (Db.idempotencyCache (snd (Db.getIdempotency now' db1 key))) key
         = None)
  /\ (forall other, other <> key ->
        fst (Db.getIdempotency now' db1 other) = fst (Db.getIdempotency now' db other))
  /\ Db.bookings db1 = Db.bookings db.
Proof.
  cbv zeta. unfold Db.getIdempotency, Db.setIdempotency.
  cbn [Db.idempotencyCache Db.with_idempotencyCache].
  rewrite StoreFacts.get_set_same.
  split; [|split; [|split]].
  - intro H. destruct (now' >? now + ttlSeconds * 1000) eqn:E; [lia | reflexivity].
  - intro H. destruct (now' >? now + ttlSeconds * 1000) eqn:E; [|lia].
    cbn [fst snd Db.idempotencyCache Db.with_idempotencyCache].
    split; [reflexivity | apply StoreFacts.get_delete_same].
  - intros other Ho. rewrite StoreFacts.get_set_other by congruence.
    destruct (JsMap.get (Db.idempotencyCache db) other) as [[b0 e0]|]; [|reflexivity].
    destruct (now' >? e0); reflexivity.
  - reflexivity.
Qed.

End CacheFacts.

Module LockFacts.

(** Two sorted lists with the same elements are the same list, for an
    antisymmetric order. *)
Lemma sorted_unique (A : Type) (R : A -> A -> Prop) :
  (forall a b, R a b -> R b a -> a = b) ->
  forall l1 l2 : list A,
    StronglySorted R l1 -> StronglySorted R l2 -> Permutation l1 l2 -> l1 = l2.
Proof.
  intros Hanti. induction l1 as [|a l1 IH]; intros l2 H1 H2 Hp.
  - apply Permutation_nil in Hp. subst. reflexivity.
  - destruct l2 as [|b l2].
    { apply Permutation_sym, Permutation_nil in Hp. discriminate. }
    inversion H1 as [|? ? Hs1 Hf1]; subst. inversion H2 as [|? ? Hs2 Hf2]; subst.
    rewrite Forall_forall in Hf1, Hf2.
    assert (Eab : a = b).
    { assert (Ha : In a (b :: l2)) by (eapply Permutation_in; [exact Hp | left; reflexivity]).
      assert (Hb : In b (a :: l1))
        by (eapply Permutation_in; [apply Permutation_sym, Hp | left; reflexivity]).
      destruct Ha as [<-|Ha]; [reflexivity|].
      destruct Hb as [->|Hb]; [reflexivity|].
      apply Hanti; [apply Hf1, Hb | apply Hf2, Ha]. }
    subst b. f_equal. apply IH; try assumption.
    eapply Permutation_cons_inv. exact Hp.
Qed.

Lemma string_compare_eq (a b : string) : String.compare a b = Eq -> a = b.
Proof. apply String.compare_eq_iff. Qed.

Lemma codeUnitOrder_antisym (a b : string) :
  Wokibrain.codeUnitOrder a b <= 0 -> Wokibrain.codeUnitOrder b a <= 0 -> a = b.
Proof.
  unfold Wokibrain.codeUnitOrder. rewrite (String.compare_antisym b a).
  destruct (String.compare a b) eqn:E; simpl; try lia.
  intros _ _. apply string_compare_eq, E.
Qed.

Lemma sortStrings_permutation (l l' : list string) :
  Permutation l l' -> Wokibrain.sortStrings l = Wokibrain.sortStrings l'.
Proof.
  intro Hp. unfold Wokibrain.sortStrings.
  apply sorted_unique with (R := JsArray.le Wokibrain.codeUnitOrder).
  - apply codeUnitOrder_antisym.
  - apply SortFacts.sort_sorted;
      [apply OrderFacts.codeUnitOrder_total | apply OrderFacts.codeUnitOrder_trans].
  - apply SortFacts.sort_sorted;
      [apply OrderFacts.codeUnitOrder_total | apply OrderFacts.codeUnitOrder_trans].
  - eapply perm_trans; [apply SortFacts.sort_perm|].
    eapply perm_trans; [exact Hp|]. apply Permutation_sym, SortFacts.sort_perm.
Qed.

(** X18.  [generateLockKey] does not depend on the order of the table
    ids: two requests for the same tables and start contend for the same
    lock. *)
Theorem generateLockKey_ignores_the_order_of_tables
    (restaurantId sectorId : string) (tables tables' : list string)
    (start : ISODateTime) :
  Permutation tables tables' ->
  Locks.generateLockKey restaurantId sectorId tables start
  = Locks.generateLockKey restaurantId sectorId tables' start.
Proof.
  intro Hp. unfold Locks.generateLockKey.
  rewrite (sortStrings_permutation Hp). reflexivity.
Qed.

End LockFacts.

Module ClockFacts.

(** X19.  For a zone whose offset does not change and clock times with
    minutes below sixty, [toZonedIso] keeps the order of the clock: the order
    of two ["HH:MM"] strings, which [createBooking] compares, is the order of
    the instants, which [findCandidates] and [assertWindowWithinService]
    compare. *)
Theorem toZonedIso_follows_the_clock
    (date : Z) (tz : TimeZone) (a b : TimeOfDay.t) :
  (forall t t', tz t = tz t') ->
  0 <= TimeOfDay.minute a < 60 -> 0 <= TimeOfDay.minute b < 60 ->
  (TimeOfDay.ltb a b = true
   <-> Gaps.toZonedIso date a tz < Gaps.toZonedIso date b tz)
  /\ (TimeOfDay.leb a b = true
      <-> Gaps.toZonedIso date a tz <= Gaps.toZonedIso date b tz).
Proof.
  intros Htz Ha Hb. unfold Gaps.toZonedIso, TimeOfDay.leb, TimeOfDay.ltb.
  rewrite (Htz (date * 86400000 + TimeOfDay.hour a * 3600000 + TimeOfDay.minute a * 60000)
               (date * 86400000 + TimeOfDay.hour b * 3600000 + TimeOfDay.minute b * 60000)).
  rewrite negb_true_iff, orb_false_iff, orb_true_iff, !andb_true_iff, andb_false_iff.
  rewrite !Z.ltb_lt, !Z.ltb_ge, Z.eqb_eq, Z.eqb_neq.
  split; split; intro H; lia.
Qed.

End ClockFacts.

Module RuleFacts.

Import DurationRules Vocabulary.

Lemma ceilDiv_15 (d : Z) :
  (ceilDiv d 15 * 15) mod 15 = 0 /\ d <= ceilDiv d 15 * 15 < d + 15.
Proof.
  unfold ceilDiv. split; [apply Z.mod_mul; lia|].
  pose proof (Z.div_mod (- d) 15 ltac:(lia)).
  pose proof (Z.mod_pos_bound (- d) 15 ltac:(lia)). lia.
Qed.

(** X20.  When some rule admits the party size,
    [calculateDurationByPartySize] takes the first such rule of the list and
    returns its duration rounded up to the next multiple of fifteen. *)
Theorem duration_is_the_first_matching_rule_rounded_up
    (partySize : Z) (rules : list DurationRule) :
  Exists (fun r => admits partySize r = true) rules ->
  exists earlier rule later,
    rules = earlier ++ rule :: later
    /\ Forall (fun r => admits partySize r = false) earlier
    /\ admits partySize rule = true
    /\ calculateDurationByPartySize partySize rules mod 15 = 0
    /\ durationMinutes rule <= calculateDurationByPartySize partySize rules
       < durationMinutes rule + 15.
Proof.
  unfold calculateDurationByPartySize. fold (admits partySize).
  change (fun r => match maxPartySize r with
                   | Some m => partySize <=? m
                   | None => true
                   end) with (admits partySize).
  induction rules as [|r rules IH]; intro Hex; [inversion Hex|].
  cbn [find]. destruct (admits partySize r) eqn:Er.
  - exists [], r, rules. split; [reflexivity|]. split; [constructor|].
    split; [exact Er|]. apply ceilDiv_15.
  - assert (Hex' : Exists (fun r => admits partySize r = true) rules).
    { inversion Hex as [? ? H|? ? H]; subst; [congruence | exact H]. }
    destruct (IH Hex') as (earlier & rule & later & -> & Hf & Ha & Hrest).
    exists (r :: earlier), rule, later. split; [reflexivity|].
    split; [constructor; assumption|]. split; [exact Ha|].
    destruct (find (admits partySize) (earlier ++ rule :: later)) eqn:Ef.
    + exact Hrest.
    + exfalso.
      assert (Hn : admits partySize rule = false).
      { apply (find_none _ _ Ef rule). apply in_or_app. right. left. reflexivity. }
      congruence.
Qed.

End RuleFacts.

(** * The remaining handlers *)

Module HandlerFacts.


(** X22.  [POST /woki/bookings/:id/approve] on a stored booking: unless
    the booking is PENDING the answer is 400 and nothing changes; a
    PENDING booking is answered 200 with the booking set to CONFIRMED and
    its update time to now, the store holds that booking under the same id,
    the other bookings are untouched, and a second approval is refused with
    400. *)
Theorem approve_confirms_pending_only
    (w : World.t) (bookingId : string) (booking : Booking.t) :
  Db.getBooking (World.db w) bookingId = Some booking ->
  (Booking.status booking <> PENDING ->
     Routes.approve w bookingId = (Routes.Rejected 400 invalid_input, w))
  /\ (Booking.status booking = PENDING ->
      let confirmed := Db.with_status booking CONFIRMED (World.now w) in
      let w' := snd (Routes.approve w bookingId) in
      fst (Routes.approve w bookingId) = Routes.Json 200 confirmed
      /\ Db.getBooking (World.db w') bookingId = Some confirmed
      /\ (forall other, other <> bookingId ->
            Db.getBooking (World.db w') other = Db.getBooking (World.db w) other)
      /\ Routes.approve w' bookingId = (Routes.Rejected 400 invalid_input, w')).
Proof.
  intro Hget. split.
  - intro Hs. unfold Routes.approve. rewrite Hget.
    destruct (Booking.status booking); try reflexivity. congruence.
  - intro Hs. cbv zeta.
    assert (E : Routes.approve w bookingId
                = (Routes.Json 200 (Db.with_status booking CONFIRMED (World.now w)),
                   World.with_db w
                     (Db.with_bookings (World.db w)
                        (JsMap.set (Db.bookings (World.db w)) bookingId
                           (Db.with_status booking CONFIRMED (World.now w)))))).
    { unfold Routes.approve. rewrite Hget, Hs. cbn [BookingStatus_eqb negb].
      unfold Db.updateBooking. unfold Db.getBooking in Hget. rewrite Hget.
      unfold Db.getBooking. cbn [Db.with_bookings Db.bookings].
      rewrite StoreFacts.get_set_same. reflexivity. }
    rewrite E. cbn [fst snd].
    unfold Db.getBooking. cbn [World.db World.with_db Db.bookings Db.with_bookings].
    split; [reflexivity|]. split; [apply StoreFacts.get_set_same|].
    split; [intros other Ho; apply StoreFacts.get_set_other; congruence|].
    unfold Routes.approve, Db.getBooking.
    cbn [World.db World.with_db Db.bookings Db.with_bookings].
    rewrite StoreFacts.get_set_same. reflexivity.
Qed.

End HandlerFacts.

Module Rejection.

(** X23.  [POST /woki/bookings/:id/reject] on a stored booking: unless
    the booking is PENDING the answer is 400 and nothing changes; a
    PENDING booking is answered 204 and removed, the other bookings are
    untouched, tables stay single-booked, and a second rejection finds
    nothing. *)
Theorem reject_removes_pending_only
    (w : World.t) (bookingId : string) (booking : Booking.t) :
  Db.getBooking (World.db w) bookingId = Some booking ->
  (Booking.status booking <> PENDING ->
     Routes.reject w bookingId = (Routes.Rejected 400 invalid_input, w))
  /\ (Booking.status booking = PENDING ->
      let w' := snd (Routes.reject w bookingId) in
      fst (Routes.reject w bookingId) = Routes.Empty 204
      /\ Db.getBooking (World.db w') bookingId = None
      /\ (forall other, other <> bookingId ->
            Db.getBooking (World.db w') other = Db.getBooking (World.db w) other)
      /\ (Spec.noDoubleBooking (World.db w) = true ->
          Spec.noDoubleBooking (World.db w') = true)
      /\ Routes.reject w' bookingId = (Routes.Next not_found, w')).
Proof.
  intro Hget. split.
  - intro Hs. unfold Routes.reject. rewrite Hget.
    destruct (Booking.status booking); try reflexivity. congruence.
  - intro Hs. cbv zeta.
    assert (E : Routes.reject w bookingId
                = (Routes.Empty 204,
                   World.with_db w (Db.deleteBooking (World.db w) bookingId))).
    { unfold Routes.reject. rewrite Hget, Hs. reflexivity. }
    rewrite E. cbn [fst snd].
    unfold Db.getBooking, Db.deleteBooking.
    cbn [World.db World.with_db Db.bookings Db.with_bookings].
    split; [reflexivity|]. split; [apply StoreFacts.get_delete_same|].
    split; [intros other Ho; apply StoreFacts.get_delete_other; congruence|].
    split; [apply DoubleBooking.pairwiseFree_delete|].
    unfold Routes.reject, Db.getBooking.
    cbn [World.db World.with_db Db.bookings Db.with_bookings].
    rewrite StoreFacts.get_delete_same. reflexivity.
Qed.

End Rejection.

Module Discovery.

(** X24.  A 200 answer of [GET /woki/discover] carries the candidates of
    [findCandidates] for a duration that is a multiple of fifteen, at most
    [limit] of them and at least one, and the first of them is the candidate
    [selectBestCandidate], hence [createBooking], picks for the same
    parameters. *)
Theorem discover_lists_first_what_a_booking_would_take
    (localeCompare : string -> string -> Z)
    (w : World.t) (params : Handlers.DiscoverParams) (body : Handlers.DiscoverBody) :
  (1 <= Handlers.limit params)%nat ->
  Handlers.discover localeCompare w params = Handlers.Json 200 body ->
  exists restaurant best,
    Db.getRestaurant (World.db w) (Handlers.restaurantId params) = Some restaurant
    /\ Z.rem (Handlers.durationMinutes body) 15 = 0
    /\ Handlers.candidates body
       = Wokibrain.findCandidates localeCompare (World.db w)
           (Handlers.sectorId params) (Handlers.date params)
           (Handlers.partySize params) (Handlers.durationMinutes body)
           (BookingService.windowsOrEmpty restaurant) (Restaurant.timezone restaurant)
           (Handlers.windowStart params) (Handlers.windowEnd params)
           (Handlers.limit params)
    /\ hd_error (Handlers.candidates body) = Some best
    /\ Wokibrain.selectBestCandidate localeCompare (World.db w)
         (Handlers.sectorId params) (Handlers.date params)
         (Handlers.partySize params) (Handlers.durationMinutes body)
         (BookingService.windowsOrEmpty restaurant) (Restaurant.timezone restaurant)
         (Handlers.windowStart params) (Handlers.windowEnd params)
       = Some best
    /\ (List.length (Handlers.candidates body) <= Handlers.limit params)%nat.
Proof.
  intros Hl H. unfold Handlers.discover in H.
  destruct (Db.getRestaurant _ _) as [restaurant|]; [|discriminate H].
  destruct (Db.getSector _ _) as [sector|]; [|discriminate H].
  destruct (negb (String.eqb _ _)); [discriminate H|].
  match type of H with
  | (if negb (Z.rem ?d 15 =? 0) then _ else _) = _ =>
      set (duration := d) in *; destruct (Z.eqb_spec (Z.rem duration 15) 0) as [Hd|];
      cbn [negb] in H; [|discriminate H]
  end.
  destruct (Routes.assertWindowWithinService _ _ _ _ _); [|discriminate H].
  match type of H with
  | match ?cs with [] => _ | _ :: _ => _ end = _ =>
      destruct cs as [|best rest] eqn:Ec; [discriminate H|]
  end.
  injection H as <-. cbn [Handlers.durationMinutes Handlers.candidates].
  exists restaurant, best. split; [reflexivity|]. split; [exact Hd|].
  split; [symmetry; exact Ec|]. split; [reflexivity|]. split.
  - rewrite (@BestFacts.selectBestCandidate_head localeCompare _ _ _ _ _ _ _ _ _ _ Hl).
    rewrite Ec. reflexivity.
  - rewrite <- Ec.
    destruct (BestFacts.findCandidates_prefix localeCompare (World.db w)
                (Handlers.sectorId params) (Handlers.date params)
                (Handlers.partySize params) duration
                (BookingService.windowsOrEmpty restaurant)
                (Restaurant.timezone restaurant)
                (Handlers.windowStart params) (Handlers.windowEnd params))
      as (all & Hall & _).
    rewrite Hall. rewrite length_firstn. lia.
Qed.

End Discovery.

Module ListingFacts.


End ListingFacts.

Module Listing.


End Listing.

Module BlackoutHandlers.

(** X26.  After [POST /woki/blackouts] has answered 201 for a non-empty
    period, the blackout is stored under its id, the bookings are as
    before, and for a venue with service windows and a positive duration
    no candidate on the table overlaps the period. *)
Theorem blackout_takes_its_table_off_the_listing
    (localeCompare : string -> string -> Z)
    (w w' : World.t) (body : Handlers.CreateBlackoutBody) (blackout : Blackout.t)
    (sectorId : string) (date partySize durationMinutes : Z)
    (serviceWindows : list ServiceWindow.t) (tz : TimeZone)
    (rs re : option TimeOfDay.t) (limit : nat) (c : Candidate.t) :
  Handlers.createBlackout w body = (Handlers.Json 201 blackout, w') ->
  Handlers.blackoutStart body < Handlers.blackoutEnd body ->
  0 < durationMinutes ->
  serviceWindows <> [] ->
  In c (Wokibrain.findCandidates localeCompare (World.db w') sectorId date partySize
          durationMinutes serviceWindows tz rs re limit) ->
  In (Handlers.tableId body) (Candidate.tableIds c) ->
  DbQueries.getBlackout (World.db w') (Blackout.id blackout) = Some blackout
  /\ Db.bookings (World.db w') = Db.bookings (World.db w)
  /\ (Candidate.end_ c <= Handlers.blackoutStart body
      \/ Handlers.blackoutEnd body <= Candidate.start c).
Proof.
  intros H Hwf Hd Hw Hc Htc. unfold Handlers.createBlackout in H.
  destruct (DbQueries.getTable _ _); [|discriminate H].
  unfold World.fresh in H. injection H as <- <-.
  cbn [World.db World.with_db Db.createBlackout Blackout.id] in *.
  unfold DbQueries.getBlackout. cbn [Db.blackouts Db.with_blackouts Db.bookings].
  split; [apply StoreFacts.get_set_same|]. split; [reflexivity|].
  apply CandidateSafety.candidate_instant_free in Hc.
  destruct Hc as (aw & Haw & Hlen & Hfree).
  specialize (Haw Hw). destruct aw as [|w0 ws]; [congruence|].
  destruct (Z_le_gt_dec (Candidate.end_ c) (Handlers.blackoutStart body)) as [|H1];
    [left; assumption|].
  destruct (Z_le_gt_dec (Handlers.blackoutEnd body) (Candidate.start c)) as [|H2];
    [right; assumption|].
  exfalso.
  set (at_ := Z.max (Handlers.blackoutStart body) (Candidate.start c)).
  assert (Ht : Candidate.start c <= at_ < Candidate.end_ c) by (unfold at_; lia).
  specialize (Hfree at_ _ Ht Htc).
  apply IntervalFacts.findTableGaps_windows_covers in Hfree.
  destruct Hfree as (_ & _ & Hbl).
  apply (Hbl (Blackout.mk ("BL_" ++ World.rnd w (World.tick w))
                (Handlers.tableId body) (Handlers.blackoutStart body)
                (Handlers.blackoutEnd body) (Handlers.reason body))).
  - apply QueryFacts.getBlackoutsByTables_In. cbn [Db.blackouts Db.with_blackouts].
    split; [apply MapFacts.In_values_set_self | left; reflexivity].
  - cbn [Blackout.start Blackout.end_]. unfold at_. lia.
Qed.

End BlackoutHandlers.

Module CleanupFacts.

Import Vocabulary.

Lemma with_waitlist_twice (db : Db.t) (a b : JsMap.t WaitlistEntry.t) :
  Db.with_waitlist (Db.with_waitlist db a) b = Db.with_waitlist db b.
Proof. reflexivity. Qed.

Lemma cleanup_fold (now : Z) (db : Db.t) (todo : JsMap.t WaitlistEntry.t) :
  forall (done : JsMap.t WaitlistEntry.t) (count : Z),
    NoDup (JsMap.keys (done ++ todo)) ->
    fold_left (expire now) todo
      (count, Db.with_waitlist db (filter (fun kv => live now (snd kv)) done ++ todo))
    = (count + Z.of_nat (List.length todo)
       - Z.of_nat (List.length (filter (fun kv => live now (snd kv)) todo)),
       Db.with_waitlist db
         (filter (fun kv => live now (snd kv)) done
          ++ filter (fun kv => live now (snd kv)) todo)).
Proof.
  set (f := fun kv : string * WaitlistEntry.t => live now (snd kv)).
  induction todo as [|[k e] todo IH]; intros done count Hnd.
  - simpl. f_equal. lia.
  - assert (Hk : ~ In k (JsMap.keys done) /\ ~ In k (JsMap.keys todo)).
    { unfold JsMap.keys in *. rewrite map_app in Hnd. simpl in Hnd.
      apply NoDup_remove_2 in Hnd. rewrite in_app_iff in Hnd. tauto. }
    destruct Hk as [Hk1 Hk2].
    assert (Hnd' : NoDup (JsMap.keys ((done ++ [(k, e)]) ++ todo))).
    { rewrite <- app_assoc. exact Hnd. }
    pose proof (fun count => IH (done ++ [(k, e)]) count Hnd') as IH'.
    rewrite filter_app in IH'. cbn [filter] in IH'.
    change (f (k, e)) with (negb (WaitlistEntry.expiresAt e <? now)) in IH'.
    cbn [fold_left filter].
    change (f (k, e)) with (negb (WaitlistEntry.expiresAt e <? now)).
    unfold expire at 2.
    destruct (WaitlistEntry.expiresAt e <? now) eqn:Ex; cbn [negb] in *.
    + rewrite app_nil_r in IH'.
      unfold Db.deleteWaitlistEntry. cbn [Db.waitlist Db.with_waitlist].
      rewrite MapFacts.delete_middle;
        [| intro Hin; apply MapFacts.keys_filter in Hin; contradiction | exact Hk2].
      change (Db.with_waitlist
                (Db.with_waitlist db (filter f done ++ (k, e) :: todo))
                (filter f done ++ todo))
        with (Db.with_waitlist db (filter f done ++ todo)).
      rewrite IH'. f_equal. cbn [List.length]. rewrite Nat2Z.inj_succ. lia.
    + rewrite <- !app_assoc in IH'. cbn [app] in IH'.
      rewrite IH'. f_equal. cbn [List.length]. rewrite !Nat2Z.inj_succ. lia.
Qed.

Lemma cleanup_result (now : Z) (db : Db.t) :
  NoDup (JsMap.keys (Db.waitlist db)) ->
  DbQueries.cleanupExpiredWaitlistEntries now db
  = (Z.of_nat (List.length (Db.waitlist db))
     - Z.of_nat (List.length (filter (fun kv => live now (snd kv)) (Db.waitlist db))),
     Db.with_waitlist db (filter (fun kv => live now (snd kv)) (Db.waitlist db))).
Proof.
  intro Hnd. unfold DbQueries.cleanupExpiredWaitlistEntries.
  pose proof (@cleanup_fold now db (Db.waitlist db) [] 0) as H.
  cbn [filter app] in H. specialize (H Hnd).
  replace (Db.with_waitlist db (Db.waitlist db)) with db in H by (destruct db; reflexivity).
  exact H.
Qed.

Lemma NoDup_keys_filter (p : string * WaitlistEntry.t -> bool)
    (m : JsMap.t WaitlistEntry.t) :
  NoDup (JsMap.keys m) -> NoDup (JsMap.keys (filter p m)).
Proof.
  unfold JsMap.keys. induction m as [|[k e] m IH]; simpl; intro H; [constructor|].
  inversion H as [|? ? Hk Hm]; subst.
  destruct (p (k, e)); simpl; [|apply IH, Hm].
  constructor; [|apply IH, Hm].
  intro Hin. apply Hk. apply (@MapFacts.keys_filter _ p m k Hin).
Qed.

End CleanupFacts.

Module StoreRoundTrips.

(** X27.  [POST /woki/waitlist/cleanup] answers 200 with the number of
    waitlist entries whose expiry lies before now and deletes exactly
    those, keeping the others in their order; the bookings are untouched,
    no listing of a sector and date changes, since a listing shows no
    expired entry in the first place, and a second cleanup finds nothing.
    The keys of the map are distinct, as those of a JavaScript [Map]
    are. *)
Theorem cleanup_drops_expired_only (w : World.t) :
  NoDup (JsMap.keys (Db.waitlist (World.db w))) ->
  let w' := snd (Handlers.cleanupWaitlist w) in
  let kept :=
    filter (fun e => negb (WaitlistEntry.expiresAt e <? World.now w))
           (JsMap.values (Db.waitlist (World.db w))) in
  fst (Handlers.cleanupWaitlist w)
  = Handlers.Json 200
      (Z.of_nat (List.length (JsMap.values (Db.waitlist (World.db w))))
       - Z.of_nat (List.length kept))
  /\ JsMap.values (Db.waitlist (World.db w')) = kept
  /\ (forall sectorId date,
        Db.getWaitlistEntriesBySectorAndDate (World.now w) (World.db w') sectorId date
        = Db.getWaitlistEntriesBySectorAndDate (World.now w) (World.db w) sectorId date)
  /\ Db.bookings (World.db w') = Db.bookings (World.db w)
  /\ fst (Handlers.cleanupWaitlist w') = Handlers.Json 200 0.
Proof.
  intro Hnd. cbv zeta. unfold Handlers.cleanupWaitlist.
  rewrite (@CleanupFacts.cleanup_result (World.now w) (World.db w) Hnd).
  cbn [fst snd World.db World.now World.with_db Db.waitlist Db.with_waitlist Db.bookings].
  change (fun e => negb (WaitlistEntry.expiresAt e <? World.now w))
    with (Vocabulary.live (World.now w)).
  rewrite <- (MapFacts.values_filter (Vocabulary.live (World.now w))).
  split.
  { unfold JsMap.values. rewrite !length_map. reflexivity. }
  split; [destruct w; reflexivity|].
  split.
  - intros sectorId date. unfold Db.getWaitlistEntriesBySectorAndDate.
    destruct w as [db now rnd tick].
    cbn [World.db World.now World.with_db Db.waitlist Db.with_waitlist].
    rewrite (MapFacts.values_filter (Vocabulary.live now)).
    rewrite MapFacts.filter_filter_implied; [reflexivity|].
    intros e He. apply andb_true_iff in He. destruct He as [_ He].
    unfold Vocabulary.live. apply negb_true_iff. lia.
  - split; [destruct w; reflexivity|].
    destruct w as [db now rnd tick].
    cbn [World.db World.now World.with_db] in *.
    rewrite CleanupFacts.cleanup_result.
    + cbn [fst Db.waitlist Db.with_waitlist].
      rewrite MapFacts.filter_filter_implied by auto.
      f_equal. lia.
    + cbn [Db.waitlist Db.with_waitlist].
      apply CleanupFacts.NoDup_keys_filter, Hnd.
Qed.

End StoreRoundTrips.

(** * Error answers and metrics *)

Module ErrorFacts.

Import Vocabulary.

Lemma hasColon_app (a b : string) :
  hasColon (a ++ b) = hasColon a || hasColon b.
Proof.
  induction a as [|c a IH]; simpl; [reflexivity|].
  rewrite IH. apply orb_assoc.
Qed.

Lemma zodMessage_colon (issue : ErrorHandling.ZodIssue) (rest : list ErrorHandling.ZodIssue) :
  hasColon (ErrorHandling.zodMessage (issue :: rest)) = true.
Proof.
  unfold ErrorHandling.zodMessage, Wokibrain.join. cbn [map String.concat].
  destruct (map _ rest).
  - rewrite !hasColon_app. simpl. apply orb_true_r.
  - rewrite !hasColon_app. simpl. rewrite orb_true_r. reflexivity.
Qed.

Lemma eqb_no_colon (s name : string) :
  hasColon s = true -> hasColon name = false -> String.eqb s name = false.
Proof.
  intros Hs Hn. destruct (String.eqb_spec s name); [|reflexivity].
  subst. congruence.
Qed.

(** X28.  A request that fails the schema of its handler is answered 500
    [internal_error]: the handler overwrites the message of the
    [invalid_input] error it passes on with the list of issues, and neither
    [handleError] nor [errorHandler] recognises that message. *)
Theorem schema_violation_is_answered_500 (errors : list ErrorHandling.ZodIssue) :
  ErrorHandling.handleError (ErrorHandling.zodMessage errors)
  = (500, "internal_error"%string)
  /\ ErrorHandling.errorHandler (ErrorHandling.zodMessage errors)
     = (500, "internal_error"%string).
Proof.
  destruct errors as [|issue rest]; [split; reflexivity|].
  pose proof (zodMessage_colon issue rest) as Hc.
  unfold ErrorHandling.handleError, ErrorHandling.errorHandler.
  rewrite !(@eqb_no_colon (ErrorHandling.zodMessage (issue :: rest)) _ Hc) by reflexivity.
  split; reflexivity.
Qed.

End ErrorFacts.

Module MetricsFacts.

Import MetricsStore.

Lemma updatePerformanceStats_times (m : Metrics) :
  assignmentTimes (updatePerformanceStats m) = assignmentTimes m.
Proof.
  unfold updatePerformanceStats. destruct (assignmentTimes m) eqn:E; [exact E|].
  reflexivity.
Qed.

(** X29.  [recordAssignmentTime] keeps a window of the latest thousand
    times: from a store holding at most a thousand it leads to a store
    holding at most a thousand, namely the previous times followed by the
    new one, without the oldest when that makes a thousand and one. *)
Theorem recordAssignmentTime_keeps_the_latest (m : Metrics) (ms : Z) :
  (List.length (assignmentTimes m) <= MAX_ASSIGNMENT_TIMES)%nat ->
  let pushed := assignmentTimes m ++ [ms] in
  let m' := recordAssignmentTime m ms in
  (List.length (assignmentTimes m') <= MAX_ASSIGNMENT_TIMES)%nat
  /\ assignmentTimes m' = skipn (List.length pushed - MAX_ASSIGNMENT_TIMES) pushed
  /\ exists earlier, assignmentTimes m' = earlier ++ [ms].
Proof.
  intro Hlen. cbv zeta. unfold recordAssignmentTime.
  rewrite updatePerformanceStats_times. cbn [with_times assignmentTimes].
  rewrite length_app. cbn [List.length].
  destruct (Nat.ltb_spec MAX_ASSIGNMENT_TIMES (List.length (assignmentTimes m) + 1)) as [Hgt|Hle].
  - assert (E : List.length (assignmentTimes m) = MAX_ASSIGNMENT_TIMES) by lia.
    destruct (assignmentTimes m) as [|t0 times] eqn:Et; [discriminate E|].
    cbn [app tl]. rewrite length_app. cbn [List.length] in *.
    replace (S (List.length times) + 1 - MAX_ASSIGNMENT_TIMES)%nat with 1%nat by lia.
    split; [lia|]. split; [reflexivity|]. exists times. reflexivity.
  - rewrite length_app. cbn [List.length].
    replace (List.length (assignmentTimes m) + 1 - MAX_ASSIGNMENT_TIMES)%nat
      with 0%nat by lia.
    split; [lia|]. split; [reflexivity|]. exists (assignmentTimes m). reflexivity.
Qed.

Lemma byValue_sorted (l : list Z) :
  StronglySorted Z.le (JsArray.sort byValue l).
Proof.
  eapply SortFacts.StronglySorted_impl.
  2:{ apply SortFacts.sort_sorted; unfold byValue; intros; lia. }
  intros a b. unfold JsArray.le, byValue. lia.
Qed.

Lemma p95Index_lt (n : nat) : (0 < n)%nat -> (p95Index n < n)%nat.
Proof.
  intro H. unfold p95Index. apply Nat.Div0.div_lt_upper_bound. lia.
Qed.

(** In a sorted list the elements up to a position are at most the one at
    that position, those from it on at least. *)
Lemma sorted_nth (l : list Z) :
  StronglySorted Z.le l ->
  forall i v, nth_error l i = Some v ->
    Forall (fun x => x <= v) (firstn (S i) l)
    /\ Forall (fun x => v <= x) (skipn i l).
Proof.
  induction 1 as [|a l Hs IH Ha]; intros i v Hi.
  - destruct i; discriminate.
  - destruct i as [|i]; simpl in Hi.
    + injection Hi as <-. split.
      * simpl. constructor; [lia | constructor].
      * simpl. constructor; [lia | exact Ha].
    + destruct (IH i v Hi) as [H1 H2]. split; [|exact H2].
      change (firstn (S (S i)) (a :: l)) with (a :: firstn (S i) l).
      constructor; [|exact H1].
      rewrite Forall_forall in Ha. apply Ha. eapply nth_error_In. exact Hi.
Qed.

Lemma count_at_least (p : Z -> bool) (l l' : list Z) :
  Forall (fun x => p x = true) l' ->
  (exists l1 l2, l = l1 ++ l' ++ l2) ->
  (List.length l' <= List.length (filter p l))%nat.
Proof.
  intros Hf (l1 & l2 & ->). rewrite !filter_app, !length_app.
  assert (E : filter p l' = l').
  { induction Hf as [|x l' Hx _ IH]; simpl; [reflexivity|].
    rewrite Hx, IH. reflexivity. }
  rewrite E. lia.
Qed.

Lemma filter_length_perm (p : Z -> bool) (l l' : list Z) :
  Permutation l l' -> List.length (filter p l) = List.length (filter p l').
Proof.
  induction 1; simpl.
  - reflexivity.
  - destruct (p x); simpl; congruence.
  - destruct (p x), (p y); reflexivity.
  - congruence.
Qed.

(** X30.  After [recordAssignmentTime] the 95th percentile is defined and
    is one of the times held: more than 95 percent of them are at most
    it, and at least 5 percent are at least it. *)
Theorem p95_is_a_recorded_time_above_95_percent (m : Metrics) (ms : Z) :
  let m' := recordAssignmentTime m ms in
  let times := assignmentTimes m' in
  exists v,
    p95AssignmentTime m' = Some v
    /\ In v times
    /\ (95 * List.length times
        < 100 * List.length (filter (fun x => Z.leb x v) times))%nat
    /\ (5 * List.length times
        <= 100 * List.length (filter (fun x => Z.leb v x) times))%nat.
Proof.
  cbv zeta. unfold recordAssignmentTime.
  set (kept := if (MAX_ASSIGNMENT_TIMES <? _)%nat then _ else _).
  assert (Hne : kept <> []).
  { unfold kept. destruct (MAX_ASSIGNMENT_TIMES <? _)%nat eqn:E.
    - apply Nat.ltb_lt in E. rewrite length_app in E. cbn [List.length] in E.
      destruct (assignmentTimes m) as [|t0 [|t1 times]]; simpl in *;
        unfold MAX_ASSIGNMENT_TIMES in E; try lia; discriminate.
    - destruct (assignmentTimes m); discriminate. }
  unfold updatePerformanceStats. cbn [with_times assignmentTimes].
  destruct kept as [|t0 times] eqn:Ek; [congruence|]. rewrite <- Ek. clear Hne.
  cbn [p95AssignmentTime assignmentTimes].
  set (sorted := JsArray.sort byValue kept).
  assert (Hperm : Permutation sorted kept) by apply SortFacts.sort_perm.
  assert (Hlen : List.length sorted = List.length kept)
    by (apply Permutation_length, Hperm).
  assert (Hpos : (0 < List.length sorted)%nat) by (rewrite Hlen, Ek; simpl; lia).
  pose proof (p95Index_lt Hpos) as Hidx.
  destruct (nth_error sorted (p95Index (List.length sorted))) as [v|] eqn:En.
  2:{ apply nth_error_None in En. lia. }
  exists v. split; [reflexivity|].
  split; [eapply Permutation_in; [exact Hperm | eapply nth_error_In; exact En]|].
  destruct (sorted_nth (byValue_sorted kept) _ En) as [Hlow Hhigh].
  fold sorted in Hlow, Hhigh.
  rewrite <- !(filter_length_perm _ Hperm), <- Hlen.
  split.
  - assert (H : (List.length (firstn (S (p95Index (List.length sorted))) sorted)
                 <= List.length (filter (fun x => Z.leb x v) sorted))%nat).
    { apply count_at_least.
      - eapply Forall_impl; [|exact Hlow]. intros x Hx. apply Z.leb_le, Hx.
      - exists [], (skipn (S (p95Index (List.length sorted))) sorted).
        cbn [app]. symmetry. apply firstn_skipn. }
    rewrite length_firstn in H.
    unfold p95Index in *.
    pose proof (Nat.div_mod_eq (List.length sorted * 95) 100).
    pose proof (Nat.mod_upper_bound (List.length sorted * 95) 100).
    lia.
  - assert (H : (List.length (skipn (p95Index (List.length sorted)) sorted)
                 <= List.length (filter (fun x => Z.leb v x) sorted))%nat).
    { apply count_at_least.
      - eapply Forall_impl; [|exact Hhigh]. intros x Hx. apply Z.leb_le, Hx.
      - exists (firstn (p95Index (List.length sorted)) sorted), [].
        rewrite app_nil_r. symmetry. apply firstn_skipn. }
    rewrite length_skipn in H.
    unfold p95Index in *.
    pose proof (Nat.div_mod_eq (List.length sorted * 95) 100).
    pose proof (Nat.mod_upper_bound (List.length sorted * 95) 100).
    lia.
Qed.

End MetricsFacts.

(** * Instances of the statements above *)

Module Witnesses.

Import Scenarios Cases.

Lemma findGapsInWindow_is_the_free_time_of_the_window_witness :
  Gaps.findGapsInWindow [firstBooking] (Seed.at_ 20 0) (Seed.at_ 23 45)
  = [Gap.mk (Seed.at_ 21 30) (Seed.at_ 23 45)]
  /\ Spec.chronological
       (Gaps.findGapsInWindow [firstBooking] (Seed.at_ 20 0) (Seed.at_ 23 45)).
Proof.
  split; [reflexivity|].
  apply (@Engine.findGapsInWindow_is_the_free_time_of_the_window
           [firstBooking] (Seed.at_ 20 0) (Seed.at_ 23 45)).
  repeat constructor. vm_compute. discriminate.
Defined.

Lemma filterGapsByBlackouts_cuts_the_blackouts_out_witness :
  Spec.chronological
    (Blackouts.filterGapsByBlackouts Seed.eveningDb
       [Gap.mk (Seed.at_ 20 0) (Seed.at_ 23 45)] ["T4"%string]).
Proof.
  apply (@Engine.filterGapsByBlackouts_cuts_the_blackouts_out Seed.eveningDb
           [Gap.mk (Seed.at_ 20 0) (Seed.at_ 23 45)] ["T4"%string]).
  - repeat constructor. vm_compute. discriminate.
  - repeat constructor. vm_compute. discriminate.
  - repeat constructor.
Defined.





Lemma candidates_avoid_blackouts_witness :
  Candidate.end_ afterMaintenance <= Blackout.start Seed.maintenance
  \/ Blackout.end_ Seed.maintenance <= Candidate.start afterMaintenance.
Proof.
  apply (@CandidateSafety.candidates_avoid_blackouts Seed.collate Seed.eveningDb "S1"
           Seed.day 5 90 Seed.windows Seed.BuenosAires
           (Some (Seed.hm 20 0)) (Some (Seed.hm 23 45)) 10%nat
           afterMaintenance Seed.maintenance).
  - lia.
  - discriminate.
  - vm_compute. left. reflexivity.
  - left. reflexivity.
  - left. reflexivity.
  - vm_compute. reflexivity.
Defined.


Lemma candidates_stay_inside_the_requested_window_witness :
  Seed.at_ 21 0 <= Candidate.start secondSitting
  /\ Candidate.end_ secondSitting <= Seed.at_ 23 45.
Proof.
  destruct (@CandidateShape.candidates_stay_inside_the_requested_window
              Seed.collate (World.db rivalWon) "S1" Seed.day 5 90 Seed.windows
              Seed.BuenosAires (Seed.hm 21 0) (Seed.hm 23 45) 10%nat secondSitting)
    as (H1 & H2 & _).
  - vm_compute. left. reflexivity.
  - split; assumption.
Defined.

Lemma generateCombinations_lists_each_group_once_witness :
  NoDup (Wokibrain.generateCombinations ["T1"; "T2"; "T3"]%string 2).
Proof.
  apply (@CombinationFacts.generateCombinations_lists_each_group_once
           string ["T1"; "T2"; "T3"]%string 2%nat).
  - lia.
  - repeat constructor; simpl; intuition discriminate.
Defined.

Lemma selectBestCandidate_is_the_head_of_every_listing_witness :
  Wokibrain.selectBestCandidate Seed.collate Seed.db "S1" Seed.day 5 90 Seed.windows
    Seed.BuenosAires (Some (Seed.hm 20 0)) (Some (Seed.hm 23 45))
  = hd_error
      (Wokibrain.findCandidates Seed.collate Seed.db "S1" Seed.day 5 90 Seed.windows
         Seed.BuenosAires (Some (Seed.hm 20 0)) (Some (Seed.hm 23 45)) 10).
Proof.
  apply (@Best.selectBestCandidate_is_the_head_of_every_listing Seed.collate Seed.db
           "S1" Seed.day 5 90 Seed.windows Seed.BuenosAires
           (Some (Seed.hm 20 0)) (Some (Seed.hm 23 45)) 10%nat).
  - apply OrderFacts.codeUnitOrder_total.
  - apply OrderFacts.codeUnitOrder_trans.
  - lia.
Defined.




Lemma createBooking_books_the_best_candidate_witness :
  exists a restaurant best,
    BookingService.validate racer = Ok a
    /\ Db.getRestaurant (World.db Seed.world) (BookingService.a_restaurantId a)
       = Some restaurant
    /\ Wokibrain.selectBestCandidate Seed.collate (World.db Seed.world)
         (BookingService.a_sectorId a) (BookingService.a_date a)
         (BookingService.a_partySize a) (BookingService.a_durationMinutes a)
         (BookingService.windowsOrEmpty restaurant) (Restaurant.timezone restaurant)
         (BookingService.a_windowStart a) (BookingService.a_windowEnd a) = Some best
    /\ Booking.tableIds firstBooking = Wokibrain.sortStrings (Candidate.tableIds best)
    /\ Booking.start firstBooking = Candidate.start best
    /\ Booking.end_ firstBooking = Candidate.end_ best.
Proof.
  destruct (@Outcome.createBooking_books_the_best_candidate Seed.collate Seed.world
              rivalWon racer firstBooking)
    as (a & restaurant & best & H1 & H2 & H3 & H4 & H5 & H6 & _).
  - reflexivity.
  - vm_compute. reflexivity.
  - discriminate.
  - exists a, restaurant, best. repeat split; assumption.
Defined.

Lemma request_without_candidate_is_queued_witness :
  exists booking entry w',
    BookingService.createBooking Seed.collate fullHouse racer = (Ok booking, w')
    /\ Booking.status booking = PENDING
    /\ Booking.tableIds booking = []
    /\ In entry (WaitlistReplay.loadEntries w' "S1" Seed.day).
Proof.
  destruct (@Outcome.request_without_candidate_is_queued Seed.collate fullHouse racer
              (BookingService.mkArgs "R1" "S1" 5 90 Seed.day None
                 (Some (Seed.hm 20 0)) (Some (Seed.hm 23 45)))
              Seed.R1 Seed.S1)
    as (booking & entry & w' & H1 & H2 & H3 & _ & H5 & _);
    try reflexivity.
  exists booking, entry, w'. repeat split; assumption.
Defined.


Lemma approve_confirms_pending_only_witness :
  fst (Routes.approve largeGroup "BK_A")
  = Routes.Json 200 (Db.with_status awaitingApproval CONFIRMED (World.now largeGroup)).
Proof.
  apply (@HandlerFacts.approve_confirms_pending_only largeGroup "BK_A" awaitingApproval).
  - vm_compute. reflexivity.
  - reflexivity.
Defined.

Lemma reject_removes_pending_only_witness :
  Db.getBooking (World.db (snd (Routes.reject largeGroup "BK_A"))) "BK_A" = None.
Proof.
  apply (@Rejection.reject_removes_pending_only largeGroup "BK_A" awaitingApproval).
  - vm_compute. reflexivity.
  - reflexivity.
Defined.

Lemma discover_lists_first_what_a_booking_would_take_witness :
  exists restaurant best,
    Db.getRestaurant (World.db Seed.world) "R1" = Some restaurant
    /\ Wokibrain.selectBestCandidate Seed.collate (World.db Seed.world) "S1" Seed.day 5
         90 (BookingService.windowsOrEmpty restaurant) (Restaurant.timezone restaurant)
         (Some (Seed.hm 20 0)) (Some (Seed.hm 23 45))
       = Some best
    /\ Candidate.start best = Seed.at_ 20 0.
Proof.
  destruct (@Discovery.discover_lists_first_what_a_booking_would_take Seed.collate
              Seed.world discoverEvening
              (Handlers.mkDiscoverBody 15 90
                 (Wokibrain.findCandidates Seed.collate Seed.db "S1" Seed.day 5 90
                    Seed.windows Seed.BuenosAires
                    (Some (Seed.hm 20 0)) (Some (Seed.hm 23 45)) 10)))
    as (restaurant & best & H1 & _ & _ & H4 & H5 & _).
  - simpl. lia.
  - vm_compute. reflexivity.
  - exists restaurant, best. split; [exact H1|]. split; [exact H5|].
    cbn [Handlers.candidates] in H4.
    vm_compute in H4. injection H4 as <-. reflexivity.
Defined.

Lemma blackout_takes_its_table_off_the_listing_witness :
  Candidate.end_ afterMaintenance <= Seed.at_ 20 0
  \/ Seed.at_ 22 0 <= Candidate.start afterMaintenance.
Proof.
  apply (@BlackoutHandlers.blackout_takes_its_table_off_the_listing Seed.collate
           oneTable (snd (Handlers.createBlackout oneTable maintenanceBody))
           maintenanceBody
           (Blackout.mk "BL_A" "T4" (Seed.at_ 20 0) (Seed.at_ 22 0) "maintenance")
           "S1" Seed.day 5 90 Seed.windows Seed.BuenosAires
           (Some (Seed.hm 20 0)) (Some (Seed.hm 23 45)) 10%nat afterMaintenance).
  - vm_compute. reflexivity.
  - vm_compute. reflexivity.
  - lia.
  - discriminate.
  - vm_compute. left. reflexivity.
  - left. reflexivity.
Defined.


Lemma cleanup_drops_expired_only_witness :
  queue twoHoursLater = ["WL_B"%string]
  /\ fst (Handlers.cleanupWaitlist twoHoursLater) = Handlers.Json 200 1
  /\ queue (snd (Handlers.cleanupWaitlist twoHoursLater)) = [].
Proof.
  destruct (@StoreRoundTrips.cleanup_drops_expired_only twoHoursLater)
    as (H1 & H2 & _).
  - vm_compute. repeat constructor. intros [].
  - split; [reflexivity|]. split; [exact H1|].
    unfold queue. rewrite H2. reflexivity.
Defined.

Lemma generateLockKey_ignores_the_order_of_tables_witness :
  Locks.generateLockKey "R1" "S1" ["T3"; "T2"]%string (Seed.at_ 20 0)
  = Locks.generateLockKey "R1" "S1" ["T2"; "T3"]%string (Seed.at_ 20 0).
Proof.
  apply (@LockFacts.generateLockKey_ignores_the_order_of_tables "R1" "S1"
           ["T3"; "T2"]%string ["T2"; "T3"]%string (Seed.at_ 20 0)).
  apply perm_swap.
Defined.

Lemma toZonedIso_follows_the_clock_witness :
  TimeOfDay.ltb (Seed.hm 20 0) (Seed.hm 23 45) = true
  <-> Gaps.toZonedIso Seed.day (Seed.hm 20 0) Seed.BuenosAires
      < Gaps.toZonedIso Seed.day (Seed.hm 23 45) Seed.BuenosAires.
Proof.
  apply (@ClockFacts.toZonedIso_follows_the_clock Seed.day Seed.BuenosAires
           (Seed.hm 20 0) (Seed.hm 23 45)).
  - reflexivity.
  - simpl. lia.
  - simpl. lia.
Defined.

Lemma recordAssignmentTime_keeps_the_latest_witness :
  (List.length
     (MetricsStore.assignmentTimes
        (MetricsStore.recordAssignmentTime MetricsStore.initial 12))
   <= MetricsStore.MAX_ASSIGNMENT_TIMES)%nat.
Proof.
  apply (@MetricsFacts.recordAssignmentTime_keeps_the_latest MetricsStore.initial 12).
  simpl. unfold MetricsStore.MAX_ASSIGNMENT_TIMES. lia.
Defined.

Lemma duration_is_the_first_matching_rule_rounded_up_witness :
  exists earlier rule later,
    DurationRules.DEFAULT_DURATION_RULES = earlier ++ rule :: later
    /\ Forall (fun r => Vocabulary.admits 3 r = false) earlier
    /\ Vocabulary.admits 3 rule = true
    /\ DurationRules.calculateDurationByPartySize 3 DurationRules.DEFAULT_DURATION_RULES
       mod 15 = 0
    /\ DurationRules.durationMinutes rule
       <= DurationRules.calculateDurationByPartySize 3
            DurationRules.DEFAULT_DURATION_RULES
       < DurationRules.durationMinutes rule + 15.
Proof.
  apply (@RuleFacts.duration_is_the_first_matching_rule_rounded_up 3
           DurationRules.DEFAULT_DURATION_RULES).
  right. left. reflexivity.
Defined.

End Witnesses.
